(** * pyFAI histogram rebinning engine (pyFAI/engines/histogram_engine.py)

    A shallow embedding of [histogram1d_engine] and [histogram2d_engine]
    together with the numpy primitives they call.  The engines are written
    once over an interface of scalar operations ([Scalar]); the interface is
    instantiated by IEEE binary64 (what numpy computes) and by exact extended
    rationals (the reading in exact arithmetic). *)

From Stdlib Require Import List ZArith Bool Lia Lqa QArith Qfield.
From Stdlib Require Import Floats.PrimFloat Numbers.Cyclic.Int63.Uint63.
Import ListNotations.

Set Implicit Arguments.

(** ** Exceptions and results *)

(** The exceptions the engines can raise: a failed [assert], the explicit
    rejection of the azimuthal error model, and numpy's [ValueError]. *)
Inductive exn : Type :=
| AssertionError
| NotImplementedError
| ValueError.

Inductive result (A : Type) : Type :=
| Ok (a : A)
| Raise (e : exn).

Arguments Ok {A} a.
Arguments Raise {A} e.

Definition bind {A B : Type} (m : result A) (k : A -> result B) : result B :=
  match m with
  | Ok a => k a
  | Raise e => Raise e
  end.

Notation "x <- m ;; k" := (bind m (fun x => k))
  (at level 61, m at next level, right associativity).
Notation "' p <- m ;; k" := (bind m (fun x => let p := x in k))
  (at level 61, p pattern, m at next level, right associativity).

(** Python's [assert]. *)
Definition assert (b : bool) : result unit :=
  if b then Ok tt else Raise AssertionError.

Definition is_ok {A : Type} (m : result A) : bool :=
  match m with Ok _ => true | Raise _ => false end.

(** ** Scalars *)

(** The operations on array elements that the engines and numpy use. *)
Class Scalar (F : Type) : Type := {
  fnan : F;
  fof_Z : Z -> F;
  fadd : F -> F -> F;
  fsub : F -> F -> F;
  fmul : F -> F -> F;
  fdiv : F -> F -> F;
  fsqrt : F -> F;
  feqb : F -> F -> bool;
  fleb : F -> F -> bool;
  fltb : F -> F -> bool;
  fisfinite : F -> bool
}.

Declare Scope scalar_scope.
Delimit Scope scalar_scope with F.
Infix "+" := fadd : scalar_scope.
Infix "-" := fsub : scalar_scope.
Infix "*" := fmul : scalar_scope.
Infix "/" := fdiv : scalar_scope.
Infix "==" := feqb (at level 70, no associativity) : scalar_scope.
Infix "<=?" := fleb : scalar_scope.
Infix "<?" := fltb : scalar_scope.

Module Float64.

Definition of_Z (z : Z) : float :=
    match z with
    | Z0 => PrimFloat.zero
    | Zpos _ => PrimFloat.of_uint63 (Uint63.of_Z z)
    | Zneg p => PrimFloat.opp (PrimFloat.of_uint63 (Uint63.of_Z (Zpos p)))
    end.

Definition isfinite (x : float) : bool :=
    negb (PrimFloat.is_nan x || PrimFloat.is_infinity x).

End Float64.

(** IEEE binary64, numpy's [float64]. *)
#[export] Instance float64 : Scalar float := {|
  fnan := PrimFloat.nan;
  fof_Z := Float64.of_Z;
  fadd := PrimFloat.add;
  fsub := PrimFloat.sub;
  fmul := PrimFloat.mul;
  fdiv := PrimFloat.div;
  fsqrt := PrimFloat.sqrt;
  feqb := PrimFloat.eqb;
  fleb := PrimFloat.leb;
  fltb := PrimFloat.ltb;
  fisfinite := Float64.isfinite
|}.

(** ** Exact extended rationals *)

(** The reading of the arithmetic without rounding: finite values are
    rationals, and the special values of IEEE arithmetic are kept, so that
    [x/0] and [0/0] mean what they mean for numpy ([inf] and [nan]). *)
Inductive xq : Type :=
| Fin (q : Q)
| Inf (neg : bool)
| NaN.

Module Exact.

Definition Qneg (q : Q) : bool := negb (Qle_bool 0 q).

Definition add (x y : xq) : xq :=
  match x, y with
  | Fin a, Fin b => Fin (a + b)
  | Fin _, Inf s => Inf s
  | Inf s, Fin _ => Inf s
  | Inf s, Inf t => if Bool.eqb s t then Inf s else NaN
  | _, _ => NaN
  end.

Definition opp (x : xq) : xq :=
  match x with
  | Fin a => Fin (- a)
  | Inf s => Inf (negb s)
  | NaN => NaN
  end.

Definition sub (x y : xq) : xq := add x (opp y).

Definition mul (x y : xq) : xq :=
  match x, y with
  | Fin a, Fin b => Fin (a * b)
  | Fin a, Inf s => if Qeq_bool a 0 then NaN else Inf (xorb (Qneg a) s)
  | Inf s, Fin b => if Qeq_bool b 0 then NaN else Inf (xorb s (Qneg b))
  | Inf s, Inf t => Inf (xorb s t)
  | _, _ => NaN
  end.

Definition div (x y : xq) : xq :=
  match x, y with
  | Fin a, Fin b =>
      if Qeq_bool b 0
      then (if Qeq_bool a 0 then NaN else Inf (Qneg a))
      else Fin (a / b)
  | Fin _, Inf _ => Fin 0
  | Inf s, Fin b => Inf (xorb s (Qneg b))
  | _, _ => NaN
  end.

(** [qsqrt] is the square root on the non-negative rationals; it has no
    rational value in general and stays a parameter of the exact reading. *)
Definition sqrt (qsqrt : Q -> Q) (x : xq) : xq :=
  match x with
  | Fin a => if Qneg a then NaN else Fin (qsqrt a)
  | Inf false => Inf false
  | _ => NaN
  end.

Definition eqb (x y : xq) : bool :=
  match x, y with
  | Fin a, Fin b => Qeq_bool a b
  | Inf s, Inf t => Bool.eqb s t
  | _, _ => false
  end.

Definition leb (x y : xq) : bool :=
  match x, y with
  | Fin a, Fin b => Qle_bool a b
  | Fin _, Inf s => negb s
  | Inf s, Fin _ => s
  | Inf s, Inf t => s || negb t
  | _, _ => false
  end.

Definition ltb (x y : xq) : bool :=
  match x, y with
  | Fin a, Fin b => negb (Qle_bool b a)
  | Fin _, Inf s => negb s
  | Inf s, Fin _ => s
  | Inf s, Inf t => s && negb t
  | _, _ => false
  end.

Definition isfinite (x : xq) : bool :=
  match x with Fin _ => true | _ => false end.

(** A rational square root: exact on the squares of rationals, rounded
    down otherwise.  It is the oracle of the concrete examples. *)
Definition root (q : Q) : Q := Z.sqrt (Qnum q * Zpos (Qden q)) # Qden q.

(** Equality of exact values: the rationals up to [Qeq]. *)
Definition eq (x y : xq) : Prop :=
  match x, y with
  | Fin a, Fin b => (a == b)%Q
  | Inf s, Inf t => s = t
  | NaN, NaN => True
  | _, _ => False
  end.

End Exact.

Definition exact (qsqrt : Q -> Q) : Scalar xq := {|
  fnan := NaN;
  fof_Z := fun z => Fin (inject_Z z);
  fadd := Exact.add;
  fsub := Exact.sub;
  fmul := Exact.mul;
  fdiv := Exact.div;
  fsqrt := Exact.sqrt qsqrt;
  feqb := Exact.eqb;
  fleb := Exact.leb;
  fltb := Exact.ltb;
  fisfinite := Exact.isfinite
|}.

Infix "=x=" := Exact.eq (at level 70, no associativity).

(** The weights that [bincount] adds: those of the values that have a bin. *)
Definition binned (indices : list (option nat)) (weights : list xq) : list xq :=
  map snd (filter (fun iw => match fst iw with Some _ => true | None => false end)
                  (combine indices weights)).

(** [x <= y] between finite values. *)
Definition fin_le (x y : xq) : Prop :=
  match x, y with
  | Fin a, Fin b => (a <= b)%Q
  | _, _ => False
  end.

(** A weight that is finite and not negative. *)
Definition nonneg (w : xq) : Prop :=
  match w with
  | Fin c => (0 <= c)%Q
  | _ => False
  end.

(** ** Arrays *)

(** A 1D array is a list; a 2D array is the list of its rows. *)
Definition ravel {A : Type} (a : list (list A)) : list A := concat a.

Fixpoint zip_with {A B C : Type} (f : A -> B -> C) (a : list A) (b : list B) : list C :=
  match a, b with
  | x :: a', y :: b' => f x y :: zip_with f a' b'
  | _, _ => []
  end.

(** [a[k] += w]. *)
Fixpoint add_at {F : Type} `{Scalar F} (k : nat) (w : F) (a : list F) : list F :=
  match a, k with
  | [], _ => []
  | x :: a', O => (x + w)%F :: a'
  | x :: a', S k' => x :: add_at k' w a'
  end.

(** [H[i][j] += w]. *)
Fixpoint add_at2 {F : Type} `{Scalar F} (i j : nat) (w : F) (H : list (list F)) : list (list F) :=
  match H, i with
  | [], _ => []
  | row :: H', O => add_at j w row :: H'
  | row :: H', S i' => row :: add_at2 i' j w H'
  end.

(** [H.T]: the columns of [H] as rows. *)
Definition transpose {F : Type} `{Scalar F} (H : list (list F)) : list (list F) :=
  map (fun j => map (fun row => nth j row (fof_Z 0)) H) (seq 0 (length (hd [] H))).

(** ** The numpy primitives used by the engines *)

Module np.
Section Primitives.
Context {F : Type} `{Scalar F}.

Definition isnan (x : F) : bool := negb (x == x)%F.

(** [numpy.minimum] and [numpy.maximum] propagate NaN. *)
Definition minimum (a b : F) : F :=
  if isnan a then a else if isnan b then b else if (b <? a)%F then b else a.

Definition maximum (a b : F) : F :=
  if isnan a then a else if isnan b then b else if (a <? b)%F then b else a.

(** [a.min()] and [a.max()]; a zero-size array has no minimum. *)
Definition amin (a : list F) : result F :=
  match a with
  | [] => Raise ValueError
  | x :: a' => Ok (fold_left minimum a' x)
  end.

Definition amax (a : list F) : result F :=
  match a with
  | [] => Raise ValueError
  | x :: a' => Ok (fold_left maximum a' x)
  end.

(** [numpy.linspace(start, stop, num)] with the end point included:
    [arange(num) * step + start] with the last entry set to [stop]. *)
Definition linspace (start stop : F) (num : nat) : list F :=
  match num with
  | O => []
  | S O => [start]
  | S div =>
      let delta := (stop - start)%F in
      let step := (delta / fof_Z (Z.of_nat div))%F in
      map (fun k =>
             let y := fof_Z (Z.of_nat k) in
             if (step == fof_Z 0)%F
             then (y / fof_Z (Z.of_nat div) * delta + start)%F
             else (y * step + start)%F)
          (seq 0 div) ++ [stop]
  end.

(** The outer bin edges ([_get_outer_edges] of numpy/lib/histograms.py):
    an explicit range must be finite and ordered, a missing range is read
    from the data, and an empty range is widened by one half on each side. *)
Definition get_outer_edges (a : list F) (range : option (F * F)) : result (F * F) :=
  '(first_edge, last_edge) <-
    match range with
    | Some (first_edge, last_edge) =>
        if (last_edge <? first_edge)%F then Raise ValueError
        else if negb (fisfinite first_edge && fisfinite last_edge) then Raise ValueError
        else Ok (first_edge, last_edge)
    | None =>
        match a with
        | [] => Ok (fof_Z 0, fof_Z 1)
        | _ =>
            first_edge <- amin a ;;
            last_edge <- amax a ;;
            if negb (fisfinite first_edge && fisfinite last_edge) then Raise ValueError
            else Ok (first_edge, last_edge)
        end
    end ;;
  if (first_edge == last_edge)%F
  then Ok (first_edge - fof_Z 1 / fof_Z 2, last_edge + fof_Z 1 / fof_Z 2)%F
  else Ok (first_edge, last_edge).

(** [numpy.searchsorted(a, v, side='right')] on a sorted array: the number
    of leading entries that are [<= v]. *)
Fixpoint searchsorted_right (a : list F) (v : F) : nat :=
  match a with
  | [] => O
  | e :: a' => if (e <=? v)%F then S (searchsorted_right a' v) else O
  end.

(** The bin of a value: every bin is half-open [[e_k, e_k+1)] except the
    last one, which includes the last edge; a value outside of
    [[first_edge, last_edge]] has no bin. *)
Definition bin_index (first_edge last_edge : F) (edges : list F) (v : F) : option nat :=
  if (first_edge <=? v)%F && (v <=? last_edge)%F
  then Some (searchsorted_right (removelast (tl edges)) v)
  else None.

(** [numpy.bincount(indices, weights, minlength)] over the kept values. *)
Fixpoint bincount (indices : list (option nat)) (weights : list F) (n : list F) : list F :=
  match indices, weights with
  | Some k :: indices', w :: weights' => bincount indices' weights' (add_at k w n)
  | None :: indices', _ :: weights' => bincount indices' weights' n
  | _, _ => n
  end.

(** [numpy.histogram(a, bins, range=range, weights=weights)] for an integer
    number of bins: the weighted histogram and the [bins + 1] bin edges. *)
Definition histogram (a : list F) (bins : Z) (weights : list F) (range : option (F * F))
  : result (list F * list F) :=
  if negb (length weights =? length a)%nat then Raise ValueError
  else if (bins <? 1)%Z then Raise ValueError
  else
    '(first_edge, last_edge) <- get_outer_edges a range ;;
    let n_equal_bins := Z.to_nat bins in
    let bin_edges := linspace first_edge last_edge (S n_equal_bins) in
    let indices := map (bin_index first_edge last_edge bin_edges) a in
    Ok (bincount indices weights (repeat (fof_Z 0) n_equal_bins), bin_edges).

Fixpoint bincount2 (ix iy : list (option nat)) (weights : list F) (n : list (list F))
  : list (list F) :=
  match ix, iy, weights with
  | Some i :: ix', Some j :: iy', w :: weights' => bincount2 ix' iy' weights' (add_at2 i j w n)
  | _ :: ix', _ :: iy', _ :: weights' => bincount2 ix' iy' weights' n
  | _, _, _ => n
  end.

(** [numpy.histogram2d(x, y, bins, range=range, weights=weights)] for a pair
    of bin numbers: the matrix [H[ix][iy]] and the edges along both axes.  A
    sample outside of the range of either axis is dropped. *)
Definition histogram2d (x y : list F) (bins : Z * Z) (weights : list F)
           (range : option (F * F) * option (F * F))
  : result (list (list F) * list F * list F) :=
  if negb ((length y =? length x)%nat && (length weights =? length x)%nat) then Raise ValueError
  else if (fst bins <? 1)%Z || (snd bins <? 1)%Z then Raise ValueError
  else
    '(x0, x1) <- get_outer_edges x (fst range) ;;
    '(y0, y1) <- get_outer_edges y (snd range) ;;
    let nx := Z.to_nat (fst bins) in
    let ny := Z.to_nat (snd bins) in
    let xedges := linspace x0 x1 (S nx) in
    let yedges := linspace y0 y1 (S ny) in
    let ix := map (bin_index x0 x1 xedges) x in
    let iy := map (bin_index y0 y1 yedges) y in
    Ok (bincount2 ix iy weights (repeat (repeat (fof_Z 0) ny) nx), xedges, yedges).

(** Assignment [a[mask] = value] into a float array: [None] is stored as NaN. *)
Definition of_object (value : option F) : F :=
  match value with
  | Some v => v
  | None => fnan
  end.

Definition setitem_mask (a : list F) (mask : list bool) (value : option F) : list F :=
  zip_with (fun x (m : bool) => if m then of_object value else x) a mask.

End Primitives.
End np.

(** ** Data model of the engines *)

(** One row of the array returned by [preproc(..., split_result=4)] and
    reshaped to [(-1, 4)]: the columns 0 to 3.  The correction stage itself
    (pyFAI/engines/preproc.py) is not part of these sources; the engines are
    modelled from its output on. *)
Record PixelSample (F : Type) : Type := {
  signal : F;
  variance : F;
  normalization : F;
  count : F
}.

Arguments signal {F} _.
Arguments variance {F} _.
Arguments normalization {F} _.
Arguments count {F} _.

(** Modelled from the spec: the enumeration [ErrorModel] of
    pyFAI/containers.py, a closed tag of which [NO] alone is falsy. *)
Inductive ErrorModel : Type :=
| NO
| VARIANCE
| POISSON
| AZIMUTHAL
| HYBRID.

Definition truthy (error_model : ErrorModel) : bool :=
  match error_model with
  | NO => false
  | _ => true
  end.

Definition is_azimuthal (error_model : ErrorModel) : bool :=
  match error_model with
  | AZIMUTHAL => true
  | _ => false
  end.

(** Modelled from the spec: the named tuple [Integrate1dtpl] of
    pyFAI/containers.py, with the ten fields of the 1D result in order. *)
Record Integrate1dtpl (F : Type) : Type := {
  positions : list F;
  intensity : list F;
  sem : option (list F);
  sum_signal : list F;
  sum_variance : option (list F);
  sum_normalization : list F;
  sum_count : list F;
  std : option (list F);
  sem2 : option (list F);
  sum_normalization_sq : option (list F)
}.

Arguments positions {F} _.
Arguments intensity {F} _.
Arguments sem {F} _.
Arguments sum_signal {F} _.
Arguments sum_variance {F} _.
Arguments sum_normalization {F} _.
Arguments sum_count {F} _.
Arguments std {F} _.
Arguments sem2 {F} _.
Arguments sum_normalization_sq {F} _.

(** Modelled from the spec: the named tuple [Integrate2dtpl] of
    pyFAI/containers.py, with the eight fields of the 2D result in order. *)
Record Integrate2dtpl (F : Type) : Type := {
  bins_radial : list F;
  bins_azimuthal : list F;
  intensity_2d : list (list F);
  error_2d : option (list (list F));
  sum_signal_2d : list (list F);
  sum_variance_2d : option (list (list F));
  sum_normalization_2d : list (list F);
  sum_count_2d : list (list F)
}.

Arguments bins_radial {F} _.
Arguments bins_azimuthal {F} _.
Arguments intensity_2d {F} _.
Arguments error_2d {F} _.
Arguments sum_signal_2d {F} _.
Arguments sum_variance_2d {F} _.
Arguments sum_normalization_2d {F} _.
Arguments sum_count_2d {F} _.

(** ** The engines *)

Section Engines.
Context {F : Type} `{Scalar F}.

(** Modelled from the spec: the constant [EPS32] of pyFAI/utils, the
    amplification factor [1 + 2^-32]. *)
Definition EPS32 : F := (fof_Z 1 + fof_Z 1 / fof_Z 4294967296)%F.

(** Lines 117-118: an explicit range is used as it is, a missing one is
    read from the whole radial array. *)
Definition resolve_radial_range (radial : list F) (radial_range : option (F * F))
  : result (F * F) :=
  match radial_range with
  | None =>
      lo <- np.amin radial ;;
      hi <- np.amax radial ;;
      Ok (lo, (hi * EPS32)%F)
  | Some range => Ok range
  end.

(** [histo_count == 0]. *)
Definition mask_empty (histo_count : list F) : list bool :=
  map (fun c => (c == fof_Z 0)%F) histo_count.

(** [if dummy is not None: empty = dummy]. *)
Definition empty_fill (dummy empty : option F) : option F :=
  match dummy with
  | Some d => Some d
  | None => empty
  end.

(** [(position[1:] + position[:-1]) / 2.0]. *)
Definition bin_centers (position : list F) : list F :=
  zip_with (fun a b => ((a + b) / fof_Z 2)%F) (tl position) (removelast position).

(** [histogram1d_engine]: [prep] is the output of the correction stage;
    [histo_var] holds [histo_variance] and [histo_normalization2], which
    are [None] together. *)
Definition histogram1d_engine (radial : list (list F)) (npt : Z)
           (prep : list (PixelSample F)) (dummy empty : option F)
           (error_model : ErrorModel) (radial_range : option (F * F))
  : result (Integrate1dtpl F) :=
  let radial := ravel radial in
  _ <- assert (length prep =? length radial)%nat ;;
  radial_range <- resolve_radial_range radial radial_range ;;
  '(histo_signal, _) <- np.histogram radial npt (map signal prep) (Some radial_range) ;;
  histo_var <-
    (if is_azimuthal error_model then Raise NotImplementedError
     else if truthy error_model then
       '(histo_variance, _) <-
         np.histogram radial npt (map variance prep) (Some radial_range) ;;
       '(histo_normalization2, _) <-
         np.histogram radial npt
           (map (fun p => (normalization p * normalization p)%F) prep) (Some radial_range) ;;
       Ok (Some (histo_variance, histo_normalization2))
     else Ok None) ;;
  '(histo_normalization, _) <-
    np.histogram radial npt (map normalization prep) (Some radial_range) ;;
  '(histo_count, position) <-
    np.histogram radial npt (map count prep) (Some radial_range) ;;
  let positions := bin_centers position in
  let mask := mask_empty histo_count in
  let empty := empty_fill dummy empty in
  let intensity := np.setitem_mask (zip_with fdiv histo_signal histo_normalization) mask empty in
  let std :=
    option_map (fun vn => np.setitem_mask (map fsqrt (zip_with fdiv (fst vn) (snd vn))) mask empty)
               histo_var in
  let sem :=
    option_map (fun vn => np.setitem_mask (zip_with fdiv (map fsqrt (fst vn)) histo_normalization)
                                          mask empty)
               histo_var in
  Ok {| positions := positions;
        intensity := intensity;
        sem := sem;
        sum_signal := histo_signal;
        sum_variance := option_map fst histo_var;
        sum_normalization := histo_normalization;
        sum_count := histo_count;
        std := std;
        sem2 := sem;
        sum_normalization_sq := option_map snd histo_var |}.

(** [0.5 * (position[1:] + position[:-1])]. *)
Definition bin_centers_2d (position : list F) : list F :=
  zip_with (fun a b => (fof_Z 1 / fof_Z 2 * (a + b))%F) (tl position) (removelast position).

(** [a[mask] = value] on a matrix. *)
Definition setitem_mask_2d (a : list (list F)) (mask : list (list bool)) (value : option F)
  : list (list F) :=
  zip_with (fun row mrow => np.setitem_mask row mrow value) a mask.

Definition divide_2d (a b : list (list F)) : list (list F) :=
  zip_with (zip_with fdiv) a b.

(** [histogram2d_engine]. *)
Definition histogram2d_engine (radial azimuthal : list (list F)) (npt : Z * Z)
           (prep : list (PixelSample F)) (dummy empty : option F)
           (error_model : ErrorModel) (radial_range azimuth_range : option (F * F))
  : result (Integrate2dtpl F) :=
  let radial := ravel radial in
  let azimuthal := ravel azimuthal in
  _ <- assert (length prep =? length radial)%nat ;;
  _ <- assert (length prep =? length azimuthal)%nat ;;
  let npt := (Z.max 1 (fst npt), Z.max 1 (snd npt)) in
  let rng := (radial_range, azimuth_range) in
  '(histo_signal, _, _) <- np.histogram2d radial azimuthal npt (map signal prep) rng ;;
  '(histo_normalization, _, _) <-
    np.histogram2d radial azimuthal npt (map normalization prep) rng ;;
  '(histo_count, position_rad, position_azim) <-
    np.histogram2d radial azimuthal npt (map count prep) rng ;;
  let histo_signal := transpose histo_signal in
  let histo_normalization := transpose histo_normalization in
  let histo_count := transpose histo_count in
  histo_variance <-
    (if truthy error_model then
       '(histo_variance, _, _) <-
         np.histogram2d radial azimuthal npt (map variance prep) rng ;;
       Ok (Some (transpose histo_variance))
     else Ok None) ;;
  let bins_azim := bin_centers_2d position_azim in
  let bins_rad := bin_centers_2d position_rad in
  let intensity := divide_2d histo_signal histo_normalization in
  let error :=
    option_map (fun v => divide_2d (map (map fsqrt) v) histo_normalization) histo_variance in
  let mask := map mask_empty histo_count in
  let empty := empty_fill dummy empty in
  let intensity := setitem_mask_2d intensity mask empty in
  let error := option_map (fun e => setitem_mask_2d e mask empty) error in
  Ok {| bins_radial := bins_rad;
        bins_azimuthal := bins_azim;
        intensity_2d := intensity;
        error_2d := error;
        sum_signal_2d := histo_signal;
        sum_variance_2d := histo_variance;
        sum_normalization_2d := histo_normalization;
        sum_count_2d := histo_count |}.

End Engines.

(** ** Quantities the properties are stated with *)

Section Quantities.
Context {F : Type} `{Scalar F}.

(** The sum of an array. *)
Definition total (a : list F) : F := fold_right fadd (fof_Z 0) a.

(** [lo <= r <= hi]. *)
Definition in_range (range : F * F) (r : F) : bool :=
  (fst range <=? r)%F && (r <=? snd range)%F.

(** The weights of the pixels whose coordinate lies in [range]. *)
Definition kept (range : F * F) (radial weights : list F) : list F :=
  map snd (filter (fun rw => in_range range (fst rw)) (combine radial weights)).

(** The interval that is binned for a resolved range: the range itself,
    or the range widened by one half on each side when it is empty. *)
Definition binned_interval (range : F * F) : F * F :=
  if (fst range == snd range)%F
  then (fst range - fof_Z 1 / fof_Z 2, snd range + fof_Z 1 / fof_Z 2)%F
  else range.

(** [a[i]]. *)
Definition item (a : list F) (i : nat) : F := nth i a fnan.

(** [a[i][j]]. *)
Definition item_2d (a : list (list F)) (i j : nat) : F := nth j (nth i a []) fnan.

End Quantities.

(** ** Conditions under which the engines return *)

Section Conditions.
Context {F : Type} `{Scalar F}.

(** A range that [numpy.histogram] accepts: ordered and finite. *)
Definition valid_range (range : F * F) : bool :=
  negb (snd range <? fst range)%F && fisfinite (fst range) && fisfinite (snd range).

(** The 1D call gets as far as the binning: the range is resolved and
    valid, and there is at least one bin. *)
Definition binnable (radial : list F) (npt : Z) (radial_range : option (F * F)) : bool :=
  match resolve_radial_range radial radial_range with
  | Ok range => (1 <=? npt)%Z && valid_range range
  | Raise _ => false
  end.

End Conditions.

(** ** Shapes of matrices *)

(** A matrix of [rows] rows of [cols] entries each. *)
Definition shape {A : Type} (rows cols : nat) (M : list (list A)) : Prop :=
  length M = rows /\ Forall (fun row => length row = cols) M.

(** ** The pixels of a bin *)

Section BinContents.
Context {F : Type} `{Scalar F}.

(** The bin [k] of the edges: [[e_k, e_k+1)], and [[e_k, e_k+1]] for the
    last bin. *)
Definition in_bin (edges : list F) (k : nat) (v : F) : bool :=
  (item edges k <=? v)%F &&
  (if (S (S k) =? length edges)%nat
   then (v <=? item edges (S k))%F
   else (v <? item edges (S k))%F).

(** The weights of the pixels whose coordinate lies in the bin [k]. *)
Definition bin_weights (edges : list F) (k : nat) (radial weights : list F) : list F :=
  map snd (filter (fun rw => in_bin edges k (fst rw)) (combine radial weights)).

(** The weights that [bincount] adds to the bin [k]. *)
Definition indexed (k : nat) (indices : list (option nat)) (weights : list F) : list F :=
  map snd (filter (fun iw => match fst iw with Some j => (j =? k)%nat | None => false end)
                  (combine indices weights)).

End BinContents.

(** ** The pixels of a cell *)

Section CellContents.
Context {F : Type} `{Scalar F}.

(** The weights of the pixels whose radial coordinate lies in the bin [i]
    of [xedges] and whose azimuthal coordinate lies in the bin [j] of
    [yedges]. *)
Definition cell_weights (xedges yedges : list F) (i j : nat)
           (radial azimuthal weights : list F) : list F :=
  map snd (filter (fun cw => in_bin xedges i (fst (fst cw)) && in_bin yedges j (snd (fst cw)))
                  (combine (combine radial azimuthal) weights)).

(** The weights that [bincount2] adds to the cell [[i][j]]. *)
Definition indexed2 (i j : nat) (ix iy : list (option nat)) (weights : list F) : list F :=
  map snd (filter (fun iw => match fst (fst iw), snd (fst iw) with
                             | Some a, Some b => (a =? i)%nat && (b =? j)%nat
                             | _, _ => false
                             end)
                  (combine (combine ix iy) weights)).

End CellContents.

(** ** Concrete inputs *)

(** A pixel sample in binary64 and in exact arithmetic. *)
Definition px (s v n c : float) : PixelSample float :=
  {| signal := s; variance := v; normalization := n; count := c |}.

Definition qx (s v n c : Q) : PixelSample xq :=
  {| signal := Fin s; variance := Fin v; normalization := Fin n; count := Fin c |}.

(** ** Division by zero and NaN in binary64 *)

Example float64_div0 : (fof_Z 1 / fof_Z 0 == PrimFloat.infinity)%F = true.
Proof. reflexivity. Qed.

Example float64_nan_ne_0 : ((fnan : float) == fof_Z 0)%F = false.
Proof. reflexivity. Qed.

(** ** Successful and failed steps *)

Lemma bind_Ok_inv {A B : Type} (m : result A) (k : A -> result B) (b : B) :
  bind m k = Ok b -> exists a, m = Ok a /\ k a = Ok b.
Proof. destruct m as [a|e]; cbn; [eauto | discriminate]. Qed.

Lemma bind_Raise_l {A B : Type} (e : exn) (k : A -> result B) : bind (Raise e) k = Raise e.
Proof. reflexivity. Qed.

Lemma is_ok_false {A : Type} (m : result A) : is_ok m = false <-> forall a, m <> Ok a.
Proof.
  destruct m as [a|e]; cbn; split; intro Hm; try discriminate; try reflexivity.
  now destruct (Hm a).
Qed.

(** Take the next successful step of a computation [H : bind m k = Ok r]. *)
Ltac step H :=
  match type of H with
  | bind ?m _ = Ok _ =>
      let a := fresh "a" in
      let E := fresh "E" in
      destruct m as [a|?] eqn:E; [cbn [bind] in H | discriminate H]
  | (let '(_, _) := ?p in _) = Ok _ => destruct p; cbn beta iota in H
  | (if ?b then _ else _) = Ok _ =>
      let E := fresh "E" in destruct b eqn:E; try discriminate H
  end.

Section Structure.
Context {F : Type} `{Scalar F}.

(** What a successful 1D call has computed. *)
Lemma histogram1d_engine_Ok radial npt prep dummy empty error_model radial_range r :
  histogram1d_engine radial npt prep dummy empty error_model radial_range = Ok r ->
  exists range hs es hn en hc position hv,
    length prep = length (ravel radial) /\
    resolve_radial_range (ravel radial) radial_range = Ok range /\
    np.histogram (ravel radial) npt (map signal prep) (Some range) = Ok (hs, es) /\
    np.histogram (ravel radial) npt (map normalization prep) (Some range) = Ok (hn, en) /\
    np.histogram (ravel radial) npt (map count prep) (Some range) = Ok (hc, position) /\
    is_azimuthal error_model = false /\
    ((truthy error_model = false /\ hv = None) \/
     (truthy error_model = true /\
      exists v ev n2 en2,
        np.histogram (ravel radial) npt (map variance prep) (Some range) = Ok (v, ev) /\
        np.histogram (ravel radial) npt
          (map (fun p => (normalization p * normalization p)%F) prep) (Some range)
        = Ok (n2, en2) /\
        hv = Some (v, n2))) /\
    let mask := mask_empty hc in
    let fill := empty_fill dummy empty in
    let sem_ :=
      option_map (fun vn => np.setitem_mask (zip_with fdiv (map fsqrt (fst vn)) hn) mask fill)
                 hv in
    r = {| positions := bin_centers position;
           intensity := np.setitem_mask (zip_with fdiv hs hn) mask fill;
           sem := sem_;
           sum_signal := hs;
           sum_variance := option_map fst hv;
           sum_normalization := hn;
           sum_count := hc;
           std := option_map
                    (fun vn => np.setitem_mask (map fsqrt (zip_with fdiv (fst vn) (snd vn)))
                                               mask fill) hv;
           sem2 := sem_;
           sum_normalization_sq := option_map snd hv |}.
Proof.
  unfold histogram1d_engine. intros Hr.
  step Hr. step Hr. step Hr. step Hr.
  destruct (is_azimuthal error_model) eqn:Eaz; [discriminate Hr |].
  assert (Hlen : length prep = length (ravel radial)).
  { unfold assert in E. destruct (length prep =? length (ravel radial))%nat eqn:El;
      [now apply Nat.eqb_eq | discriminate E]. }
  destruct (truthy error_model) eqn:Etr.
  - step Hr. repeat step E2. injection E2 as <-.
    repeat step Hr. injection Hr as <-.
    do 8 eexists.
    do 6 (split; [first [eassumption | reflexivity] |]).
    split;
      [ right; split; [reflexivity |]; do 4 eexists;
        do 2 (split; [first [eassumption | reflexivity] |]); reflexivity
      | reflexivity ].
  - cbn [bind] in Hr. repeat step Hr. injection Hr as <-.
    do 8 eexists.
    do 6 (split; [first [eassumption | reflexivity] |]).
    split; [left; split; reflexivity | reflexivity].
Qed.

(** What a successful 2D call has computed. *)
Lemma histogram2d_engine_Ok radial azimuthal npt prep dummy empty error_model
      radial_range azimuth_range r :
  histogram2d_engine radial azimuthal npt prep dummy empty error_model
                     radial_range azimuth_range = Ok r ->
  let bins := (Z.max 1 (fst npt), Z.max 1 (snd npt)) in
  let rng := (radial_range, azimuth_range) in
  exists hs xs ys hn xn yn hc position_rad position_azim hv,
    length prep = length (ravel radial) /\
    length prep = length (ravel azimuthal) /\
    np.histogram2d (ravel radial) (ravel azimuthal) bins (map signal prep) rng
    = Ok (hs, xs, ys) /\
    np.histogram2d (ravel radial) (ravel azimuthal) bins (map normalization prep) rng
    = Ok (hn, xn, yn) /\
    np.histogram2d (ravel radial) (ravel azimuthal) bins (map count prep) rng
    = Ok (hc, position_rad, position_azim) /\
    ((truthy error_model = false /\ hv = None) \/
     (truthy error_model = true /\
      exists v xv yv,
        np.histogram2d (ravel radial) (ravel azimuthal) bins (map variance prep) rng
        = Ok (v, xv, yv) /\
        hv = Some (transpose v))) /\
    let mask := map mask_empty (transpose hc) in
    let fill := empty_fill dummy empty in
    r = {| bins_radial := bin_centers_2d position_rad;
           bins_azimuthal := bin_centers_2d position_azim;
           intensity_2d :=
             setitem_mask_2d (divide_2d (transpose hs) (transpose hn)) mask fill;
           error_2d :=
             option_map (fun v => setitem_mask_2d
                                    (divide_2d (map (map fsqrt) v) (transpose hn)) mask fill)
                        hv;
           sum_signal_2d := transpose hs;
           sum_variance_2d := hv;
           sum_normalization_2d := transpose hn;
           sum_count_2d := transpose hc |}.
Proof.
  intros Hr bins rng. unfold histogram2d_engine in Hr.
  step Hr. step Hr.
  assert (Hlen : length prep = length (ravel radial)).
  { unfold assert in E. destruct (length prep =? length (ravel radial))%nat eqn:El;
      [now apply Nat.eqb_eq | discriminate E]. }
  assert (Hlen' : length prep = length (ravel azimuthal)).
  { unfold assert in E0. destruct (length prep =? length (ravel azimuthal))%nat eqn:El;
      [now apply Nat.eqb_eq | discriminate E0]. }
  fold bins rng in Hr.
  step Hr. destruct a1 as [[hs xs] ys]. cbn beta iota in Hr.
  step Hr. destruct a1 as [[hn xn] yn]. cbn beta iota in Hr.
  step Hr. destruct a1 as [[hc pr] pa]. cbn beta iota in Hr.
  destruct (truthy error_model) eqn:Etr.
  - step Hr. step E4. destruct a2 as [[v xv] yv]. cbn beta iota in E4.
    injection E4 as <-. injection Hr as <-.
    do 10 eexists.
    do 5 (split; [first [eassumption | reflexivity] |]).
    split;
      [ right; split; [reflexivity |]; do 3 eexists;
        split; [first [eassumption | reflexivity] | reflexivity]
      | reflexivity ].
  - cbn [bind] in Hr. injection Hr as <-.
    do 10 eexists.
    do 5 (split; [first [eassumption | reflexivity] |]).
    split; [left; split; reflexivity | reflexivity].
Qed.

End Structure.

(** ** Failures *)

Section Failures.
Context {F : Type} `{Scalar F}.

(** C9: when the number of coordinates differs from the number of pixel
    samples the call raises the assertion error, whatever the other
    arguments are; no histogram is computed and no result is returned.  In
    the 2D engine both coordinate arrays must have as many entries as there
    are samples. *)
Theorem shape_mismatch_raises
        (radial azimuthal : list (list F)) (npt : Z) (npt2 : Z * Z)
        (prep : list (PixelSample F)) (dummy empty : option F) (error_model : ErrorModel)
        (radial_range azimuth_range : option (F * F))
        (Hshape : length (ravel radial) <> length prep \/
                  length (ravel azimuthal) <> length prep) :
  histogram2d_engine radial azimuthal npt2 prep dummy empty error_model
                     radial_range azimuth_range = Raise AssertionError /\
  (length (ravel radial) <> length prep ->
   histogram1d_engine radial npt prep dummy empty error_model radial_range
   = Raise AssertionError).
Proof.
  split.
  - unfold histogram2d_engine, assert.
    destruct (length prep =? length (ravel radial))%nat eqn:Er; [| reflexivity].
    destruct (length prep =? length (ravel azimuthal))%nat eqn:Ea; [| reflexivity].
    apply Nat.eqb_eq in Er, Ea. destruct Hshape as [Hs | Hs]; congruence.
  - intros Hr. unfold histogram1d_engine, assert.
    destruct (length prep =? length (ravel radial))%nat eqn:Er; [| reflexivity].
    apply Nat.eqb_eq in Er. congruence.
Qed.

(** C2 as amended: with the azimuthal error model the 1D engine never
    returns a result; it raises the error of the shape check, of the range
    resolution or of the first histogram when one of them fails, and the
    explicit [NotImplementedError] otherwise. *)
Theorem azimuthal_never_returns
        (radial : list (list F)) (npt : Z) (prep : list (PixelSample F))
        (dummy empty : option F) (radial_range : option (F * F)) :
  is_ok (histogram1d_engine radial npt prep dummy empty AZIMUTHAL radial_range) = false /\
  histogram1d_engine radial npt prep dummy empty AZIMUTHAL radial_range =
  (_ <- assert (length prep =? length (ravel radial))%nat ;;
   range <- resolve_radial_range (ravel radial) radial_range ;;
   _ <- np.histogram (ravel radial) npt (map signal prep) (Some range) ;;
   Raise NotImplementedError).
Proof.
  assert (Heq : histogram1d_engine radial npt prep dummy empty AZIMUTHAL radial_range =
                (_ <- assert (length prep =? length (ravel radial))%nat ;;
                 range <- resolve_radial_range (ravel radial) radial_range ;;
                 _ <- np.histogram (ravel radial) npt (map signal prep) (Some range) ;;
                 Raise NotImplementedError)).
  { unfold histogram1d_engine.
    destruct (assert (length prep =? length (ravel radial))%nat); [cbn [bind] | reflexivity].
    destruct (resolve_radial_range (ravel radial) radial_range) as [range|];
      [cbn [bind] | reflexivity].
    destruct (np.histogram (ravel radial) npt (map signal prep) (Some range)) as [[hs es]|];
      reflexivity. }
  split; [| exact Heq].
  rewrite Heq.
  destruct (assert (length prep =? length (ravel radial))%nat); [cbn [bind] | reflexivity].
  destruct (resolve_radial_range (ravel radial) radial_range) as [range|];
    [cbn [bind] | reflexivity].
  destruct (np.histogram (ravel radial) npt (map signal prep) (Some range)); reflexivity.
Qed.

End Failures.

(** ** Absent and present error fields *)

Section ErrorFields.
Context {F : Type} `{Scalar F}.

(** C5: without an error model the returned [std] and [sem] are [None],
    and so are [sum_variance] and [sum_normalization_sq]: no variance pass
    has been made. *)
Theorem no_error_model_leaves_errors_absent
        (radial : list (list F)) (npt : Z) (prep : list (PixelSample F))
        (dummy empty : option F) (radial_range : option (F * F)) (r : Integrate1dtpl F)
        (Hr : histogram1d_engine radial npt prep dummy empty NO radial_range = Ok r) :
  std r = None /\ sem r = None /\ sum_variance r = None /\ sum_normalization_sq r = None.
Proof.
  apply histogram1d_engine_Ok in Hr.
  destruct Hr as (range & hs & es & hn & en & hc & position & hv & _ & _ & _ & _ & _ & _ & Hv & ->).
  destruct Hv as [[_ ->] | [Htr _]]; [| discriminate Htr].
  repeat split.
Qed.

(** C10: the error returned in third position and the trailing [sem2]
    field are the same value; it is [None] exactly when no error model is
    active. *)
Theorem sem_fields_agree
        (radial : list (list F)) (npt : Z) (prep : list (PixelSample F))
        (dummy empty : option F) (error_model : ErrorModel)
        (radial_range : option (F * F)) (r : Integrate1dtpl F)
        (Hr : histogram1d_engine radial npt prep dummy empty error_model radial_range = Ok r) :
  sem r = sem2 r /\ (sem r = None <-> error_model = NO).
Proof.
  apply histogram1d_engine_Ok in Hr.
  destruct Hr as (range & hs & es & hn & en & hc & position & hv & _ & _ & _ & _ & _ & _ & Hv & ->).
  split; [reflexivity |]. cbn [sem].
  destruct Hv as [[Htr ->] | [Htr (v & ev & n2 & en2 & _ & _ & ->)]]; cbn [option_map].
  - split; [intros _ | reflexivity]. now destruct error_model.
  - split; [discriminate |]. intros ->. discriminate Htr.
Qed.

End ErrorFields.

Lemma shape_mismatch_raises_witness :
  histogram2d_engine [[1%float; 2%float]] [[1%float; 2%float]] (2, 2)%Z
                     [px 5 5 1 1] None None NO None None = Raise AssertionError /\
  histogram1d_engine [[1%float; 2%float]] 2 [px 5 5 1 1] None None NO None
  = Raise AssertionError.
Proof.
  destruct (shape_mismatch_raises [[1%float; 2%float]] [[1%float; 2%float]] 2 (2, 2)%Z
                                  [px 5 5 1 1] None None NO None None) as [H2 H1].
  - left. cbn. discriminate.
  - split; [exact H2 | apply H1; cbn; discriminate].
Defined.

(** C2 as stated fails: a call with the azimuthal error model and
    mismatched shapes raises the assertion error, not [NotImplementedError]. *)
Lemma azimuthal_counterexample :
  histogram1d_engine [[1%float; 2%float]] 2 [px 5 5 1 1] None None AZIMUTHAL None
  <> Raise NotImplementedError.
Proof. vm_compute. discriminate. Qed.

Lemma no_error_model_witness :
  exists r,
    histogram1d_engine [[1%float; 3%float]] 2 [px 5 5 1 1; px 7 7 1 1] None None NO None = Ok r /\
    std r = None /\ sem r = None /\ sum_variance r = None /\ sum_normalization_sq r = None.
Proof.
  eexists. split; [vm_compute; reflexivity |].
  apply (no_error_model_leaves_errors_absent
           [[1%float; 3%float]] 2 [px 5 5 1 1; px 7 7 1 1] None None None).
  vm_compute. reflexivity.
Defined.

Lemma sem_fields_agree_witness :
  exists r,
    histogram1d_engine [[1%float; 3%float]] 2 [px 5 5 1 1; px 7 7 1 1] None None POISSON None
    = Ok r /\ sem r = sem2 r /\ (sem r = None <-> POISSON = NO).
Proof.
  eexists. split; [vm_compute; reflexivity |].
  apply (sem_fields_agree [[1%float; 3%float]] 2 [px 5 5 1 1; px 7 7 1 1] None None
                          POISSON None).
  vm_compute. reflexivity.
Defined.

(** ** Shapes *)

Section Shapes.
Context {F : Type} `{Scalar F}.

Lemma add_at_length (k : nat) (w : F) (a : list F) : length (add_at k w a) = length a.
Proof.
  revert k; induction a as [|x a IH]; intros [|k]; cbn; try reflexivity.
  now rewrite IH.
Qed.

Lemma bincount_length (indices : list (option nat)) (weights n : list F) :
  length (np.bincount indices weights n) = length n.
Proof.
  revert weights n; induction indices as [|[k|] indices IH]; intros [|w weights] n; cbn;
    try reflexivity.
  - now rewrite IH, add_at_length.
  - apply IH.
Qed.

Lemma histogram_length (a : list F) (bins : Z) (weights : list F) (range : option (F * F))
      (h e : list F) :
  np.histogram a bins weights range = Ok (h, e) -> length h = Z.to_nat bins.
Proof.
  unfold np.histogram. intros Hh. repeat step Hh. injection Hh as <- <-.
  now rewrite bincount_length, repeat_length.
Qed.

Lemma item_zip_with (f : F -> F -> F) (a b : list F) (i : nat) :
  (i < length a)%nat -> (i < length b)%nat ->
  item (zip_with f a b) i = f (item a i) (item b i).
Proof.
  unfold item. revert b i; induction a as [|x a IH]; intros [|y b] [|i]; cbn; intros Ha Hb;
    try lia; [reflexivity |].
  apply IH; lia.
Qed.

Lemma zip_with_length {A B C : Type} (f : A -> B -> C) (a : list A) (b : list B) :
  length (zip_with f a b) = Nat.min (length a) (length b).
Proof.
  revert b; induction a as [|x a IH]; intros [|y b]; cbn; try reflexivity.
  now rewrite IH.
Qed.

Lemma item_map (f : F -> F) (a : list F) (i : nat) :
  (i < length a)%nat -> item (map f a) i = f (item a i).
Proof.
  unfold item. revert i; induction a as [|x a IH]; intros [|i]; cbn; intros Ha;
    try lia; [reflexivity |].
  apply IH; lia.
Qed.

Lemma item_setitem_mask (a : list F) (mask : list bool) (value : option F) (i : nat) :
  (i < length a)%nat -> (i < length mask)%nat ->
  item (np.setitem_mask a mask value) i =
  if nth i mask false then np.of_object value else item a i.
Proof.
  unfold item, np.setitem_mask.
  revert mask i; induction a as [|x a IH]; intros [|m mask] [|i]; cbn; intros Ha Hm;
    try lia; [reflexivity |].
  apply IH; lia.
Qed.

Lemma nth_mask_empty (hc : list F) (i : nat) :
  (i < length hc)%nat -> nth i (mask_empty hc) false = (item hc i == fof_Z 0)%F.
Proof.
  unfold item, mask_empty.
  revert i; induction hc as [|c hc IH]; intros [|i]; cbn; intros Hi; try lia; [reflexivity |].
  apply IH; lia.
Qed.

Lemma mask_empty_length (hc : list F) : length (mask_empty hc) = length hc.
Proof. apply length_map. Qed.

End Shapes.

(** ** Reduction in the 1D engine *)

Section Reduction1D.
Context {F : Type} `{Scalar F}.

(** Every bin of a 1D result: a bin with a non-zero count holds the
    quotient of the sums, an empty one holds the fill value as numpy stores
    it. *)
Lemma intensity_1d (radial : list (list F)) (npt : Z) (prep : list (PixelSample F))
      (dummy empty : option F) (error_model : ErrorModel) (radial_range : option (F * F))
      (r : Integrate1dtpl F) (i : nat) :
  histogram1d_engine radial npt prep dummy empty error_model radial_range = Ok r ->
  (i < Z.to_nat npt)%nat ->
  item (intensity r) i =
  if (item (sum_count r) i == fof_Z 0)%F
  then np.of_object (empty_fill dummy empty)
  else (item (sum_signal r) i / item (sum_normalization r) i)%F.
Proof.
  intros Hr Hi. apply histogram1d_engine_Ok in Hr.
  destruct Hr as (range & hs & es & hn & en & hc & position & hv
                  & _ & _ & Hs & Hn & Hc & _ & _ & ->).
  apply histogram_length in Hs, Hn, Hc. cbn [intensity sum_count sum_signal sum_normalization].
  rewrite item_setitem_mask, nth_mask_empty, item_zip_with;
    rewrite ?mask_empty_length, ?zip_with_length; try lia.
  reflexivity.
Qed.

(** C3: with the variance, Poisson or hybrid model the squared
    normalization is binned pixel by pixel, and the returned [std] and [sem]
    are [sqrt(sum_variance / sum_normalization_sq)] and
    [sqrt(sum_variance) / sum_normalization] in every bin, overwritten in
    the empty bins afterwards. *)
Theorem variance_model_std_and_sem
        (radial : list (list F)) (npt : Z) (prep : list (PixelSample F))
        (dummy empty : option F) (error_model : ErrorModel)
        (radial_range : option (F * F)) (r : Integrate1dtpl F)
        (Hmodel : error_model = VARIANCE \/ error_model = POISSON \/ error_model = HYBRID)
        (Hr : histogram1d_engine radial npt prep dummy empty error_model radial_range = Ok r) :
  exists range v ev n2 en2,
    resolve_radial_range (ravel radial) radial_range = Ok range /\
    np.histogram (ravel radial) npt (map variance prep) (Some range) = Ok (v, ev) /\
    np.histogram (ravel radial) npt
                 (map (fun p => (normalization p * normalization p)%F) prep) (Some range)
    = Ok (n2, en2) /\
    sum_variance r = Some v /\
    sum_normalization_sq r = Some n2 /\
    let std_before := map fsqrt (zip_with fdiv v n2) in
    let sem_before := zip_with fdiv (map fsqrt v) (sum_normalization r) in
    let mask := mask_empty (sum_count r) in
    let fill := empty_fill dummy empty in
    std r = Some (np.setitem_mask std_before mask fill) /\
    sem r = Some (np.setitem_mask sem_before mask fill) /\
    forall i, (i < Z.to_nat npt)%nat ->
      item std_before i = fsqrt (item v i / item n2 i)%F /\
      item sem_before i = (fsqrt (item v i) / item (sum_normalization r) i)%F.
Proof.
  apply histogram1d_engine_Ok in Hr.
  destruct Hr as (range & hs & es & hn & en & hc & position & hv
                  & _ & Hrange & _ & Hn & _ & _ & Hv & ->).
  destruct Hv as [[Htr _] | [_ (v & ev & n2 & en2 & Hvar & Hn2 & ->)]].
  { destruct Hmodel as [-> | [-> | ->]]; discriminate Htr. }
  exists range, v, ev, n2, en2.
  do 5 (split; [first [eassumption | reflexivity] |]).
  cbn [sum_normalization sum_count std sem option_map fst snd].
  do 2 (split; [reflexivity |]).
  intros i Hi. apply histogram_length in Hn, Hvar, Hn2.
  split.
  - rewrite item_map, item_zip_with; rewrite ?zip_with_length; try lia. reflexivity.
  - rewrite item_zip_with, item_map; rewrite ?length_map; try lia. reflexivity.
Qed.

End Reduction1D.

Lemma variance_model_witness :
  exists r,
    histogram1d_engine [[1%float; 1%float]] 2 [px 5 5 3 1; px 7 7 4 1] None None POISSON
                       (Some (0%float, 4%float)) = Ok r /\
    sum_variance r = Some [12%float; 0%float] /\
    sum_normalization_sq r = Some [25%float; 0%float].
Proof.
  assert (Hr : exists r,
             histogram1d_engine [[1%float; 1%float]] 2 [px 5 5 3 1; px 7 7 4 1] None None
                                POISSON (Some (0%float, 4%float)) = Ok r)
    by (eexists; vm_compute; reflexivity).
  destruct Hr as [r Hr]. exists r. split; [exact Hr |].
  destruct (variance_model_std_and_sem _ _ _ _ _ _ (or_intror (or_introl eq_refl)) Hr)
    as (range & v & ev & n2 & en2 & Hrange & Hv & Hn2 & Hsv & Hsn & _).
  injection Hrange as <-.
  vm_compute in Hv. injection Hv as <- _.
  vm_compute in Hn2. injection Hn2 as <- _.
  split; assumption.
Defined.

(** The binned squares are not the squares of the binned sums: two pixels
    of normalization 3 and 4 in one bin give 25, not 49. *)
Example normalization_squared_before_binning :
  np.histogram [1%float; 1%float] 1 (map (fun n => n * n)%float [3%float; 4%float])
               (Some (0%float, 4%float))
  = Ok ([25%float], [0%float; 4%float]) /\
  np.histogram [1%float; 1%float] 1 [3%float; 4%float] (Some (0%float, 4%float))
  = Ok ([7%float], [0%float; 4%float]).
Proof. split; vm_compute; reflexivity. Qed.

(** ** The 2D engine *)

Section Reduction2D.
Context {F : Type} `{Scalar F}.

(** Whether [histogram2d] succeeds, and with which edges, does not depend
    on the weights. *)
Lemma histogram2d_weights (x y : list F) (bins : Z * Z) (w w' : list F)
      (range : option (F * F) * option (F * F)) :
  length w = length w' ->
  match np.histogram2d x y bins w range, np.histogram2d x y bins w' range with
  | Ok (_, xe, ye), Ok (_, xe', ye') => xe = xe' /\ ye = ye'
  | Raise e, Raise e' => e = e'
  | _, _ => False
  end.
Proof.
  intros Hw. unfold np.histogram2d. rewrite Hw.
  destruct (negb _); [reflexivity |].
  destruct (_ || _); [reflexivity |].
  destruct (np.get_outer_edges x (fst range)) as [[x0 x1]|]; [cbn [bind] | reflexivity].
  destruct (np.get_outer_edges y (snd range)) as [[y0 y1]|]; [cbn [bind] | reflexivity].
  split; reflexivity.
Qed.

End Reduction2D.

(** ** The default fill value *)

(** C1 on the default arguments: with neither [dummy] nor [empty] the fill
    value stays [None], which numpy stores as NaN; the empty bin of the 1D
    result and the empty cells of the 2D result hold NaN, not 0. *)
Theorem default_fill_is_nan :
  (exists r,
     histogram1d_engine [[0.25%float; 0.25%float]] 2 [px 10 0 1 1; px 20 0 1 1]
                        None None NO (Some (0%float, 1%float)) = Ok r /\
     sum_count r = [2%float; 0%float] /\
     intensity r = [15%float; PrimFloat.nan] /\
     (item (intensity r) 1 == fof_Z 0)%F = false) /\
  (exists r,
     histogram2d_engine [[0.25%float; 0.25%float]] [[0.25%float; 0.25%float]] (2, 1)%Z
                        [px 10 0 1 1; px 20 0 1 1]
                        None None NO (Some (0%float, 1%float)) (Some (0%float, 1%float))
     = Ok r /\
     sum_count_2d r = [[2%float; 0%float]] /\
     intensity_2d r = [[15%float; PrimFloat.nan]] /\
     (item_2d (intensity_2d r) 0 1 == fof_Z 0)%F = false).
Proof.
  split; eexists; (split; [vm_compute; reflexivity |]); repeat split.
Qed.

(** ** Exact arithmetic *)

Module ExactFacts.

Lemma eq_refl (x : xq) : x =x= x.
Proof. destruct x; cbn; [reflexivity | reflexivity | exact I]. Qed.

Lemma eq_sym (x y : xq) : x =x= y -> y =x= x.
Proof. destruct x, y; cbn; intros Hxy; try contradiction; [now symmetry | now symmetry | exact I]. Qed.

Lemma eq_trans (x y z : xq) : x =x= y -> y =x= z -> x =x= z.
Proof.
  destruct x, y, z; cbn; intros Hxy Hyz; try contradiction; try exact I.
  - now rewrite Hxy.
  - congruence.
Qed.

Lemma add_compat (x x' y y' : xq) :
  x =x= x' -> y =x= y' -> Exact.add x y =x= Exact.add x' y'.
Proof.
  destruct x, x', y, y'; cbn; intros Hx Hy; try contradiction; subst; try exact I;
    try reflexivity.
  - now rewrite Hx, Hy.
  - destruct (Bool.eqb _ _); cbn; [reflexivity | exact I].
Qed.

Lemma add_comm (x y : xq) : Exact.add x y =x= Exact.add y x.
Proof.
  destruct x as [a|s|], y as [b|t|]; cbn; try exact I; try reflexivity.
  - apply Qplus_comm.
  - destruct s, t; cbn; try reflexivity; exact I.
Qed.

Lemma add_assoc (x y z : xq) :
  Exact.add (Exact.add x y) z =x= Exact.add x (Exact.add y z).
Proof.
  destruct x as [a|s|], y as [b|t|], z as [c|u|]; cbn; try exact I; try reflexivity.
  - symmetry. apply Qplus_assoc.
  - destruct (Bool.eqb t u); cbn; [reflexivity | exact I].
  - destruct (Bool.eqb s u); cbn; [reflexivity | exact I].
  - destruct (Bool.eqb s t); cbn; [reflexivity | exact I].
  - destruct s, t, u; cbn; try reflexivity; exact I.
  - destruct (Bool.eqb s t); cbn; exact I.
Qed.

Lemma add_0_l (x : xq) : Exact.add (Fin 0) x =x= x.
Proof. destruct x; cbn; [apply Qplus_0_l | reflexivity | exact I]. Qed.

Lemma add_0_r (x : xq) : Exact.add x (Fin 0) =x= x.
Proof. destruct x; cbn; [apply Qplus_0_r | reflexivity | exact I]. Qed.

End ExactFacts.

(** ** Binning *)

Section Binning.
Context {F : Type} `{Scalar F}.

Lemma get_outer_edges_explicit (a : list F) (range : F * F) (first_edge last_edge : F) :
  np.get_outer_edges a (Some range) = Ok (first_edge, last_edge) ->
  (first_edge, last_edge) = binned_interval range /\
  (snd range <? fst range)%F = false /\
  fisfinite (fst range) = true /\ fisfinite (snd range) = true.
Proof.
  unfold np.get_outer_edges, binned_interval. destruct range as [lo hi]. cbn [fst snd].
  intros Hedges.
  destruct (hi <? lo)%F; [discriminate Hedges |].
  destruct (fisfinite lo); [| discriminate Hedges].
  destruct (fisfinite hi); [| discriminate Hedges].
  cbn [negb andb bind] in Hedges.
  destruct (lo == hi)%F; injection Hedges as <- <-; repeat split.
Qed.

Lemma linspace_length (start stop : F) (num : nat) :
  length (np.linspace start stop num) = num.
Proof.
  destruct num as [|[|div]]; cbn [np.linspace]; try reflexivity.
  rewrite length_app, length_map, length_seq. cbn. lia.
Qed.

Lemma removelast_tl_length {A : Type} (l : list A) :
  length (removelast (tl l)) = (length l - 2)%nat.
Proof.
  destruct l as [|x l]; [reflexivity |]. cbn [tl length].
  induction l as [|y l IH]; [reflexivity |].
  destruct l as [|z l]; [reflexivity |].
  change (removelast (y :: z :: l)) with (y :: removelast (z :: l)).
  cbn [length] in *. lia.
Qed.

Lemma searchsorted_right_le (a : list F) (v : F) :
  (np.searchsorted_right a v <= length a)%nat.
Proof.
  induction a as [|e a IH]; cbn; [lia |]. destruct (e <=? v)%F; lia.
Qed.

(** A value has a bin exactly when it lies within the outer edges, and the
    bin is one of the [n] bins. *)
Lemma bin_index_spec (first_edge last_edge : F) (n : nat) (v : F) :
  match np.bin_index first_edge last_edge (np.linspace first_edge last_edge (S (S n))) v with
  | Some k => in_range (first_edge, last_edge) v = true /\ (k < S n)%nat
  | None => in_range (first_edge, last_edge) v = false
  end.
Proof.
  unfold np.bin_index, in_range. cbn [fst snd].
  destruct ((first_edge <=? v)%F && (v <=? last_edge)%F); [| reflexivity].
  split; [reflexivity |].
  pose proof (searchsorted_right_le
                (removelast (tl (np.linspace first_edge last_edge (S (S n))))) v) as Hle.
  rewrite removelast_tl_length, linspace_length in Hle. lia.
Qed.

End Binning.

(** ** Bin centers *)

Section Centers.
Context {F : Type} `{Scalar F}.

Lemma item_tl (e : list F) (k : nat) : item (tl e) k = item e (S k).
Proof. unfold item. destruct e; [now destruct k | reflexivity]. Qed.

Lemma item_removelast (e : list F) (k : nat) :
  (S k < length e)%nat -> item (removelast e) k = item e k.
Proof.
  unfold item. revert k; induction e as [|x e IH]; intros k Hk; cbn [length] in Hk; [lia |].
  destruct e as [|y e]; [cbn in Hk; lia |].
  change (removelast (x :: y :: e)) with (x :: removelast (y :: e)).
  destruct k as [|k]; [reflexivity |]. cbn [nth]. apply IH. cbn [length] in *. lia.
Qed.

Lemma removelast_length {A : Type} (l : list A) : length (removelast l) = (length l - 1)%nat.
Proof.
  induction l as [|x l IH]; [reflexivity |].
  destruct l as [|y l]; [reflexivity |].
  change (removelast (x :: y :: l)) with (x :: removelast (y :: l)).
  cbn [length] in *. lia.
Qed.

Lemma tl_length {A : Type} (l : list A) : length (tl l) = (length l - 1)%nat.
Proof. destruct l; cbn; lia. Qed.

Lemma bin_centers_length (position : list F) :
  length (bin_centers position) = (length position - 1)%nat.
Proof. unfold bin_centers. rewrite zip_with_length, tl_length, removelast_length. lia. Qed.

(** A bin center is the mean of the two edges of its bin. *)
Lemma item_bin_centers (position : list F) (k : nat) :
  (S k < length position)%nat ->
  item (bin_centers position) k = ((item position (S k) + item position k) / fof_Z 2)%F.
Proof.
  intros Hk. unfold bin_centers.
  rewrite item_zip_with, item_tl, item_removelast;
    rewrite ?tl_length, ?removelast_length; try lia.
  reflexivity.
Qed.

Lemma histogram_edges (a : list F) (bins : Z) (weights : list F) (range : F * F)
      (h e : list F) :
  np.histogram a bins weights (Some range) = Ok (h, e) ->
  (1 <= bins)%Z /\
  e = np.linspace (fst (binned_interval range)) (snd (binned_interval range))
                  (S (Z.to_nat bins)) /\
  (snd range <? fst range)%F = false /\
  fisfinite (fst range) = true /\ fisfinite (snd range) = true.
Proof.
  unfold np.histogram. intros Hh.
  destruct (negb (length weights =? length a)%nat); [discriminate Hh |].
  destruct (bins <? 1)%Z eqn:Hbins; [discriminate Hh |].
  destruct (np.get_outer_edges a (Some range)) as [[first_edge last_edge]|] eqn:Hedges;
    [cbn [bind] in Hh | discriminate Hh].
  injection Hh as <- <-.
  apply get_outer_edges_explicit in Hedges. destruct Hedges as (<- & Hord & Hlo & Hhi).
  apply Z.ltb_ge in Hbins. repeat split; assumption.
Qed.

End Centers.

(** ** Conservation, in exact arithmetic *)

Section ExactReading.
Variable qsqrt : Q -> Q.

#[local] Instance exact_reading : Scalar xq := exact qsqrt.

Lemma total_add_at (k : nat) (w : xq) (acc : list xq) :
  (k < length acc)%nat -> total (add_at k w acc) =x= Exact.add (total acc) w.
Proof.
  revert k; induction acc as [|x acc IH]; intros k Hk; cbn [length] in Hk; [lia |].
  destruct k as [|k]; cbn [add_at total fold_right].
  - change (Exact.add (Exact.add x w) (total acc) =x= Exact.add (Exact.add x (total acc)) w).
    eapply ExactFacts.eq_trans; [apply ExactFacts.add_assoc |].
    eapply ExactFacts.eq_trans; [| apply ExactFacts.eq_sym, ExactFacts.add_assoc].
    apply ExactFacts.add_compat; [apply ExactFacts.eq_refl | apply ExactFacts.add_comm].
  - change (Exact.add x (total (add_at k w acc)) =x= Exact.add (Exact.add x (total acc)) w).
    eapply ExactFacts.eq_trans; [| apply ExactFacts.eq_sym, ExactFacts.add_assoc].
    apply ExactFacts.add_compat; [apply ExactFacts.eq_refl | apply IH; lia].
Qed.

Lemma total_zeros (n : nat) : total (repeat (fof_Z 0) n) =x= Fin 0.
Proof.
  induction n as [|n IH]; [reflexivity |].
  change (Exact.add (Fin 0) (total (repeat (fof_Z 0) n)) =x= Fin 0).
  eapply ExactFacts.eq_trans; [apply ExactFacts.add_0_l | exact IH].
Qed.

Lemma bincount_total (indices : list (option nat)) (weights acc : list xq) :
  Forall (fun i => match i with Some k => (k < length acc)%nat | None => True end) indices ->
  total (np.bincount indices weights acc) =x= Exact.add (total acc) (total (binned indices weights)).
Proof.
  revert weights acc; induction indices as [|i indices IH]; intros weights acc Hbound.
  - cbn. apply ExactFacts.eq_sym, ExactFacts.add_0_r.
  - destruct weights as [|w weights].
    + destruct i; cbn; apply ExactFacts.eq_sym, ExactFacts.add_0_r.
    + inversion Hbound as [|i' l' Hi Hrest]; subst.
      destruct i as [k|]; cbn [np.bincount].
      * eapply ExactFacts.eq_trans.
        { apply IH. rewrite add_at_length. exact Hrest. }
        change (binned (Some k :: indices) (w :: weights)) with (w :: binned indices weights).
        change (total (w :: binned indices weights))
          with (Exact.add w (total (binned indices weights))).
        eapply ExactFacts.eq_trans;
          [| apply ExactFacts.add_assoc].
        apply ExactFacts.add_compat; [now apply total_add_at | apply ExactFacts.eq_refl].
      * apply IH. exact Hrest.
Qed.

Lemma binned_kept (first_edge last_edge : xq) (edges a weights : list xq) :
  binned (map (np.bin_index first_edge last_edge edges) a) weights
  = kept (first_edge, last_edge) a weights.
Proof.
  unfold binned, kept.
  revert weights; induction a as [|v a IH]; intros [|w weights]; try reflexivity.
  cbn [map combine filter fst]. unfold np.bin_index at 1, in_range at 1. cbn [fst snd].
  destruct ((first_edge <=? v)%F && (v <=? last_edge)%F); cbn [map snd]; now rewrite IH.
Qed.

(** The bins of a weighted histogram sum up to the weights of the values
    inside the binned interval. *)
Lemma histogram_total (a : list xq) (bins : Z) (weights : list xq) (range : xq * xq)
      (h e : list xq) :
  np.histogram a bins weights (Some range) = Ok (h, e) ->
  total h =x= total (kept (binned_interval range) a weights).
Proof.
  unfold np.histogram. intros Hh.
  destruct (negb (length weights =? length a)%nat); [discriminate Hh |].
  destruct (bins <? 1)%Z eqn:Hbins; [discriminate Hh |].
  destruct (np.get_outer_edges a (Some range)) as [[first_edge last_edge]|] eqn:Hedges;
    [cbn [bind] in Hh | discriminate Hh].
  injection Hh as <- <-.
  apply get_outer_edges_explicit in Hedges. destruct Hedges as [<- _].
  apply Z.ltb_ge in Hbins.
  destruct (Z.to_nat bins) as [|n] eqn:Hn; [lia |].
  eapply ExactFacts.eq_trans.
  { apply bincount_total. rewrite repeat_length. apply Forall_forall.
    intros i Hi. apply in_map_iff in Hi. destruct Hi as (v & <- & _).
    pose proof (bin_index_spec first_edge last_edge n v) as Hspec.
    destruct (np.bin_index _ _ _ v); [apply Hspec | exact I]. }
  rewrite binned_kept.
  eapply ExactFacts.eq_trans; [| apply ExactFacts.add_0_l].
  apply ExactFacts.add_compat; [apply total_zeros | apply ExactFacts.eq_refl].
Qed.

(** C6 as amended: without error model the bins of [sum_signal],
    [sum_normalization] and [sum_count] sum up to the signal, normalization
    and count of the pixels whose coordinate lies in the binned interval:
    the resolved range, or the range widened by one half on each side when
    it is empty.  Pixels outside of it contribute to no bin. *)
Theorem conservation
        (radial : list (list xq)) (npt : Z) (prep : list (PixelSample xq))
        (dummy empty : option xq) (radial_range : option (xq * xq)) (r : Integrate1dtpl xq)
        (Hr : histogram1d_engine radial npt prep dummy empty NO radial_range = Ok r) :
  exists range,
    resolve_radial_range (ravel radial) radial_range = Ok range /\
    let inside := kept (binned_interval range) (ravel radial) in
    total (sum_signal r) =x= total (inside (map signal prep)) /\
    total (sum_normalization r) =x= total (inside (map normalization prep)) /\
    total (sum_count r) =x= total (inside (map count prep)).
Proof.
  apply histogram1d_engine_Ok in Hr.
  destruct Hr as (range & hs & es & hn & en & hc & position & hv
                  & _ & Hrange & Hs & Hn & Hc & _ & _ & ->).
  exists range. split; [exact Hrange |].
  cbn [sum_signal sum_normalization sum_count].
  repeat split; eapply histogram_total; eassumption.
Qed.

(** ** Bin centers over the binned interval *)
Lemma nth_map_seq {A : Type} (f : nat -> A) (n k : nat) (d : A) :
  (k < n)%nat -> nth k (map f (seq 0 n)) d = f k.
Proof.
  intros Hk. rewrite (nth_indep _ d (f O)) by (rewrite length_map, length_seq; lia).
  rewrite map_nth, seq_nth by lia. reflexivity.
Qed.

Lemma Qeq_bool_false (a b : Q) : ~ (a == b)%Q -> Qeq_bool a b = false.
Proof.
  intros Hab. destruct (Qeq_bool a b) eqn:E; [| reflexivity].
  apply Qeq_bool_iff in E. contradiction.
Qed.

Lemma inject_nat_pos (n : nat) : (0 < inject_Z (Z.of_nat (S n)))%Q.
Proof. unfold Qlt. cbn. lia. Qed.

(** The bin edges over a proper interval, in closed form. *)
Lemma linspace_item (lo hi : Q) (n k : nat) :
  (lo < hi)%Q -> (k <= S n)%nat ->
  exists q,
    item (np.linspace (Fin lo) (Fin hi) (S (S n))) k = Fin q /\
    (q == lo + inject_Z (Z.of_nat k) * ((hi - lo) / inject_Z (Z.of_nat (S n))))%Q.
Proof.
  intros Hlt Hk. pose proof (inject_nat_pos n) as Hn.
  remember (inject_Z (Z.of_nat (S n))) as N eqn:EN.
  assert (HN : Qeq_bool N 0 = false) by (apply Qeq_bool_false; lra).
  assert (Hstep : Qeq_bool ((hi + - lo) / N) 0 = false).
  { apply Qeq_bool_false. intros Hz.
    assert (Hd : (0 < (hi + - lo) / N)%Q) by (apply Qlt_shift_div_l; lra). lra. }
  unfold np.linspace, item.
  destruct (Nat.eq_dec k (S n)) as [-> | Hne].
  - exists hi. split.
    + rewrite app_nth2; rewrite length_map, length_seq; [| lia].
      now rewrite Nat.sub_diag.
    + rewrite <- EN. field. lra.
  - eexists. split.
    + rewrite app_nth1; [| rewrite length_map, length_seq; lia].
      rewrite nth_map_seq by lia.
      cbn [fsub fdiv feqb fmul fadd fof_Z exact_reading exact
           Exact.sub Exact.opp Exact.add Exact.div Exact.mul Exact.eqb].
      rewrite <- EN. rewrite HN. cbn [Exact.eqb]. change (inject_Z 0) with 0. rewrite Hstep.
      reflexivity.
    + unfold Qminus. ring.
Qed.

Lemma inject_succ (k : nat) :
  (inject_Z (Z.of_nat (S k)) == inject_Z (Z.of_nat k) + 1)%Q.
Proof. rewrite Nat2Z.inj_succ. unfold Z.succ. rewrite inject_Z_plus. reflexivity. Qed.

(** The bin centers over a proper interval, in closed form. *)
Lemma center_item (lo hi : Q) (n k : nat) :
  (lo < hi)%Q -> (k < S n)%nat ->
  exists q,
    item (bin_centers (np.linspace (Fin lo) (Fin hi) (S (S n)))) k = Fin q /\
    (q == lo + (inject_Z (Z.of_nat k) + (1 # 2)) * ((hi - lo) / inject_Z (Z.of_nat (S n))))%Q.
Proof.
  intros Hlt Hk. pose proof (inject_nat_pos n) as Hn.
  destruct (@linspace_item lo hi n (S k) Hlt) as (q1 & Hq1 & Eq1); [lia |].
  destruct (@linspace_item lo hi n k Hlt) as (q0 & Hq0 & Eq0); [lia |].
  rewrite item_bin_centers by (rewrite linspace_length; lia).
  rewrite Hq1, Hq0.
  exists ((q1 + q0) / inject_Z 2). split; [reflexivity |].
  rewrite Eq1, Eq0, inject_succ. field. lra.
Qed.

(** The interval that is binned is a proper interval of rationals. *)
Lemma binned_interval_proper (range : xq * xq) :
  (snd range <? fst range)%F = false ->
  fisfinite (fst range) = true -> fisfinite (snd range) = true ->
  exists lo hi, binned_interval range = (Fin lo, Fin hi) /\ (lo < hi)%Q.
Proof.
  destruct range as [[a| |] [b| |]]; cbn [fst snd]; try discriminate.
  intros Hord _ _. unfold binned_interval. cbn [fst snd].
  cbn [fltb exact_reading exact Exact.ltb] in Hord.
  apply negb_false_iff, Qle_bool_iff in Hord.
  cbn [feqb exact_reading exact Exact.eqb].
  destruct (Qeq_bool a b) eqn:Eab.
  - apply Qeq_bool_iff in Eab. eexists. eexists. split; [reflexivity |].
    cbn. change (inject_Z 1) with 1. change (inject_Z 2) with 2. rewrite Eab.
    apply Qplus_lt_r. reflexivity.
  - exists a, b. split; [reflexivity |].
    apply Qeq_bool_neq in Eab. lra.
Qed.

(** C8 as amended: a call that returns has [npt >= 1] and returns [npt]
    bin centers, each the mean of two consecutive entries of the [npt + 1]
    bin edges; they increase strictly and are evenly spaced by the width of
    the binned interval divided by [npt].  The binned interval is the
    resolved range, or the range widened by one half on each side when it is
    empty. *)
Theorem bin_centers_evenly_spaced
        (radial : list (list xq)) (npt : Z) (prep : list (PixelSample xq))
        (dummy empty : option xq) (error_model : ErrorModel)
        (radial_range : option (xq * xq)) (r : Integrate1dtpl xq)
        (Hr : histogram1d_engine radial npt prep dummy empty error_model radial_range = Ok r) :
  exists range lo hi,
    resolve_radial_range (ravel radial) radial_range = Ok range /\
    binned_interval range = (Fin lo, Fin hi) /\
    (lo < hi)%Q /\
    (1 <= npt)%Z /\
    length (positions r) = Z.to_nat npt /\
    let edges := np.linspace (Fin lo) (Fin hi) (S (Z.to_nat npt)) in
    length edges = S (Z.to_nat npt) /\
    (forall k, (k < Z.to_nat npt)%nat ->
       item (positions r) k = ((item edges (S k) + item edges k) / fof_Z 2)%F) /\
    (forall k, (S k < Z.to_nat npt)%nat ->
       (item (positions r) (S k) - item (positions r) k)%F
       =x= Fin ((hi - lo) / inject_Z npt) /\
       (item (positions r) k <? item (positions r) (S k))%F = true).
Proof.
  apply histogram1d_engine_Ok in Hr.
  destruct Hr as (range & hs & es & hn & en & hc & position & hv
                  & _ & Hrange & _ & _ & Hc & _ & _ & ->).
  apply histogram_edges in Hc. destruct Hc as (Hnpt & -> & Hord & Hlo & Hhi).
  destruct (@binned_interval_proper range Hord Hlo Hhi) as (lo & hi & Hbin & Hlt).
  exists range, lo, hi. rewrite Hbin. cbn [fst snd positions].
  do 4 (split; [first [assumption | reflexivity] |]).
  destruct (Z.to_nat npt) as [|n] eqn:Hn; [lia |].
  assert (Enpt : npt = Z.of_nat (S n)) by lia.
  split; [rewrite bin_centers_length, linspace_length; lia |].
  split; [apply linspace_length |].
  split.
  - intros k Hk. apply item_bin_centers. rewrite linspace_length. lia.
  - intros k Hk.
    destruct (@center_item lo hi n (S k) Hlt) as (q1 & -> & Eq1); [lia |].
    destruct (@center_item lo hi n k Hlt) as (q0 & -> & Eq0); [lia |].
    pose proof (inject_nat_pos n) as Hpos.
    assert (Hd : (q1 + - q0 == (hi - lo) / inject_Z (Z.of_nat (S n)))%Q).
    { rewrite Eq1, Eq0, inject_succ. field. lra. }
    assert (Hw : (0 < (hi - lo) / inject_Z (Z.of_nat (S n)))%Q)
      by (apply Qlt_shift_div_l; lra).
    split.
    + cbn. rewrite Enpt. exact Hd.
    + cbn. apply negb_true_iff. destruct (Qle_bool q1 q0) eqn:Ele; [| reflexivity].
      apply Qle_bool_iff in Ele. lra.
Qed.

(** ** The extrema of the radial array *)

Lemma isnan_Fin (q : Q) : np.isnan (Fin q) = false.
Proof. unfold np.isnan. cbn. now rewrite Qeq_bool_refl. Qed.

Lemma isnan_Inf (s : bool) : np.isnan (Inf s) = false.
Proof. unfold np.isnan. cbn. now rewrite eqb_reflx. Qed.

Lemma minimum_le (lo : Q) (x a : xq) :
  Exact.leb (Fin lo) (np.minimum x a) = true ->
  Exact.leb (Fin lo) x = true /\ Exact.leb (Fin lo) a = true.
Proof.
  unfold np.minimum.
  destruct x as [x|s|], a as [a|t|];
    rewrite ?isnan_Fin, ?isnan_Inf;
    cbn [fltb exact_reading exact Exact.ltb Exact.leb np.isnan feqb Exact.eqb negb];
    try discriminate; try (intros Hm; split; assumption).
  - destruct (Qle_bool x a) eqn:E; cbn [negb Exact.leb]; intros Hm; split; try assumption.
    + apply Qle_bool_iff in E, Hm. apply Qle_bool_iff. lra.
    + apply Qle_bool_iff in Hm. apply Qle_bool_iff.
      destruct (Qlt_le_dec a x) as [Hlt | Hle]; [lra |].
      apply Qle_bool_iff in Hle. congruence.
  - destruct t; cbn; intros Hm; split; auto; discriminate.
  - destruct s; cbn; intros Hm; split; auto; try discriminate.
  - destruct s, t; cbn; intros Hm; split; auto; discriminate.
Qed.

Lemma maximum_ge (hi : Q) (x a : xq) :
  Exact.leb (np.maximum x a) (Fin hi) = true ->
  Exact.leb x (Fin hi) = true /\ Exact.leb a (Fin hi) = true.
Proof.
  unfold np.maximum.
  destruct x as [x|s|], a as [a|t|];
    rewrite ?isnan_Fin, ?isnan_Inf;
    cbn [fltb exact_reading exact Exact.ltb Exact.leb np.isnan feqb Exact.eqb negb];
    try discriminate; try (intros Hm; split; assumption).
  - destruct (Qle_bool a x) eqn:E; cbn [negb Exact.leb]; intros Hm; split; try assumption.
    + apply Qle_bool_iff in E, Hm. apply Qle_bool_iff. lra.
    + apply Qle_bool_iff in Hm. apply Qle_bool_iff.
      destruct (Qlt_le_dec x a) as [Hlt | Hle]; [lra |].
      apply Qle_bool_iff in Hle. congruence.
  - destruct t; cbn; intros Hm; split; auto; discriminate.
  - destruct s; cbn; intros Hm; split; auto; try discriminate.
  - destruct s, t; cbn; intros Hm; split; auto; discriminate.
Qed.

Lemma leb_Fin_refl (q : Q) : Exact.leb (Fin q) (Fin q) = true.
Proof. apply Qle_bool_iff. lra. Qed.

Lemma fold_minimum_le (lo : Q) (a : list xq) (x : xq) :
  Exact.leb (Fin lo) (fold_left np.minimum a x) = true ->
  forall y, In y (x :: a) -> Exact.leb (Fin lo) y = true.
Proof.
  revert x; induction a as [|z a IH]; intros x Hm y Hy.
  - destruct Hy as [<- | []]. exact Hm.
  - cbn [fold_left] in Hm. pose proof (IH _ Hm) as Hall.
    destruct (minimum_le lo x z (Hall _ (or_introl Logic.eq_refl))) as [Hx Hz].
    destruct Hy as [<- | [<- | Hy]]; [exact Hx | exact Hz |].
    apply Hall. now right.
Qed.

Lemma fold_maximum_ge (hi : Q) (a : list xq) (x : xq) :
  Exact.leb (fold_left np.maximum a x) (Fin hi) = true ->
  forall y, In y (x :: a) -> Exact.leb y (Fin hi) = true.
Proof.
  revert x; induction a as [|z a IH]; intros x Hm y Hy.
  - destruct Hy as [<- | []]. exact Hm.
  - cbn [fold_left] in Hm. pose proof (IH _ Hm) as Hall.
    destruct (maximum_ge hi x z (Hall _ (or_introl Logic.eq_refl))) as [Hx Hz].
    destruct Hy as [<- | [<- | Hy]]; [exact Hx | exact Hz |].
    apply Hall. now right.
Qed.

(** A finite minimum and a finite maximum bound every entry, which is
    then finite as well. *)
Lemma amin_amax_bounds (a : list xq) (lo hi : Q) :
  np.amin a = Ok (Fin lo) -> np.amax a = Ok (Fin hi) ->
  forall y, In y a -> exists q, y = Fin q /\ (lo <= q <= hi)%Q.
Proof.
  destruct a as [|x a]; [discriminate |]. cbn [np.amin np.amax].
  intros Hlo Hhi y Hy. injection Hlo as Hlo. injection Hhi as Hhi.
  pose proof (@fold_minimum_le lo a x) as Hmin. rewrite Hlo in Hmin.
  pose proof (@fold_maximum_ge hi a x) as Hmax. rewrite Hhi in Hmax.
  specialize (Hmin (leb_Fin_refl lo) y Hy). specialize (Hmax (leb_Fin_refl hi) y Hy).
  destruct y as [q|s|]; [| destruct s; discriminate | discriminate].
  exists q. split; [reflexivity |].
  cbn in Hmin, Hmax. apply Qle_bool_iff in Hmin, Hmax. split; assumption.
Qed.

Lemma amin_le_amax (a : list xq) (lo hi : Q) :
  np.amin a = Ok (Fin lo) -> np.amax a = Ok (Fin hi) -> (lo <= hi)%Q.
Proof.
  intros Hlo Hhi. destruct a as [|x a]; [discriminate |].
  destruct (@amin_amax_bounds (x :: a) lo hi Hlo Hhi x (or_introl Logic.eq_refl))
    as (q & _ & Hq).
  lra.
Qed.

(** ** Bins of non-negative weights only grow *)

Lemma fin_le_trans (x y z : xq) : fin_le x y -> fin_le y z -> fin_le x z.
Proof. destruct x, y, z; cbn; try tauto. intros; lra. Qed.

Lemma Forall2_fin_le_trans (a b c : list xq) :
  Forall2 fin_le a b -> Forall2 fin_le b c -> Forall2 fin_le a c.
Proof.
  intros Hab; revert c; induction Hab as [|x y a b Hxy Hab IH]; intros c Hbc;
    inversion Hbc; subst; constructor; eauto using fin_le_trans.
Qed.

Lemma Forall2_fin_le_refl (a : list xq) :
  Forall (fun x => Exact.isfinite x = true) a -> Forall2 fin_le a a.
Proof.
  induction 1 as [|x a Hx _ IH]; constructor; [| exact IH].
  destruct x; try discriminate. cbn. lra.
Qed.

Lemma Forall2_fin_le_finite (a b : list xq) :
  Forall2 fin_le a b -> Forall (fun x => Exact.isfinite x = true) b.
Proof.
  induction 1 as [|x y a b Hxy _ IH]; constructor; [| exact IH].
  destruct x, y; cbn in Hxy; try contradiction. reflexivity.
Qed.

Lemma Forall2_fin_le_item (a b : list xq) (k : nat) :
  Forall2 fin_le a b -> (k < length a)%nat -> fin_le (item a k) (item b k).
Proof.
  intros Hab; revert k; induction Hab as [|x y a b Hxy _ IH]; intros k Hk;
    cbn [length] in Hk; [lia |].
  destruct k as [|k]; [exact Hxy |]. apply IH. lia.
Qed.

Lemma add_at_grows (k : nat) (w : xq) (acc : list xq) :
  nonneg w -> Forall (fun x => Exact.isfinite x = true) acc ->
  Forall2 fin_le acc (add_at k w acc).
Proof.
  intros Hw Hacc; revert k; induction Hacc as [|x acc Hx Hacc IH]; intros k;
    [destruct k; constructor |].
  destruct k as [|k]; cbn [add_at]; constructor.
  - destruct x as [x| |], w as [c| |]; try discriminate; try contradiction.
    cbn in *. lra.
  - now apply Forall2_fin_le_refl.
  - destruct x; try discriminate. cbn. lra.
  - apply IH.
Qed.

Lemma item_add_at (k : nat) (w : xq) (acc : list xq) :
  (k < length acc)%nat -> item (add_at k w acc) k = Exact.add (item acc k) w.
Proof.
  revert k; induction acc as [|x acc IH]; intros k Hk; cbn [length] in Hk; [lia |].
  destruct k as [|k]; [reflexivity |]. cbn [add_at]. apply IH. lia.
Qed.

Lemma bincount_grows (indices : list (option nat)) (weights acc : list xq) :
  Forall nonneg weights -> Forall (fun x => Exact.isfinite x = true) acc ->
  Forall2 fin_le acc (np.bincount indices weights acc).
Proof.
  revert weights acc; induction indices as [|i indices IH]; intros weights acc Hw Hacc.
  - cbn. now apply Forall2_fin_le_refl.
  - destruct weights as [|w weights].
    + destruct i; cbn; now apply Forall2_fin_le_refl.
    + inversion Hw as [|w' l' Hw1 Hws]; subst.
      destruct i as [k|]; cbn [np.bincount]; [| now apply IH].
      pose proof (@add_at_grows k w acc Hw1 Hacc) as Hstep.
      eapply Forall2_fin_le_trans; [exact Hstep |].
      apply IH; [exact Hws |]. eapply Forall2_fin_le_finite; exact Hstep.
Qed.

(** The bin of a value holds at least the weight of that value. *)
Lemma bincount_holds (indices : list (option nat)) (weights acc : list xq)
      (i k : nat) (w : xq) :
  Forall nonneg weights -> Forall (fun x => Exact.isfinite x = true) acc ->
  nth_error indices i = Some (Some k) -> nth_error weights i = Some w ->
  (k < length acc)%nat ->
  fin_le (Exact.add (item acc k) w) (item (np.bincount indices weights acc) k).
Proof.
  revert weights acc i; induction indices as [|j indices IH]; intros weights acc i Hw Hacc Hi Hwi Hk.
  - destruct i; discriminate Hi.
  - destruct weights as [|w0 weights]; [destruct i; discriminate Hwi |].
    inversion Hw as [|w' l' Hw1 Hws]; subst.
    destruct i as [|i]; cbn [nth_error] in Hi, Hwi.
    + injection Hi as ->. injection Hwi as ->. cbn [np.bincount].
      pose proof (@add_at_grows k w acc Hw1 Hacc) as Hstep.
      rewrite <- (@item_add_at k w acc Hk).
      apply Forall2_fin_le_item.
      * apply bincount_grows; [exact Hws |]. eapply Forall2_fin_le_finite; exact Hstep.
      * now rewrite add_at_length.
    + destruct j as [j|]; cbn [np.bincount].
      * pose proof (@add_at_grows j w0 acc Hw1 Hacc) as Hstep.
        eapply fin_le_trans; [| eapply IH; eauto].
        -- pose proof (@Forall2_fin_le_item _ _ k Hstep Hk) as Hle.
           assert (Hnn : nonneg w).
           { apply nth_error_In in Hwi. rewrite Forall_forall in Hws. now apply Hws. }
           destruct (item acc k), (item (add_at j w0 acc) k), w; cbn in *; try contradiction.
           lra.
        -- eapply Forall2_fin_le_finite; exact Hstep.
        -- now rewrite add_at_length.
      * eapply IH; eauto.
Qed.

(** ** The pixels that hold the maximum coordinate *)

Lemma histogram_bins (a : list xq) (bins : Z) (weights : list xq) (range : xq * xq)
      (h e : list xq) :
  np.histogram a bins weights (Some range) = Ok (h, e) ->
  length weights = length a /\
  h = np.bincount
        (map (np.bin_index (fst (binned_interval range)) (snd (binned_interval range)) e) a)
        weights (repeat (fof_Z 0) (Z.to_nat bins)).
Proof.
  unfold np.histogram. intros Hh.
  destruct (length weights =? length a)%nat eqn:Hlen; [| discriminate Hh].
  cbn [negb] in Hh.
  destruct (bins <? 1)%Z eqn:Hbins; [discriminate Hh |].
  destruct (np.get_outer_edges a (Some range)) as [[first_edge last_edge]|] eqn:Hedges;
    [cbn [bind] in Hh | discriminate Hh].
  injection Hh as <- <-.
  apply get_outer_edges_explicit in Hedges. destruct Hedges as (<- & _).
  apply Nat.eqb_eq in Hlen. split; [exact Hlen | reflexivity].
Qed.

Lemma searchsorted_right_all (a : list xq) (v : xq) :
  np.searchsorted_right a v = length a <-> Forall (fun e => (e <=? v)%F = true) a.
Proof.
  induction a as [|e a IH]; cbn [np.searchsorted_right length]; [split; auto |].
  destruct (e <=? v)%F eqn:E.
  - split.
    + intros Hs. constructor; [exact E |]. apply IH. lia.
    + intros Hall. inversion Hall; subst. f_equal. now apply IH.
  - split; [discriminate |]. intros Hall. inversion Hall; subst. congruence.
Qed.

Lemma EPS32_exact : EPS32 = Fin (1 + 1 / 4294967296).
Proof. reflexivity. Qed.

Lemma item_zeros (n k : nat) : (k < n)%nat -> item (repeat (fof_Z 0) n) k = Fin 0.
Proof. intros Hk. unfold item. now rewrite nth_repeat_lt. Qed.

Lemma zeros_finite (n : nat) :
  Forall (fun x => Exact.isfinite x = true) (repeat (fof_Z 0) n).
Proof. apply Forall_forall. intros x Hx. apply repeat_spec in Hx. now subst. Qed.

(** A value is in the last bin exactly when it is not below the lower edge
    of the last bin. *)
Lemma last_bin_iff (lo hi v : Q) (n : nat) :
  (lo < hi)%Q -> (lo <= v)%Q ->
  let edges := np.linspace (Fin lo) (Fin hi) (S (S n)) in
  np.searchsorted_right (removelast (tl edges)) (Fin v) = n <->
  (item edges n <=? Fin v)%F = true.
Proof.
  intros Hlt Hv edges.
  assert (Hlen : length (removelast (tl edges)) = n).
  { unfold edges. rewrite removelast_tl_length, linspace_length. lia. }
  pose proof (inject_nat_pos n) as Hpos.
  assert (Hw : (0 < (hi - lo) / inject_Z (Z.of_nat (S n)))%Q)
    by (apply Qlt_shift_div_l; lra).
  rewrite <- Hlen at 1. rewrite searchsorted_right_all.
  split.
  - intros Hall. destruct n as [|m].
    + destruct (@linspace_item lo hi 0 0 Hlt) as (q & Hq & Eq); [lia |].
      fold edges in Hq. rewrite Hq. apply Qle_bool_iff.
      rewrite Eq. change (inject_Z (Z.of_nat 0)) with 0. lra.
    + rewrite Forall_forall in Hall.
      rewrite <- item_tl, <- item_removelast
        by (unfold edges; rewrite tl_length, linspace_length; lia).
      apply Hall. apply nth_In. lia.
  - intros Hn. apply Forall_forall. intros e He.
    apply (In_nth _ _ fnan) in He. destruct He as (j & Hj & <-).
    rewrite Hlen in Hj.
    change (nth j (removelast (tl edges)) fnan) with (item (removelast (tl edges)) j).
    rewrite item_removelast, item_tl
      by (unfold edges; rewrite tl_length, linspace_length; lia).
    destruct n as [|m]; [lia |].
    destruct (@linspace_item lo hi (S m) (S j) Hlt) as (qj & Hqj & Eqj); [lia |].
    destruct (@linspace_item lo hi (S m) (S m) Hlt) as (qn & Hqn & Eqn); [lia |].
    fold edges in Hqj, Hqn. rewrite Hqn in Hn. rewrite Hqj.
    apply Qle_bool_iff in Hn. apply Qle_bool_iff.
    assert (Hjm : (inject_Z (Z.of_nat (S j)) <= inject_Z (Z.of_nat (S m)))%Q)
      by (rewrite <- Zle_Qle; lia).
    assert (Hmul : (inject_Z (Z.of_nat (S j)) * ((hi - lo) / inject_Z (Z.of_nat (S (S m))))
                    <= inject_Z (Z.of_nat (S m)) * ((hi - lo) / inject_Z (Z.of_nat (S (S m)))))%Q)
      by (apply Qmult_le_compat_r; lra).
    lra.
Qed.

(** C4 as amended: without a range, a call that returns has resolved the
    range [(min, max * EPS32)] over the whole radial array, both finite.
    When the maximum is positive, it lies strictly below the upper edge and
    has a bin [k]; with counts that are finite and not negative, the count of
    every pixel that holds the maximum is part of [sum_count[k]]; and [k] is
    the last bin exactly when the maximum is not below the lower edge of the
    last bin. *)
Theorem maximum_pixel_is_binned
        (radial : list (list xq)) (npt : Z) (prep : list (PixelSample xq))
        (dummy empty : option xq) (error_model : ErrorModel) (r : Integrate1dtpl xq)
        (Hr : histogram1d_engine radial npt prep dummy empty error_model None = Ok r) :
  exists lo mx,
    np.amin (ravel radial) = Ok (Fin lo) /\
    np.amax (ravel radial) = Ok (Fin mx) /\
    resolve_radial_range (ravel radial) None = Ok (Fin lo, (Fin mx * EPS32)%F) /\
    (lo <= mx)%Q /\ (1 <= npt)%Z /\
    ((0 < mx)%Q ->
     let last_edge := (Fin mx * EPS32)%F in
     let edges := np.linspace (Fin lo) last_edge (S (Z.to_nat npt)) in
     (Fin mx <? last_edge)%F = true /\
     exists k,
       np.bin_index (Fin lo) last_edge edges (Fin mx) = Some k /\
       (k < Z.to_nat npt)%nat /\
       (Forall (fun p => nonneg (count p)) prep ->
        forall i p,
          nth_error (ravel radial) i = Some (Fin mx) -> nth_error prep i = Some p ->
          fin_le (count p) (item (sum_count r) k)) /\
       (k = (Z.to_nat npt - 1)%nat <->
        (item edges (Z.to_nat npt - 1) <=? Fin mx)%F = true)).
Proof.
  apply histogram1d_engine_Ok in Hr.
  destruct Hr as (range & hs & es & hn & en & hc & position & hv
                  & Hlen & Hrange & _ & _ & Hc & _ & _ & ->).
  cbn [sum_count].
  pose proof Hc as Hedges. apply histogram_edges in Hedges.
  destruct Hedges as (Hnpt & Hpos & _ & Hflo & Hfhi).
  apply histogram_bins in Hc. destruct Hc as (Hwlen & Hbins).
  unfold resolve_radial_range in Hrange.
  destruct (np.amin (ravel radial)) as [lo'|] eqn:Hmin; [| discriminate Hrange].
  destruct (np.amax (ravel radial)) as [mx'|] eqn:Hmax; [| discriminate Hrange].
  assert (Erange : range = (lo', (mx' * EPS32)%F)) by (cbn [bind] in Hrange; congruence).
  clear Hrange. subst range. cbn [fst snd] in Hflo, Hfhi.
  destruct lo' as [lo| |]; try discriminate Hflo.
  destruct mx' as [mx| |]; try discriminate Hfhi.
  exists lo, mx.
  assert (Hle : (lo <= mx)%Q) by (eapply amin_le_amax; eassumption).
  do 2 (split; [reflexivity |]).
  split; [unfold resolve_radial_range; rewrite Hmin, Hmax; reflexivity |].
  split; [exact Hle |]. split; [exact Hnpt |].
  intros Hmx. cbn zeta.
  assert (Hhi : (Fin mx * EPS32)%F = Fin (mx * (1 + 1 / 4294967296))) by reflexivity.
  rewrite Hhi in *. clear Hhi.
  remember (mx * (1 + 1 / 4294967296))%Q as hi eqn:Ehi.
  assert (Hlt : (mx < hi)%Q).
  { subst hi. rewrite <- (Qmult_1_r mx) at 1. apply Qmult_lt_l; [exact Hmx | reflexivity]. }
  assert (Hbi : binned_interval (Fin lo, Fin hi) = (Fin lo, Fin hi)).
  { unfold binned_interval. cbn [fst snd feqb exact_reading exact Exact.eqb].
    rewrite Qeq_bool_false by lra. reflexivity. }
  rewrite Hbi in Hbins, Hpos. cbn [fst snd] in Hbins, Hpos. subst position.
  assert (Hin : (Exact.leb (Fin lo) (Fin mx) && Exact.leb (Fin mx) (Fin hi))%bool = true).
  { apply andb_true_intro. split; apply Qle_bool_iff; lra. }
  split.
  { cbn. apply negb_true_iff. destruct (Qle_bool hi mx) eqn:E; [| reflexivity].
    apply Qle_bool_iff in E. lra. }
  destruct (Z.to_nat npt) as [|n] eqn:Hn; [lia |].
  pose proof (bin_index_spec (Fin lo) (Fin hi) n (Fin mx)) as Hspec.
  destruct (np.bin_index (Fin lo) (Fin hi) (np.linspace (Fin lo) (Fin hi) (S (S n))) (Fin mx))
    as [k|] eqn:Hk.
  - destruct Hspec as [_ Hkn]. exists k.
    split; [reflexivity |]. split; [exact Hkn |]. split.
    + intros Hnn i p Hi Hp. subst hc.
      assert (Hw : Forall nonneg (map count prep)).
      { apply Forall_forall. intros w Hw. apply in_map_iff in Hw.
        destruct Hw as (p' & <- & Hp'). rewrite Forall_forall in Hnn. now apply Hnn. }
      pose proof (@bincount_holds
                    (map (np.bin_index (Fin lo) (Fin hi)
                                       (np.linspace (Fin lo) (Fin hi) (S (S n))))
                         (ravel radial))
                    (map count prep) (repeat (fof_Z 0) (S n)) i k (count p)
                    Hw (zeros_finite (S n))) as Hholds.
      rewrite item_zeros in Hholds by exact Hkn.
      eapply fin_le_trans; [| apply Hholds].
      * assert (Hc : nonneg (count p)).
        { apply nth_error_In in Hp. rewrite Forall_forall in Hnn. now apply Hnn. }
        destruct (count p); cbn in *; try contradiction. lra.
      * rewrite nth_error_map, Hi. cbn [option_map]. now rewrite Hk.
      * now rewrite nth_error_map, Hp.
      * now rewrite repeat_length.
    + unfold np.bin_index in Hk.
      cbn [fleb exact_reading exact] in Hk. rewrite Hin in Hk. injection Hk as <-.
      replace (S n - 1)%nat with n by lia. apply last_bin_iff; lra.
  - exfalso. unfold in_range in Hspec. cbn [fst snd fleb exact_reading exact] in Hspec.
    congruence.
Qed.

End ExactReading.

Section ExactExamples.

#[local] Instance exact_root : Scalar xq := exact Exact.root.

(** C6 as stated fails on an empty range: with [radial_range = (1, 1)]
    numpy bins over [[1/2, 3/2]], so the pixel at 5/4, which is outside of
    the resolved range, is summed into the bin. *)
Lemma conservation_counterexample :
  exists r,
    histogram1d_engine [[Fin (5 # 4)]] 1 [qx 5 0 1 1] None None NO (Some (Fin 1, Fin 1)) = Ok r /\
    sum_signal r = [Fin (0 + 5)] /\
    ~ total (sum_signal r) =x= total (kept (Fin 1, Fin 1) [Fin (5 # 4)] [Fin 5]).
Proof.
  eexists. split; [vm_compute; reflexivity |]. split; [reflexivity |].
  vm_compute. discriminate.
Qed.

Lemma conservation_witness :
  exists r,
    histogram1d_engine [[Fin (1 # 4); Fin (3 # 4); Fin 2]] 2
                       [qx 5 0 1 1; qx 7 0 1 1; qx 9 0 1 1] None None NO
                       (Some (Fin 0, Fin 1)) = Ok r /\
    total (sum_signal r) =x= Fin 12.
Proof.
  assert (Hr : exists r,
             histogram1d_engine [[Fin (1 # 4); Fin (3 # 4); Fin 2]] 2
                                [qx 5 0 1 1; qx 7 0 1 1; qx 9 0 1 1] None None NO
                                (Some (Fin 0, Fin 1)) = Ok r)
    by (eexists; vm_compute; reflexivity).
  destruct Hr as [r Hr]. exists r. split; [exact Hr |].
  destruct (conservation Exact.root _ _ _ _ _ _ Hr) as (range & Hrange & Hs & _).
  injection Hrange as <-.
  eapply ExactFacts.eq_trans; [exact Hs |].
  vm_compute. reflexivity.
Defined.

(** C8 as stated fails on an empty range: with [radial_range = (1, 1)] and
    two bins numpy bins over [[1/2, 3/2]], so the two centers 3/4 and 5/4
    are 1/2 apart, and not [(1 - 1) / 2 = 0]. *)
Lemma bin_centers_counterexample :
  exists r,
    histogram1d_engine [[Fin 1]] 2 [qx 5 0 1 1] None None NO (Some (Fin 1, Fin 1)) = Ok r /\
    resolve_radial_range (ravel [[Fin 1]]) (Some (Fin 1, Fin 1)) = Ok (Fin 1, Fin 1) /\
    item (positions r) 0 =x= Fin (3 # 4) /\
    item (positions r) 1 =x= Fin (5 # 4) /\
    ~ (item (positions r) 1 - item (positions r) 0)%F =x= Fin ((1 - 1) / inject_Z 2).
Proof.
  eexists. split; [vm_compute; reflexivity |].
  split; [reflexivity |].
  split; [vm_compute; reflexivity |].
  split; [vm_compute; reflexivity |].
  vm_compute. discriminate.
Qed.

Lemma bin_centers_witness :
  exists r,
    histogram1d_engine [[Fin (1 # 4); Fin (3 # 4); Fin 2]] 2
                       [qx 5 0 1 1; qx 7 0 1 1; qx 9 0 1 1] None None NO
                       (Some (Fin 0, Fin 1)) = Ok r /\
    length (positions r) = 2%nat /\
    (item (positions r) 1 - item (positions r) 0)%F =x= Fin (1 # 2) /\
    (item (positions r) 0 <? item (positions r) 1)%F = true.
Proof.
  assert (Hr : exists r,
             histogram1d_engine [[Fin (1 # 4); Fin (3 # 4); Fin 2]] 2
                                [qx 5 0 1 1; qx 7 0 1 1; qx 9 0 1 1] None None NO
                                (Some (Fin 0, Fin 1)) = Ok r)
    by (eexists; vm_compute; reflexivity).
  destruct Hr as [r Hr]. exists r. split; [exact Hr |].
  destruct (bin_centers_evenly_spaced Exact.root _ _ _ _ _ _ _ Hr)
    as (range & lo & hi & Hrange & Hbin & _ & _ & Hlen & _ & _ & Hsp).
  injection Hrange as <-. vm_compute in Hbin. injection Hbin as <- <-.
  split; [exact Hlen |].
  destruct (Hsp 0%nat) as [Hd Hinc]; [vm_compute; lia |].
  split; [| exact Hinc].
  eapply ExactFacts.eq_trans; [exact Hd |]. vm_compute. reflexivity.
Defined.

(** C4 as stated fails on a constant radial array: with [radial = [[1, 1]]]
    and two bins the range is [(1, 1 + 2^-32)], so both pixels, which hold
    the maximum, are counted in the first bin and the last bin stays empty;
    in binary64 as in exact arithmetic. *)
Lemma maximum_pixel_counterexample :
  (exists r,
     histogram1d_engine [[1%float; 1%float]] 2 [px 5 0 1 1; px 7 0 1 1]
                        None None NO None = Ok r /\
     resolve_radial_range (ravel [[1%float; 1%float]]) None
     = Ok (1%float, (1 + 1 / 4294967296)%float) /\
     sum_count r = [2%float; 0%float]) /\
  (exists r,
     histogram1d_engine [[Fin 1; Fin 1]] 2 [qx 5 0 1 1; qx 7 0 1 1]
                        None None NO None = Ok r /\
     item (sum_count r) 0 =x= Fin 2 /\
     item (sum_count r) 1 =x= Fin 0 /\
     ~ fin_le (count (qx 5 0 1 1)) (item (sum_count r) 1)).
Proof.
  split.
  - eexists. split; [vm_compute; reflexivity |]. split; vm_compute; reflexivity.
  - eexists. split; [vm_compute; reflexivity |].
    split; [vm_compute; reflexivity |]. split; [vm_compute; reflexivity |].
    vm_compute. intros Hle. apply Hle. reflexivity.
Qed.

(** With a negative maximum the factor [EPS32] moves the upper bound below
    the maximum: the pixel that holds it is outside of the range and is
    counted in no bin, and a constant negative array has a reversed range. *)
Example negative_maximum_is_dropped :
  (exists r,
     histogram1d_engine [[(-2)%float; (-1)%float]] 1 [px 5 0 1 1; px 7 0 1 1]
                        None None NO None = Ok r /\
     sum_count r = [1%float]) /\
  histogram1d_engine [[(-1)%float; (-1)%float]] 1 [px 5 0 1 1; px 7 0 1 1]
                     None None NO None = Raise ValueError.
Proof.
  split; [eexists; split; vm_compute; reflexivity | vm_compute; reflexivity].
Qed.

Lemma maximum_pixel_witness :
  exists r,
    histogram1d_engine [[Fin (1 # 4); Fin (3 # 4); Fin 2]] 2
                       [qx 5 0 1 1; qx 7 0 1 1; qx 9 0 1 1] None None NO None = Ok r /\
    fin_le (Fin 1) (item (sum_count r) 1).
Proof.
  assert (Hr : exists r,
             histogram1d_engine [[Fin (1 # 4); Fin (3 # 4); Fin 2]] 2
                                [qx 5 0 1 1; qx 7 0 1 1; qx 9 0 1 1] None None NO None = Ok r)
    by (eexists; vm_compute; reflexivity).
  destruct Hr as [r Hr]. exists r. split; [exact Hr |].
  destruct (maximum_pixel_is_binned Exact.root _ _ _ _ _ _ Hr)
    as (lo & mx & Hmin & Hmax & _ & _ & _ & Hpos).
  vm_compute in Hmin. injection Hmin as <-.
  vm_compute in Hmax. injection Hmax as <-.
  destruct Hpos as (_ & k & Hk & _ & Hcount & _); [reflexivity |].
  vm_compute in Hk. injection Hk as <-.
  apply (Hcount (ltac:(repeat constructor; cbn; discriminate)) 2%nat (qx 9 0 1 1));
    reflexivity.
Defined.

End ExactExamples.

(** * Further properties of the engines *)

(** ** When the engines return and what they raise *)

Section Outcomes.
Context {F : Type} `{Scalar F}.

Lemma amin_raises (a : list F) (e : exn) : np.amin a = Raise e -> e = ValueError.
Proof. destruct a; cbn; congruence. Qed.

Lemma amax_raises (a : list F) (e : exn) : np.amax a = Raise e -> e = ValueError.
Proof. destruct a; cbn; congruence. Qed.

Lemma resolve_radial_range_raises (radial : list F) (radial_range : option (F * F)) (e : exn) :
  resolve_radial_range radial radial_range = Raise e -> e = ValueError.
Proof.
  unfold resolve_radial_range. destruct radial_range as [range|]; [discriminate |].
  destruct (np.amin radial) as [lo|e1] eqn:Hlo; cbn [bind].
  - destruct (np.amax radial) as [hi|e2] eqn:Hhi; cbn [bind]; [discriminate |].
    intros [= <-]. eapply amax_raises; eassumption.
  - intros [= <-]. eapply amin_raises; eassumption.
Qed.

Lemma get_outer_edges_raises (a : list F) (range : option (F * F)) (e : exn) :
  np.get_outer_edges a range = Raise e -> e = ValueError.
Proof.
  unfold np.get_outer_edges. destruct range as [[lo hi]|].
  - destruct (hi <? lo)%F; [cbn; congruence |].
    destruct (negb _); [cbn; congruence |]. cbn [bind].
    destruct (lo == hi)%F; discriminate.
  - destruct a as [|x a]; [cbn [bind]; destruct (_ == _)%F; discriminate |].
    destruct (np.amin (x :: a)) as [lo|e1] eqn:Hlo; cbn [bind];
      [| intros [= <-]; eapply amin_raises; eassumption].
    destruct (np.amax (x :: a)) as [hi|e2] eqn:Hhi; cbn [bind];
      [| intros [= <-]; eapply amax_raises; eassumption].
    destruct (negb _); [cbn; congruence |]. cbn [bind].
    destruct (lo == hi)%F; discriminate.
Qed.

(** [numpy.histogram] over an explicit range and weights of the right
    length: it returns exactly when there is a bin and the range is valid,
    and raises [ValueError] otherwise. *)
Lemma histogram_cases (a : list F) (bins : Z) (weights : list F) (range : F * F) :
  length weights = length a ->
  if (1 <=? bins)%Z && valid_range range
  then exists h e, np.histogram a bins weights (Some range) = Ok (h, e)
  else np.histogram a bins weights (Some range) = Raise ValueError.
Proof.
  intros Hlen. unfold np.histogram, valid_range, np.get_outer_edges.
  rewrite Hlen, Nat.eqb_refl. cbn [negb]. destruct range as [lo hi]. cbn [fst snd].
  destruct (Z.leb_spec 1 bins) as [Hb | Hb].
  - destruct (bins <? 1)%Z eqn:Eb; [apply Z.ltb_lt in Eb; lia |]. cbn [andb].
    destruct (hi <? lo)%F; cbn [negb andb bind]; [reflexivity |].
    destruct (fisfinite lo); cbn [negb andb bind]; [| reflexivity].
    destruct (fisfinite hi); cbn [negb andb bind]; [| reflexivity].
    destruct (lo == hi)%F; cbn [bind]; eauto.
  - destruct (bins <? 1)%Z eqn:Eb; [reflexivity | apply Z.ltb_ge in Eb; lia].
Qed.


Lemma histogram_cases_Ok (a : list F) (bins : Z) (weights : list F) (range : F * F) :
  length weights = length a -> (1 <=? bins)%Z && valid_range range = true ->
  exists h e, np.histogram a bins weights (Some range) = Ok (h, e).
Proof.
  intros Hlen Hv. pose proof (histogram_cases a bins weights range Hlen) as Hc.
  now rewrite Hv in Hc.
Qed.

(** The four outcomes of a 1D call, in the order in which the engine
    decides them. *)
Lemma histogram1d_engine_cases (radial : list (list F)) (npt : Z)
      (prep : list (PixelSample F)) (dummy empty : option F)
      (error_model : ErrorModel) (radial_range : option (F * F)) :
  let call := histogram1d_engine radial npt prep dummy empty error_model radial_range in
  if negb (length prep =? length (ravel radial))%nat then call = Raise AssertionError
  else if negb (binnable (ravel radial) npt radial_range) then call = Raise ValueError
  else if is_azimuthal error_model then call = Raise NotImplementedError
  else exists r, call = Ok r.
Proof.
  intros call. unfold call, histogram1d_engine, binnable, assert.
  destruct (length prep =? length (ravel radial))%nat eqn:Hlen; cbn [negb bind];
    [| reflexivity].
  apply Nat.eqb_eq in Hlen.
  destruct (resolve_radial_range (ravel radial) radial_range) as [range|e] eqn:Hrange;
    cbn [negb bind].
  2:{ apply resolve_radial_range_raises in Hrange. now subst e. }
  assert (Hw : forall f : PixelSample F -> F, length (map f prep) = length (ravel radial))
    by (intros f; now rewrite length_map).
  destruct ((1 <=? npt)%Z && valid_range range) eqn:Hv; cbn [negb].
  2:{ pose proof (histogram_cases (ravel radial) npt (map signal prep) range (Hw _)) as Hc.
      rewrite Hv in Hc. now rewrite Hc. }
  destruct (histogram_cases_Ok (ravel radial) npt (map signal prep) range (Hw _) Hv)
    as (hs & es & ->). cbn [bind].
  destruct (is_azimuthal error_model); [reflexivity |].
  destruct (histogram_cases_Ok (ravel radial) npt (map normalization prep) range (Hw _) Hv)
    as (hn & en & ->).
  destruct (histogram_cases_Ok (ravel radial) npt (map count prep) range (Hw _) Hv)
    as (hc & ec & ->).
  destruct (truthy error_model); cbn [bind]; [| eauto].
  destruct (histogram_cases_Ok (ravel radial) npt (map variance prep) range (Hw _) Hv)
    as (hv & ev & ->).
  destruct (histogram_cases_Ok (ravel radial) npt
              (map (fun p => (normalization p * normalization p)%F) prep) range (Hw _) Hv)
    as (h2 & e2 & ->).
  cbn [bind]. eauto.
Qed.


Lemma histogram2d_cases (x y : list F) (bins : Z * Z) (weights : list F)
      (range : option (F * F) * option (F * F)) :
  length y = length x -> length weights = length x ->
  (1 <= fst bins)%Z -> (1 <= snd bins)%Z ->
  if is_ok (np.get_outer_edges x (fst range)) && is_ok (np.get_outer_edges y (snd range))
  then exists h xe ye, np.histogram2d x y bins weights range = Ok (h, xe, ye)
  else np.histogram2d x y bins weights range = Raise ValueError.
Proof.
  intros Hy Hw Hbx Hby. unfold np.histogram2d.
  rewrite Hy, Hw, Nat.eqb_refl. cbn [andb negb].
  destruct (fst bins <? 1)%Z eqn:Ex; [apply Z.ltb_lt in Ex; lia |].
  destruct (snd bins <? 1)%Z eqn:Ey; [apply Z.ltb_lt in Ey; lia |]. cbn [orb].
  destruct (np.get_outer_edges x (fst range)) as [[x0 x1]|e] eqn:Hx; cbn [is_ok andb bind].
  2:{ apply get_outer_edges_raises in Hx. now subst e. }
  destruct (np.get_outer_edges y (snd range)) as [[y0 y1]|e] eqn:Hy'; cbn [is_ok bind].
  2:{ apply get_outer_edges_raises in Hy'. now subst e. }
  eauto.
Qed.

(** The three outcomes of a 2D call, in the order in which the engine
    decides them. *)
Lemma histogram2d_engine_cases (radial azimuthal : list (list F)) (npt : Z * Z)
      (prep : list (PixelSample F)) (dummy empty : option F) (error_model : ErrorModel)
      (radial_range azimuth_range : option (F * F)) :
  let call := histogram2d_engine radial azimuthal npt prep dummy empty error_model
                                 radial_range azimuth_range in
  if negb ((length prep =? length (ravel radial))%nat &&
           (length prep =? length (ravel azimuthal))%nat)
  then call = Raise AssertionError
  else if negb (is_ok (np.get_outer_edges (ravel radial) radial_range) &&
                is_ok (np.get_outer_edges (ravel azimuthal) azimuth_range))
  then call = Raise ValueError
  else exists r, call = Ok r.
Proof.
  intros call. unfold call, histogram2d_engine, assert.
  destruct (length prep =? length (ravel radial))%nat eqn:Hr; cbn [andb negb bind];
    [| reflexivity].
  destruct (length prep =? length (ravel azimuthal))%nat eqn:Ha; cbn [andb negb bind];
    [| reflexivity].
  apply Nat.eqb_eq in Hr, Ha.
  assert (Hy : length (ravel azimuthal) = length (ravel radial)) by congruence.
  assert (Hw : forall f : PixelSample F -> F, length (map f prep) = length (ravel radial))
    by (intros f; now rewrite length_map).
  pose proof (fun f => histogram2d_cases (ravel radial) (ravel azimuthal)
                         (Z.max 1 (fst npt), Z.max 1 (snd npt)) (map f prep)
                         (radial_range, azimuth_range) Hy (Hw f)
                         (Z.le_max_l 1 (fst npt)) (Z.le_max_l 1 (snd npt))) as Hc.
  cbn [fst snd] in Hc.
  destruct (is_ok (np.get_outer_edges (ravel radial) radial_range) &&
            is_ok (np.get_outer_edges (ravel azimuthal) azimuth_range)); cbn [negb].
  - destruct (Hc signal) as (hs & xs & ys & ->).
    destruct (Hc normalization) as (hn & xn & yn & ->).
    destruct (Hc count) as (hc & xc & yc & ->). cbn [bind].
    destruct (truthy error_model); cbn [bind]; [| eauto].
    destruct (Hc variance) as (hv & xv & yv & ->). cbn [bind]. eauto.
  - now rewrite (Hc signal).
Qed.

End Outcomes.

(** Settle a conjunction of equivalences between outcomes and conditions. *)
Ltac outcome :=
  repeat split; intros;
  repeat match goal with
         | H : exists _, _ |- _ => destruct H
         | H : _ /\ _ |- _ => destruct H
         end;
  try tauto; try congruence; eauto.

Section OutcomeTheorems.
Context {F : Type} `{Scalar F}.

(** X1: the 1D engine returns a result exactly when the shapes agree, the
    call is binnable (the range resolves to an ordered, finite pair and
    [npt >= 1]) and the error model is not the azimuthal one. *)
Theorem histogram1d_engine_returns_iff
        (radial : list (list F)) (npt : Z) (prep : list (PixelSample F))
        (dummy empty : option F) (error_model : ErrorModel) (radial_range : option (F * F)) :
  (exists r, histogram1d_engine radial npt prep dummy empty error_model radial_range = Ok r)
  <-> length prep = length (ravel radial) /\
      binnable (ravel radial) npt radial_range = true /\
      error_model <> AZIMUTHAL.
Proof.
  pose proof (histogram1d_engine_cases radial npt prep dummy empty error_model radial_range)
    as Hc. cbv zeta in Hc.
  destruct (length prep =? length (ravel radial))%nat eqn:Hlen; cbn [negb] in Hc.
  - apply Nat.eqb_eq in Hlen.
    destruct (binnable (ravel radial) npt radial_range); cbn [negb] in Hc.
    + destruct error_model; cbn [is_azimuthal] in Hc;
        try (split; [intros _; repeat split; [exact Hlen | discriminate] | intros _; exact Hc]).
      rewrite Hc. split; [intros [r Hr]; discriminate Hr | intros (_ & _ & Hne); now destruct Hne].
    + rewrite Hc. split; [intros [r Hr]; discriminate Hr | intros (_ & Hb & _); discriminate Hb].
  - apply Nat.eqb_neq in Hlen. rewrite Hc.
    split; [intros [r Hr]; discriminate Hr | intros (Hl & _); contradiction].
Qed.

(** X2: the exceptions of the 1D engine: the assertion error exactly on a
    shape mismatch; [ValueError] exactly when the shapes agree and the call
    is not binnable; [NotImplementedError] exactly when the shapes agree, the
    call is binnable and the error model is the azimuthal one. *)
Theorem histogram1d_engine_exceptions
        (radial : list (list F)) (npt : Z) (prep : list (PixelSample F))
        (dummy empty : option F) (error_model : ErrorModel) (radial_range : option (F * F)) :
  let call := histogram1d_engine radial npt prep dummy empty error_model radial_range in
  (call = Raise AssertionError <-> length prep <> length (ravel radial)) /\
  (call = Raise ValueError <->
   length prep = length (ravel radial) /\ binnable (ravel radial) npt radial_range = false) /\
  (call = Raise NotImplementedError <->
   length prep = length (ravel radial) /\ binnable (ravel radial) npt radial_range = true /\
   error_model = AZIMUTHAL).
Proof.
  pose proof (histogram1d_engine_cases radial npt prep dummy empty error_model radial_range)
    as Hc. cbv zeta in *.
  destruct (length prep =? length (ravel radial))%nat eqn:Hlen; cbn [negb] in Hc.
  - apply Nat.eqb_eq in Hlen.
    destruct (binnable (ravel radial) npt radial_range); cbn [negb] in Hc.
    + destruct (is_azimuthal error_model) eqn:Haz.
      * rewrite Hc. assert (error_model = AZIMUTHAL) by (destruct error_model; now try discriminate Haz).
        repeat split; try discriminate; try tauto; intros; intuition congruence.
      * destruct Hc as [r ->].
        assert (error_model <> AZIMUTHAL) by (intros ->; discriminate Haz).
        repeat split; try discriminate; try tauto; intros; intuition congruence.
    + rewrite Hc. repeat split; try discriminate; try tauto; intros; intuition congruence.
  - apply Nat.eqb_neq in Hlen. rewrite Hc.
    repeat split; try discriminate; try tauto; intros; intuition congruence.
Qed.

(** X3: the 2D engine rejects no error model and no bin number: it raises
    the assertion error exactly when one of the two coordinate arrays has not
    as many entries as there are pixel samples, [ValueError] exactly when the
    shapes agree and numpy finds no outer edges along one of the axes, never
    [NotImplementedError], and it returns in every other case. *)
Theorem histogram2d_engine_outcomes
        (radial azimuthal : list (list F)) (npt : Z * Z)
        (prep : list (PixelSample F)) (dummy empty : option F) (error_model : ErrorModel)
        (radial_range azimuth_range : option (F * F)) :
  let call := histogram2d_engine radial azimuthal npt prep dummy empty error_model
                                 radial_range azimuth_range in
  let shapes := length prep = length (ravel radial) /\
                length prep = length (ravel azimuthal) in
  let edges := is_ok (np.get_outer_edges (ravel radial) radial_range) &&
               is_ok (np.get_outer_edges (ravel azimuthal) azimuth_range) in
  (call = Raise AssertionError <-> ~ shapes) /\
  (call = Raise ValueError <-> shapes /\ edges = false) /\
  call <> Raise NotImplementedError /\
  ((exists r, call = Ok r) <-> shapes /\ edges = true).
Proof.
  pose proof (histogram2d_engine_cases radial azimuthal npt prep dummy empty error_model
                radial_range azimuth_range) as Hc. cbv zeta in *.
  destruct (length prep =? length (ravel radial))%nat eqn:Hr;
    [apply Nat.eqb_eq in Hr | apply Nat.eqb_neq in Hr];
    (destruct (length prep =? length (ravel azimuthal))%nat eqn:Ha;
     [apply Nat.eqb_eq in Ha | apply Nat.eqb_neq in Ha]);
    cbn [andb negb] in Hc.
  - destruct (is_ok (np.get_outer_edges (ravel radial) radial_range) &&
              is_ok (np.get_outer_edges (ravel azimuthal) azimuth_range)); cbn [negb] in Hc.
    + destruct Hc as [r Hc]. rewrite Hc. outcome.
    + rewrite Hc. outcome.
  - rewrite Hc. outcome.
  - rewrite Hc. outcome.
  - rewrite Hc. outcome.
Qed.

End OutcomeTheorems.

(** ** Shapes of the results *)

Section ResultShapes.
Context {F : Type} `{Scalar F}.

Lemma setitem_mask_length (a : list F) (mask : list bool) (value : option F) :
  length mask = length a -> length (np.setitem_mask a mask value) = length a.
Proof. intros Hm. unfold np.setitem_mask. rewrite zip_with_length, Hm. lia. Qed.

Lemma add_at2_shape (i j : nat) (w : F) (M : list (list F)) (rows cols : nat) :
  shape rows cols M -> shape rows cols (add_at2 i j w M).
Proof.
  unfold shape. revert i rows; induction M as [|row M IH]; intros i rows [Hl Hr];
    [destruct i; cbn; auto |].
  inversion Hr as [|? ? Hrow Hrest]; subst.
  destruct i as [|i]; cbn [add_at2 length]; split; try reflexivity.
  - constructor; [now rewrite add_at_length | exact Hrest].
  - f_equal. now apply (IH i (length M)).
  - constructor; [reflexivity |]. now apply (IH i (length M)).
Qed.

Lemma bincount2_shape (ix iy : list (option nat)) (weights : list F) (M : list (list F))
      (rows cols : nat) :
  shape rows cols M -> shape rows cols (np.bincount2 ix iy weights M).
Proof.
  revert iy weights M; induction ix as [|i ix IH]; intros iy weights M HM; [exact HM |].
  destruct iy as [|j iy]; [destruct i; exact HM |].
  destruct weights as [|w weights]; [destruct i, j; exact HM |].
  destruct i as [i|], j as [j|]; cbn [np.bincount2]; apply IH; try exact HM.
  now apply add_at2_shape.
Qed.

Lemma zeros_shape (rows cols : nat) :
  shape rows cols (repeat (repeat (fof_Z 0) cols) rows).
Proof.
  split; [apply repeat_length |]. apply Forall_forall. intros row Hrow.
  apply repeat_spec in Hrow. subst row. apply repeat_length.
Qed.

(** [H.T] of a matrix with at least one row. *)
Lemma transpose_shape (M : list (list F)) (rows cols : nat) :
  shape (S rows) cols M -> shape cols (S rows) (transpose M).
Proof.
  intros [Hl Hr]. unfold transpose, shape.
  destruct M as [|row M]; [discriminate Hl |]. cbn [hd].
  inversion Hr as [|? ? Hrow Hrest]; subst.
  rewrite length_map, length_seq. split; [reflexivity |].
  apply Forall_forall. intros r Hin. apply in_map_iff in Hin.
  destruct Hin as (j & <- & _). now rewrite length_map.
Qed.

Lemma zip_with_shape {A B C : Type} (f : A -> B -> C) (M : list (list A)) (N : list (list B))
      (rows cols : nat) :
  shape rows cols M -> shape rows cols N -> shape rows cols (zip_with (zip_with f) M N).
Proof.
  unfold shape. revert N rows; induction M as [|r M IH]; intros [|s N] rows [Hl Hr] [Hl' Hs];
    cbn [zip_with length] in *; try (split; [congruence | constructor]); try lia.
  inversion Hr; inversion Hs; subst.
  destruct (IH N (length M)) as [IHl IHr]; try (split; [lia | assumption]).
  split; [now rewrite IHl |].
  constructor; [| exact IHr]. rewrite zip_with_length. lia.
Qed.

Lemma map_map_shape {A B : Type} (f : A -> B) (M : list (list A)) (rows cols : nat) :
  shape rows cols M -> shape rows cols (map (map f) M).
Proof.
  intros [Hl Hr]. split; [now rewrite length_map |].
  apply Forall_forall. intros r Hin. apply in_map_iff in Hin. destruct Hin as (r0 & <- & Hin).
  rewrite length_map. rewrite Forall_forall in Hr. now apply Hr.
Qed.

Lemma setitem_mask_2d_shape (M : list (list F)) (mask : list (list bool)) (value : option F)
      (rows cols : nat) :
  shape rows cols M -> shape rows cols mask -> shape rows cols (setitem_mask_2d M mask value).
Proof.
  unfold shape, setitem_mask_2d.
  revert mask rows; induction M as [|r M IH]; intros [|s mask] rows [Hl Hr] [Hl' Hs];
    cbn [zip_with length] in *; try (split; [congruence | constructor]); try lia.
  inversion Hr; inversion Hs; subst.
  destruct (IH mask (length M)) as [IHl IHr]; try (split; [lia | assumption]).
  split; [now rewrite IHl |].
  constructor; [| exact IHr]. apply setitem_mask_length. congruence.
Qed.

Lemma histogram2d_shape (x y : list F) (bins : Z * Z) (weights : list F)
      (range : option (F * F) * option (F * F)) (h : list (list F)) (xe ye : list F) :
  np.histogram2d x y bins weights range = Ok (h, xe, ye) ->
  (1 <= fst bins)%Z /\ (1 <= snd bins)%Z /\
  shape (Z.to_nat (fst bins)) (Z.to_nat (snd bins)) h /\
  length xe = S (Z.to_nat (fst bins)) /\ length ye = S (Z.to_nat (snd bins)).
Proof.
  unfold np.histogram2d. intros Hh.
  destruct (negb _); [discriminate Hh |].
  destruct (fst bins <? 1)%Z eqn:Ex; [discriminate Hh |].
  destruct (snd bins <? 1)%Z eqn:Ey; [discriminate Hh |]. cbn [orb] in Hh.
  destruct (np.get_outer_edges x (fst range)) as [[x0 x1]|]; [cbn [bind] in Hh | discriminate Hh].
  destruct (np.get_outer_edges y (snd range)) as [[y0 y1]|]; [cbn [bind] in Hh | discriminate Hh].
  cbv zeta in Hh. injection Hh as <- <- <-. apply Z.ltb_ge in Ex, Ey.
  split; [exact Ex |]. split; [exact Ey |].
  split; [apply bincount2_shape, zeros_shape |].
  split; [exact (linspace_length x0 x1 (S (Z.to_nat (fst bins))))
         | exact (linspace_length y0 y1 (S (Z.to_nat (snd bins))))].
Qed.

Lemma bin_centers_2d_length (position : list F) :
  length (bin_centers_2d position) = (length position - 1)%nat.
Proof. unfold bin_centers_2d. rewrite zip_with_length, tl_length, removelast_length. lia. Qed.

Lemma mask_empty_shape (M : list (list F)) (rows cols : nat) :
  shape rows cols M -> shape rows cols (map mask_empty M).
Proof.
  intros [Hl Hr]. split; [now rewrite length_map |].
  apply Forall_forall. intros r Hin. apply in_map_iff in Hin. destruct Hin as (r0 & <- & Hin).
  rewrite mask_empty_length. rewrite Forall_forall in Hr. now apply Hr.
Qed.

End ResultShapes.

Section ShapeTheorems.
Context {F : Type} `{Scalar F}.

(** X4: a returned 1D result has [npt >= 1] bins, and every array of it,
    the bin centers, the intensity, the sums and the error arrays that are
    present, has exactly [npt] entries. *)
Theorem histogram1d_engine_shapes
        (radial : list (list F)) (npt : Z) (prep : list (PixelSample F))
        (dummy empty : option F) (error_model : ErrorModel)
        (radial_range : option (F * F)) (r : Integrate1dtpl F)
        (Hr : histogram1d_engine radial npt prep dummy empty error_model radial_range = Ok r) :
  (1 <= npt)%Z /\
  let N := Z.to_nat npt in
  length (positions r) = N /\ length (intensity r) = N /\
  length (sum_signal r) = N /\ length (sum_normalization r) = N /\
  length (sum_count r) = N /\
  forall a,
    sem r = Some a \/ sem2 r = Some a \/ std r = Some a \/
    sum_variance r = Some a \/ sum_normalization_sq r = Some a ->
    length a = N.
Proof.
  apply histogram1d_engine_Ok in Hr.
  destruct Hr as (range & hs & es & hn & en & hc & position & hv
                  & _ & _ & Hs & Hn & Hc & _ & Hv & ->).
  pose proof Hc as Hedges. apply histogram_edges in Hedges.
  destruct Hedges as (Hnpt & Hpos & _).
  apply histogram_length in Hs, Hn, Hc.
  cbn [positions intensity sum_signal sum_normalization sum_count sem sem2 std
       sum_variance sum_normalization_sq].
  split; [exact Hnpt |]. cbv zeta.
  split; [rewrite bin_centers_length, Hpos, linspace_length; lia |].
  split; [rewrite setitem_mask_length; rewrite ?mask_empty_length, ?zip_with_length; lia |].
  do 3 (split; [assumption |]).
  intros a Ha.
  destruct Hv as [[_ ->] | [_ (v & ev & n2 & en2 & Hvar & Hn2 & ->)]]; cbn [option_map fst snd] in Ha.
  - destruct Ha as [Ha | [Ha | [Ha | [Ha | Ha]]]]; discriminate Ha.
  - apply histogram_length in Hvar, Hn2.
    destruct Ha as [Ha | [Ha | [Ha | [Ha | Ha]]]]; injection Ha as <-; try assumption;
      rewrite setitem_mask_length;
      rewrite ?mask_empty_length, ?length_map, ?zip_with_length, ?length_map; lia.
Qed.

(** The shapes of a 2D result. *)
Lemma result_shapes_2d
        (radial azimuthal : list (list F)) (npt : Z * Z) (prep : list (PixelSample F))
        (dummy empty : option F) (error_model : ErrorModel)
        (radial_range azimuth_range : option (F * F)) (r : Integrate2dtpl F)
        (Hr : histogram2d_engine radial azimuthal npt prep dummy empty error_model
                                 radial_range azimuth_range = Ok r) :
  let nx := Z.to_nat (Z.max 1 (fst npt)) in
  let ny := Z.to_nat (Z.max 1 (snd npt)) in
  length (bins_radial r) = nx /\ length (bins_azimuthal r) = ny /\
  shape ny nx (intensity_2d r) /\ shape ny nx (sum_signal_2d r) /\
  shape ny nx (sum_normalization_2d r) /\ shape ny nx (sum_count_2d r) /\
  forall M, error_2d r = Some M \/ sum_variance_2d r = Some M -> shape ny nx M.
Proof.
  intros nx ny. apply histogram2d_engine_Ok in Hr. cbv zeta in Hr.
  destruct Hr as (hs & xs & ys & hn & xn & yn & hc & pr & pa & hv
                  & _ & _ & Hs & Hn & Hc & Hv & ->).
  apply histogram2d_shape in Hs, Hn, Hc. cbn [fst snd] in Hs, Hn, Hc.
  destruct Hs as (_ & _ & Hs & _), Hn as (_ & _ & Hn & _), Hc as (_ & _ & Hc & Hpr & Hpa).
  fold nx ny in Hs, Hn, Hc, Hpr, Hpa.
  assert (Hnx : exists n, nx = S n) by (exists (Nat.pred nx); unfold nx; lia).
  destruct Hnx as [n Hnx]. rewrite Hnx in Hs, Hn, Hc.
  apply transpose_shape in Hs, Hn, Hc. rewrite <- Hnx in Hs, Hn, Hc.
  cbn [bins_radial bins_azimuthal intensity_2d sum_signal_2d sum_normalization_2d
       sum_count_2d error_2d sum_variance_2d].
  split; [rewrite bin_centers_2d_length, Hpr; lia |].
  split; [rewrite bin_centers_2d_length, Hpa; lia |].
  split; [apply setitem_mask_2d_shape; [now apply zip_with_shape | now apply mask_empty_shape] |].
  do 3 (split; [assumption |]).
  intros M HM.
  destruct Hv as [[_ ->] | [_ (v & xv & yv & Hvar & ->)]]; cbn [option_map] in HM.
  - destruct HM as [HM | HM]; discriminate HM.
  - apply histogram2d_shape in Hvar. cbn [fst snd] in Hvar. destruct Hvar as (_ & _ & Hvar & _).
    fold nx ny in Hvar. rewrite Hnx in Hvar. apply transpose_shape in Hvar.
    rewrite <- Hnx in Hvar.
    destruct HM as [HM | HM]; injection HM as <-; [| exact Hvar].
    apply setitem_mask_2d_shape; [| now apply mask_empty_shape].
    apply zip_with_shape; [now apply map_map_shape | exact Hn].
Qed.

(** X5: a returned 2D result is indexed by the azimuthal bin first: with
    [nx = max(1, npt[0])] radial and [ny = max(1, npt[1])] azimuthal bins,
    there are [nx] radial and [ny] azimuthal bin centers, and the intensity,
    the sums and the error matrices that are present have [ny] rows of [nx]
    entries. *)
Theorem histogram2d_engine_shapes
        (radial azimuthal : list (list F)) (npt : Z * Z) (prep : list (PixelSample F))
        (dummy empty : option F) (error_model : ErrorModel)
        (radial_range azimuth_range : option (F * F)) (r : Integrate2dtpl F)
        (Hr : histogram2d_engine radial azimuthal npt prep dummy empty error_model
                                 radial_range azimuth_range = Ok r) :
  let nx := Z.to_nat (Z.max 1 (fst npt)) in
  let ny := Z.to_nat (Z.max 1 (snd npt)) in
  length (bins_radial r) = nx /\ length (bins_azimuthal r) = ny /\
  shape ny nx (intensity_2d r) /\ shape ny nx (sum_signal_2d r) /\
  shape ny nx (sum_normalization_2d r) /\ shape ny nx (sum_count_2d r) /\
  forall M, error_2d r = Some M \/ sum_variance_2d r = Some M -> shape ny nx M.
Proof. exact (result_shapes_2d _ _ _ _ _ _ _ _ _ Hr). Qed.

End ShapeTheorems.

Lemma histogram1d_engine_shapes_witness :
  exists r,
    histogram1d_engine [[1%float; 3%float]] 2 [px 5 5 1 1; px 7 7 1 1] None None POISSON None
    = Ok r /\
    length (positions r) = 2%nat /\ length (intensity r) = 2%nat.
Proof.
  assert (Hr : exists r,
             histogram1d_engine [[1%float; 3%float]] 2 [px 5 5 1 1; px 7 7 1 1] None None
                                POISSON None = Ok r)
    by (eexists; vm_compute; reflexivity).
  destruct Hr as [r Hr]. exists r. split; [exact Hr |].
  destruct (histogram1d_engine_shapes _ _ _ _ _ _ _ Hr) as (_ & Hp & Hi & _).
  split; assumption.
Defined.

Lemma histogram2d_engine_shapes_witness :
  exists r,
    histogram2d_engine [[1%float; 3%float]] [[1%float; 3%float]] (3, 0)%Z
                       [px 5 4 1 1; px 7 9 1 1] None None NO None None = Ok r /\
    shape 1 3 (intensity_2d r).
Proof.
  assert (Hr : exists r,
             histogram2d_engine [[1%float; 3%float]] [[1%float; 3%float]] (3, 0)%Z
                                [px 5 4 1 1; px 7 9 1 1] None None NO None None = Ok r)
    by (eexists; vm_compute; reflexivity).
  destruct Hr as [r Hr]. exists r. split; [exact Hr |].
  destruct (histogram2d_engine_shapes _ _ _ _ _ _ _ _ _ Hr) as (_ & _ & Hi & _).
  exact Hi.
Defined.

(** ** The values of the bins and of the cells *)

Section Cells.
Context {F : Type} `{Scalar F}.

Lemma nth_zip_with {A B C : Type} (f : A -> B -> C) (a : list A) (b : list B) (i : nat)
      (da : A) (db : B) (dc : C) :
  (i < length a)%nat -> (i < length b)%nat ->
  nth i (zip_with f a b) dc = f (nth i a da) (nth i b db).
Proof.
  revert b i; induction a as [|x a IH]; intros [|y b] [|i]; cbn; intros Ha Hb;
    try lia; [reflexivity |].
  apply IH; lia.
Qed.

Lemma shape_row {A : Type} (M : list (list A)) (rows cols i : nat) :
  shape rows cols M -> (i < rows)%nat -> length (nth i M []) = cols.
Proof.
  intros [Hl Hr] Hi. rewrite Forall_forall in Hr. apply Hr, nth_In. lia.
Qed.

(** [H.T[j][i] = H[i][j]]. *)
Lemma item_2d_transpose (M : list (list F)) (rows cols i j : nat) :
  shape (S rows) cols M -> (i < S rows)%nat -> (j < cols)%nat ->
  item_2d (transpose M) j i = item_2d M i j.
Proof.
  intros HM Hi Hj. pose proof (shape_row HM Hi) as Hrow. destruct HM as [Hl Hr].
  unfold item_2d, transpose.
  destruct M as [|row M]; [discriminate Hl |]. cbn [hd].
  pose proof (Forall_inv Hr) as Hrow0. cbn beta in Hrow0. rewrite Hrow0.
  rewrite (nth_indep _ [] (map (fun r => nth 0 r (fof_Z 0)) (row :: M)))
    by (rewrite length_map, length_seq; exact Hj).
  rewrite (map_nth (fun j => map (fun r => nth j r (fof_Z 0)) (row :: M))), seq_nth by exact Hj.
  cbn [Nat.add].
  rewrite (nth_indep _ fnan (nth j [] (fof_Z 0))) by (rewrite length_map; lia).
  rewrite (map_nth (fun r => nth j r (fof_Z 0))).
  apply nth_indep. rewrite Hrow. exact Hj.
Qed.

Lemma item_2d_zip_with (f : F -> F -> F) (M N : list (list F)) (rows cols i j : nat) :
  shape rows cols M -> shape rows cols N -> (i < rows)%nat -> (j < cols)%nat ->
  item_2d (zip_with (zip_with f) M N) i j = f (item_2d M i j) (item_2d N i j).
Proof.
  intros HM HN Hi Hj. unfold item_2d.
  rewrite (nth_zip_with _ M N [] [] []) by (destruct HM, HN; lia).
  apply nth_zip_with.
  - now rewrite (shape_row HM Hi).
  - now rewrite (shape_row HN Hi).
Qed.

Lemma item_2d_map (f : F -> F) (M : list (list F)) (rows cols i j : nat) :
  shape rows cols M -> (i < rows)%nat -> (j < cols)%nat ->
  item_2d (map (map f) M) i j = f (item_2d M i j).
Proof.
  intros HM Hi Hj. unfold item_2d.
  rewrite (nth_indep _ [] (map f [])) by (rewrite length_map; destruct HM; lia).
  rewrite (map_nth (map f)).
  rewrite (nth_indep _ fnan (f fnan)) by (rewrite length_map, (shape_row HM Hi); exact Hj).
  apply map_nth.
Qed.

Lemma item_2d_setitem_mask (M : list (list F)) (value : option F) (C : list (list F))
      (rows cols i j : nat) :
  shape rows cols M -> shape rows cols C -> (i < rows)%nat -> (j < cols)%nat ->
  item_2d (setitem_mask_2d M (map mask_empty C) value) i j =
  if (item_2d C i j == fof_Z 0)%F then np.of_object value else item_2d M i j.
Proof.
  intros HM HC Hi Hj. unfold item_2d, setitem_mask_2d.
  rewrite (nth_zip_with _ M (map mask_empty C) [] [] [])
    by (rewrite ?length_map; destruct HM, HC; lia).
  rewrite (nth_indep (map mask_empty C) [] (mask_empty [])) by (rewrite length_map; destruct HC; lia).
  rewrite (map_nth mask_empty).
  pose proof (shape_row HM Hi) as HrM. pose proof (shape_row HC Hi) as HrC.
  unfold np.setitem_mask.
  rewrite (nth_zip_with _ _ _ fnan false fnan)
    by (rewrite ?mask_empty_length; lia).
  rewrite nth_mask_empty by lia. reflexivity.
Qed.

End Cells.

(** ** Error models in the 2D engine *)

Section ErrorModels2D.
Context {F : Type} `{Scalar F}.

(** C7: the 2D engine rejects no error model: with a truthy one,
    [AZIMUTHAL] included, it fails exactly when it fails without error model
    and with the same exception; when it returns, the variance has been
    binned over the grid and the error matrix is
    [sqrt(sum_variance) / sum_normalization], overwritten in the empty
    cells: every cell [[j][i]] of [sum_variance] is the cell [[i][j]] of
    numpy's histogram of the variance, and every cell of the error holds the
    fill value when its count is zero and the quotient otherwise.  Without
    error model both fields are [None]. *)
Theorem histogram2d_accepts_every_error_model
        (radial azimuthal : list (list F)) (npt : Z * Z) (prep : list (PixelSample F))
        (dummy empty : option F) (error_model : ErrorModel)
        (radial_range azimuth_range : option (F * F))
        (Hmodel : truthy error_model = true) :
  let call := fun model =>
    histogram2d_engine radial azimuthal npt prep dummy empty model
                       radial_range azimuth_range in
  let nx := Z.to_nat (Z.max 1 (fst npt)) in
  let ny := Z.to_nat (Z.max 1 (snd npt)) in
  let fill := match dummy, empty with
              | Some d, _ => d
              | None, Some e => e
              | None, None => fnan
              end in
  (forall e, call error_model = Raise e <-> call NO = Raise e) /\
  (forall r0, call NO = Ok r0 -> error_2d r0 = None /\ sum_variance_2d r0 = None) /\
  (forall r, call error_model = Ok r ->
     exists v xv yv,
       np.histogram2d (ravel radial) (ravel azimuthal)
                      (Z.max 1 (fst npt), Z.max 1 (snd npt))
                      (map variance prep) (radial_range, azimuth_range)
       = Ok (v, xv, yv) /\
       sum_variance_2d r = Some (transpose v) /\
       error_2d r =
       Some (setitem_mask_2d
               (divide_2d (map (map fsqrt) (transpose v)) (sum_normalization_2d r))
               (map mask_empty (sum_count_2d r)) (empty_fill dummy empty)) /\
       exists V E,
         sum_variance_2d r = Some V /\ error_2d r = Some E /\
         shape ny nx V /\ shape ny nx E /\
         forall i j, (i < nx)%nat -> (j < ny)%nat ->
           item_2d V j i = item_2d v i j /\
           item_2d E j i =
           (if (item_2d (sum_count_2d r) j i == fof_Z 0)%F then fill
            else (fsqrt (item_2d V j i) / item_2d (sum_normalization_2d r) j i)%F)).
Proof.
  intros call nx ny fill. split; [| split].
  - intros e. unfold call, histogram2d_engine. rewrite Hmodel. cbn [truthy].
    destruct (assert (length prep =? length (ravel radial))%nat);
      [cbn [bind] | reflexivity].
    destruct (assert (length prep =? length (ravel azimuthal))%nat);
      [cbn [bind] | reflexivity].
    pose proof (histogram2d_weights (ravel radial) (ravel azimuthal)
                  (Z.max 1 (fst npt), Z.max 1 (snd npt))
                  (map signal prep) (map variance prep)
                  (radial_range, azimuth_range)) as Hw.
    rewrite !length_map in Hw. specialize (Hw eq_refl).
    destruct (np.histogram2d _ _ _ (map signal prep) _) as [[[hs xs] ys]|];
      [cbn [bind] | reflexivity].
    destruct (np.histogram2d _ _ _ (map normalization prep) _) as [[[hn xn] yn]|];
      [cbn [bind] | reflexivity].
    destruct (np.histogram2d _ _ _ (map count prep) _) as [[[hc pr] pa]|];
      [cbn [bind] | reflexivity].
    destruct (np.histogram2d _ _ _ (map variance prep) _) as [[[v xv] yv]|];
      [cbn [bind] | destruct Hw].
    split; discriminate.
  - intros r0 Hr0. apply histogram2d_engine_Ok in Hr0. cbv zeta in Hr0.
    destruct Hr0 as (hs & xs & ys & hn & xn & yn & hc & pr & pa & hv
                     & _ & _ & _ & _ & _ & Hv & ->).
    destruct Hv as [[_ ->] | [Htr _]]; [split; reflexivity | discriminate Htr].
  - intros r Hr.
    assert (Hfill : np.of_object (empty_fill dummy empty) = fill)
      by (unfold fill; destruct dummy, empty; reflexivity).
    pose proof (result_shapes_2d _ _ _ _ _ _ _ _ _ Hr) as Hshapes. cbv zeta in Hshapes.
    fold nx ny in Hshapes. destruct Hshapes as (_ & _ & _ & _ & Hn & Hc & Hopt).
    apply histogram2d_engine_Ok in Hr. cbv zeta in Hr.
    destruct Hr as (hs & xs & ys & hn & xn & yn & hc & pr & pa & hv
                    & _ & _ & _ & _ & _ & Hv & ->).
    destruct Hv as [[Htr _] | [_ (v & xv & yv & Hvar & ->)]]; [congruence |].
    cbn [sum_variance_2d error_2d sum_normalization_2d sum_count_2d option_map] in *.
    exists v, xv, yv. do 3 (split; [first [exact Hvar | reflexivity] |]).
    assert (HV : shape ny nx (transpose v)) by (apply Hopt; now right).
    assert (HD : shape ny nx (divide_2d (map (map fsqrt) (transpose v)) (transpose hn)))
      by (apply zip_with_shape; [now apply map_map_shape | exact Hn]).
    eexists. eexists. split; [reflexivity |]. split; [reflexivity |].
    split; [exact HV |].
    split; [apply setitem_mask_2d_shape; [exact HD | now apply mask_empty_shape] |].
    intros i j Hi Hj. split.
    + apply histogram2d_shape in Hvar. cbn [fst snd] in Hvar.
      destruct Hvar as (_ & _ & Hvs & _). fold nx ny in Hvs.
      assert (Hnx : exists n, nx = S n) by (exists (Nat.pred nx); unfold nx; lia).
      destruct Hnx as [n Hnx].
      assert (Hvs' : shape (S n) ny v) by (rewrite <- Hnx; exact Hvs).
      assert (Hi' : (i < S n)%nat) by (rewrite <- Hnx; exact Hi).
      exact (item_2d_transpose Hvs' Hi' Hj).
    + rewrite (item_2d_setitem_mask _ HD Hc Hj Hi), Hfill.
      unfold divide_2d.
      rewrite (item_2d_zip_with fdiv (map_map_shape fsqrt HV) Hn Hj Hi).
      rewrite (item_2d_map fsqrt HV Hj Hi). reflexivity.
Qed.

End ErrorModels2D.

Lemma histogram2d_azimuthal_witness :
  exists r,
    histogram2d_engine [[1%float; 3%float]] [[1%float; 3%float]] (2, 2)%Z
                       [px 5 4 2 1; px 7 9 1 1] (Some 7%float) None AZIMUTHAL None None
    = Ok r /\
    sum_variance_2d r = Some [[4%float; 0%float]; [0%float; 9%float]] /\
    exists E,
      error_2d r = Some E /\
      item_2d E 0 0 = 1%float /\ item_2d E 1 1 = 3%float /\ item_2d E 0 1 = 7%float.
Proof.
  assert (Hr : exists r,
             histogram2d_engine [[1%float; 3%float]] [[1%float; 3%float]] (2, 2)%Z
                                [px 5 4 2 1; px 7 9 1 1] (Some 7%float) None AZIMUTHAL
                                None None = Ok r)
    by (eexists; vm_compute; reflexivity).
  destruct Hr as [r Hr]. exists r. split; [exact Hr |].
  destruct (histogram2d_accepts_every_error_model
              [[1%float; 3%float]] [[1%float; 3%float]] (2, 2)%Z
              [px 5 4 2 1; px 7 9 1 1] (Some 7%float) None AZIMUTHAL None None eq_refl)
    as (_ & _ & Hok).
  destruct (Hok r Hr) as (v & xv & yv & Hv & Hsv & _ & V & E & HV & HE & _ & _ & Hcell).
  vm_compute in Hv. injection Hv as <- _ _.
  split; [exact Hsv |].
  exists E. split; [exact HE |].
  destruct (Hcell 0%nat 0%nat ltac:(vm_compute; lia) ltac:(vm_compute; lia)) as [_ H00].
  destruct (Hcell 1%nat 1%nat ltac:(vm_compute; lia) ltac:(vm_compute; lia)) as [_ H11].
  destruct (Hcell 1%nat 0%nat ltac:(vm_compute; lia) ltac:(vm_compute; lia)) as [_ H01].
  rewrite H00, H11, H01.
  vm_compute in Hr. injection Hr as <-.
  vm_compute in HV. injection HV as <-.
  vm_compute. repeat split.
Defined.

Section CellTheorems.
Context {F : Type} `{Scalar F}.

(** X6: the value that fills the empty bins, and the final value of every
    bin of a 1D result: a bin whose count is zero holds the fill value in
    the intensity and in the errors, every other bin holds the quotient of
    the sums.  The fill value is [dummy] when it is given, else [empty] when
    it is given, else NaN. *)
Theorem histogram1d_engine_bins
        (radial : list (list F)) (npt : Z) (prep : list (PixelSample F))
        (dummy empty : option F) (error_model : ErrorModel)
        (radial_range : option (F * F)) (r : Integrate1dtpl F) (i : nat)
        (Hr : histogram1d_engine radial npt prep dummy empty error_model radial_range = Ok r)
        (Hi : (i < Z.to_nat npt)%nat) :
  let fill := match dummy, empty with
              | Some d, _ => d
              | None, Some e => e
              | None, None => fnan
              end in
  let is_empty := (item (sum_count r) i == fof_Z 0)%F in
  item (intensity r) i =
  (if is_empty then fill else (item (sum_signal r) i / item (sum_normalization r) i)%F) /\
  forall s e v n2,
    std r = Some s -> sem r = Some e ->
    sum_variance r = Some v -> sum_normalization_sq r = Some n2 ->
    item s i = (if is_empty then fill else fsqrt (item v i / item n2 i)%F) /\
    item e i = (if is_empty then fill else (fsqrt (item v i) / item (sum_normalization r) i)%F).
Proof.
  intros fill is_empty.
  assert (Hfill : np.of_object (empty_fill dummy empty) = fill)
    by (unfold fill; destruct dummy, empty; reflexivity).
  unfold is_empty. clearbody fill. clear is_empty.
  apply histogram1d_engine_Ok in Hr.
  destruct Hr as (range & hs & es & hn & en & hc & position & hv
                  & _ & _ & Hs & Hn & Hc & _ & Hv & ->).
  apply histogram_length in Hs, Hn, Hc.
  cbn [intensity sum_count sum_signal sum_normalization std sem sum_variance
       sum_normalization_sq].
  split.
  - rewrite item_setitem_mask, nth_mask_empty, item_zip_with, Hfill;
      rewrite ?mask_empty_length, ?zip_with_length; try lia.
    reflexivity.
  - intros s e v n2 Hstd Hsem Hvar Hn2.
    destruct Hv as [[_ ->] | [_ (v' & ev & n2' & en2 & Hv' & Hn2' & ->)]];
      [discriminate Hstd |].
    cbn [option_map fst snd] in Hstd, Hsem, Hvar, Hn2.
    injection Hstd as <-. injection Hsem as <-. injection Hvar as <-. injection Hn2 as <-.
    apply histogram_length in Hv', Hn2'.
    split.
    + rewrite item_setitem_mask, nth_mask_empty, item_map, item_zip_with, Hfill;
        rewrite ?mask_empty_length, ?length_map, ?zip_with_length; try lia.
      reflexivity.
    + rewrite item_setitem_mask, nth_mask_empty, item_zip_with, item_map, Hfill;
        rewrite ?mask_empty_length, ?zip_with_length, ?length_map; try lia.
      reflexivity.
Qed.

(** X7: the sums of a 2D result are numpy's histograms transposed: the cell
    [[j][i]] of the result is the cell [[i][j]] of [numpy.histogram2d], with
    [i] the radial and [j] the azimuthal bin. *)
Theorem histogram2d_engine_transposed
        (radial azimuthal : list (list F)) (npt : Z * Z) (prep : list (PixelSample F))
        (dummy empty : option F) (error_model : ErrorModel)
        (radial_range azimuth_range : option (F * F)) (r : Integrate2dtpl F)
        (Hr : histogram2d_engine radial azimuthal npt prep dummy empty error_model
                                 radial_range azimuth_range = Ok r) :
  let bins := (Z.max 1 (fst npt), Z.max 1 (snd npt)) in
  let histogram2d := fun weights =>
    np.histogram2d (ravel radial) (ravel azimuthal) bins weights
                   (radial_range, azimuth_range) in
  exists hs hn hc xe ye,
    histogram2d (map signal prep) = Ok (hs, xe, ye) /\
    histogram2d (map normalization prep) = Ok (hn, xe, ye) /\
    histogram2d (map count prep) = Ok (hc, xe, ye) /\
    forall i j, (i < Z.to_nat (fst bins))%nat -> (j < Z.to_nat (snd bins))%nat ->
      item_2d (sum_signal_2d r) j i = item_2d hs i j /\
      item_2d (sum_normalization_2d r) j i = item_2d hn i j /\
      item_2d (sum_count_2d r) j i = item_2d hc i j.
Proof.
  intros bins histogram2d. apply histogram2d_engine_Ok in Hr. cbv zeta in Hr.
  destruct Hr as (hs & xs & ys & hn & xn & yn & hc & pr & pa & hv
                  & Hlr & Hla & Hs & Hn & Hc & _ & ->).
  fold bins in Hs, Hn, Hc.
  assert (Hw : length (map signal prep) = length (map count prep))
    by now rewrite !length_map.
  assert (Hw' : length (map normalization prep) = length (map count prep))
    by now rewrite !length_map.
  pose proof (histogram2d_weights (ravel radial) (ravel azimuthal) bins
                (map signal prep) (map count prep) (radial_range, azimuth_range) Hw) as Es.
  pose proof (histogram2d_weights (ravel radial) (ravel azimuthal) bins
                (map normalization prep) (map count prep) (radial_range, azimuth_range) Hw')
    as En.
  rewrite Hs, Hc in Es. rewrite Hn, Hc in En. destruct Es as [-> ->], En as [-> ->].
  exists hs, hn, hc, pr, pa. unfold histogram2d.
  do 3 (split; [assumption |]).
  intros i j Hi Hj.
  apply histogram2d_shape in Hs, Hn, Hc.
  destruct Hs as (_ & _ & Hs & _), Hn as (_ & _ & Hn & _), Hc as (_ & _ & Hc & _).
  destruct (Z.to_nat (fst bins)) as [|n]; [lia |].
  cbn [sum_signal_2d sum_normalization_2d sum_count_2d].
  repeat split; eapply item_2d_transpose; eassumption.
Qed.

(** X8: the final value of every cell of a 2D result: a cell whose count is
    zero holds the fill value in the intensity and in the error, every other
    cell holds the quotient of the sums.  The fill value is [dummy] when it
    is given, else [empty] when it is given, else NaN. *)
Theorem histogram2d_engine_cells
        (radial azimuthal : list (list F)) (npt : Z * Z) (prep : list (PixelSample F))
        (dummy empty : option F) (error_model : ErrorModel)
        (radial_range azimuth_range : option (F * F)) (r : Integrate2dtpl F) (i j : nat)
        (Hr : histogram2d_engine radial azimuthal npt prep dummy empty error_model
                                 radial_range azimuth_range = Ok r)
        (Hi : (i < Z.to_nat (Z.max 1 (fst npt)))%nat)
        (Hj : (j < Z.to_nat (Z.max 1 (snd npt)))%nat) :
  let fill := match dummy, empty with
              | Some d, _ => d
              | None, Some e => e
              | None, None => fnan
              end in
  let is_empty := (item_2d (sum_count_2d r) j i == fof_Z 0)%F in
  item_2d (intensity_2d r) j i =
  (if is_empty then fill
   else (item_2d (sum_signal_2d r) j i / item_2d (sum_normalization_2d r) j i)%F) /\
  forall e v,
    error_2d r = Some e -> sum_variance_2d r = Some v ->
    item_2d e j i =
    (if is_empty then fill
     else (fsqrt (item_2d v j i) / item_2d (sum_normalization_2d r) j i)%F).
Proof.
  intros fill is_empty.
  assert (Hfill : np.of_object (empty_fill dummy empty) = fill)
    by (unfold fill; destruct dummy, empty; reflexivity).
  unfold is_empty. clearbody fill. clear is_empty.
  pose proof (result_shapes_2d _ _ _ _ _ _ _ _ _ Hr) as Hshapes.
  cbv zeta in Hshapes.
  destruct Hshapes as (_ & _ & _ & Hs & Hn & Hc & Hopt).
  apply histogram2d_engine_Ok in Hr. cbv zeta in Hr.
  destruct Hr as (hs & xs & ys & hn & xn & yn & hc & pr & pa & hv
                  & _ & _ & _ & _ & _ & Hv & ->).
  cbn [intensity_2d sum_count_2d sum_signal_2d sum_normalization_2d error_2d
       sum_variance_2d] in *.
  split.
  - rewrite (item_2d_setitem_mask _ (rows := Z.to_nat (Z.max 1 (snd npt)))
               (cols := Z.to_nat (Z.max 1 (fst npt)))), Hfill;
      try assumption; [| now apply zip_with_shape].
    unfold divide_2d. erewrite item_2d_zip_with; eauto.
  - intros e v He Hvar. subst hv. cbn [option_map] in He. injection He as <-.
    assert (Hvs : shape (Z.to_nat (Z.max 1 (snd npt))) (Z.to_nat (Z.max 1 (fst npt))) v)
      by (apply Hopt; now right).
    rewrite (item_2d_setitem_mask _ (rows := Z.to_nat (Z.max 1 (snd npt)))
               (cols := Z.to_nat (Z.max 1 (fst npt)))), Hfill;
      try assumption;
      [| apply zip_with_shape; [now apply map_map_shape | assumption]].
    unfold divide_2d.
    erewrite item_2d_zip_with; eauto; [| now apply map_map_shape].
    erewrite item_2d_map; eauto.
Qed.

End CellTheorems.

Lemma histogram1d_engine_bins_witness :
  exists r,
    histogram1d_engine [[0.25%float; 0.25%float]] 2 [px 10 4 1 1; px 20 5 1 1]
                       (Some 7%float) (Some 8%float) POISSON (Some (0%float, 1%float)) = Ok r /\
    item (intensity r) 0 = 15%float /\ item (intensity r) 1 = 7%float.
Proof.
  assert (Hr : exists r,
             histogram1d_engine [[0.25%float; 0.25%float]] 2 [px 10 4 1 1; px 20 5 1 1]
                                (Some 7%float) (Some 8%float) POISSON
                                (Some (0%float, 1%float)) = Ok r)
    by (eexists; vm_compute; reflexivity).
  destruct Hr as [r Hr]. exists r. split; [exact Hr |].
  destruct (histogram1d_engine_bins _ _ _ _ _ _ _ (i := 0) Hr ltac:(vm_compute; lia))
    as [H0 _].
  destruct (histogram1d_engine_bins _ _ _ _ _ _ _ (i := 1) Hr ltac:(vm_compute; lia))
    as [H1 _].
  cbv zeta in H0, H1. split.
  - rewrite H0. vm_compute in Hr. injection Hr as <-. vm_compute. reflexivity.
  - rewrite H1. vm_compute in Hr. injection Hr as <-. vm_compute. reflexivity.
Defined.

Lemma histogram2d_engine_transposed_witness :
  exists r,
    histogram2d_engine [[1%float; 3%float]] [[2%float; 2%float]] (2, 1)%Z
                       [px 5 4 1 1; px 7 9 1 1] None None NO None None = Ok r /\
    item_2d (sum_signal_2d r) 0 1 = 7%float.
Proof.
  assert (Hr : exists r,
             histogram2d_engine [[1%float; 3%float]] [[2%float; 2%float]] (2, 1)%Z
                                [px 5 4 1 1; px 7 9 1 1] None None NO None None = Ok r)
    by (eexists; vm_compute; reflexivity).
  destruct Hr as [r Hr]. exists r. split; [exact Hr |].
  destruct (histogram2d_engine_transposed _ _ _ _ _ _ _ _ _ Hr)
    as (hs & hn & hc & xe & ye & Hs & _ & _ & Hcell).
  destruct (Hcell 1%nat 0%nat) as (Hsig & _); [vm_compute; lia | vm_compute; lia |].
  rewrite Hsig. vm_compute in Hs. injection Hs as <- _ _. reflexivity.
Defined.

Lemma histogram2d_engine_cells_witness :
  exists r,
    histogram2d_engine [[1%float; 3%float]] [[2%float; 2%float]] (3, 1)%Z
                       [px 5 4 1 1; px 7 9 1 1] (Some 7%float) None NO None None = Ok r /\
    item_2d (intensity_2d r) 0 1 = 7%float.
Proof.
  assert (Hr : exists r,
             histogram2d_engine [[1%float; 3%float]] [[2%float; 2%float]] (3, 1)%Z
                                [px 5 4 1 1; px 7 9 1 1] (Some 7%float) None NO None None = Ok r)
    by (eexists; vm_compute; reflexivity).
  destruct Hr as [r Hr]. exists r. split; [exact Hr |].
  destruct (histogram2d_engine_cells _ _ _ _ _ _ _ _ _ (i := 1) (j := 0) Hr
              ltac:(vm_compute; lia) ltac:(vm_compute; lia)) as [Hcell _].
  cbv zeta in Hcell. rewrite Hcell.
  vm_compute in Hr. injection Hr as <-. vm_compute. reflexivity.
Defined.

(** ** An image without pixels *)

Section EmptyImage.
Context {F : Type} `{Scalar F}.

Lemma setitem_mask_all (a : list F) (value : option F) :
  np.setitem_mask a (repeat true (length a)) value = repeat (np.of_object value) (length a).
Proof.
  unfold np.setitem_mask. induction a as [|x a IH]; [reflexivity |].
  cbn [length repeat zip_with]. now rewrite IH.
Qed.

Lemma zip_with_repeat (f : F -> F -> F) (x y : F) (n : nat) :
  zip_with f (repeat x n) (repeat y n) = repeat (f x y) n.
Proof. induction n as [|n IH]; [reflexivity |]. cbn. now rewrite IH. Qed.

Lemma transpose_zeros (rows cols : nat) :
  transpose (repeat (repeat (fof_Z 0) cols) (S rows)) = repeat (repeat (fof_Z 0) (S rows)) cols.
Proof.
  unfold transpose. cbn [repeat hd]. rewrite repeat_length.
  change (repeat (fof_Z 0) cols :: repeat (repeat (fof_Z 0) cols) rows)
    with (repeat (repeat (fof_Z 0) cols) (S rows)).
  assert (Hrow : forall j, (j < cols)%nat ->
            map (fun row => nth j row (fof_Z 0)) (repeat (repeat (fof_Z 0) cols) (S rows))
            = repeat (fof_Z 0) (S rows)).
  { intros j Hj. rewrite map_repeat. now rewrite nth_repeat_lt. }
  rewrite (map_ext_in _ (fun _ => repeat (fof_Z 0) (S rows))).
  - clear Hrow. generalize 0%nat. induction cols as [|c IH]; intros s; [reflexivity |].
    cbn [seq map repeat]. now rewrite IH.
  - intros j Hj. apply in_seq in Hj. apply Hrow. lia.
Qed.


Lemma histogram_nil (bins : Z) (range : option (F * F)) (h e : list F) :
  np.histogram [] bins [] range = Ok (h, e) -> h = repeat (fof_Z 0) (Z.to_nat bins).
Proof.
  unfold np.histogram. cbn [length Nat.eqb negb]. intros Hh.
  destruct (bins <? 1)%Z; [discriminate Hh |].
  destruct (np.get_outer_edges [] range) as [[lo hi]|]; [| discriminate Hh].
  cbn in Hh. now injection Hh as <- _.
Qed.

Lemma histogram2d_nil (bins : Z * Z) :
  (1 <= fst bins)%Z -> (1 <= snd bins)%Z ->
  exists xe ye,
    np.histogram2d [] [] bins [] (None, None)
    = Ok (repeat (repeat (fof_Z 0) (Z.to_nat (snd bins))) (Z.to_nat (fst bins)), xe, ye).
Proof.
  intros Hx Hy. unfold np.histogram2d. cbn [length Nat.eqb andb negb fst snd].
  destruct (fst bins <? 1)%Z eqn:Ex; [apply Z.ltb_lt in Ex; lia |].
  destruct (snd bins <? 1)%Z eqn:Ey; [apply Z.ltb_lt in Ey; lia |].
  cbn [orb np.get_outer_edges bind].
  destruct (fof_Z 0 == fof_Z 1)%F; cbn; eauto.
Qed.

End EmptyImage.

Section EmptyImageTheorems.
Context {F : Type} `{Scalar F}.

(** X9: the 1D engine on an image without pixels: with no range the call
    raises [ValueError], there being no minimum; with a valid range it returns
    [npt] empty bins, all sums being zero and every intensity the fill
    value. *)
Theorem histogram1d_engine_no_pixel
        (radial : list (list F)) (npt : Z) (dummy empty : option F) (error_model : ErrorModel)
        (Hnil : ravel radial = []) :
  histogram1d_engine radial npt [] dummy empty error_model None = Raise ValueError /\
  forall range,
    valid_range range = true -> (1 <= npt)%Z -> error_model <> AZIMUTHAL ->
    (fof_Z 0 == fof_Z 0)%F = true ->
    exists r,
      histogram1d_engine radial npt [] dummy empty error_model (Some range) = Ok r /\
      let zeros := repeat (fof_Z 0) (Z.to_nat npt) in
      sum_signal r = zeros /\ sum_normalization r = zeros /\ sum_count r = zeros /\
      intensity r = repeat (np.of_object (empty_fill dummy empty)) (Z.to_nat npt).
Proof.
  split.
  - unfold histogram1d_engine. rewrite Hnil. reflexivity.
  - intros range Hvalid Hnpt Hmodel H00.
    pose proof (histogram1d_engine_cases radial npt [] dummy empty error_model (Some range))
      as Hc. cbv zeta in Hc. rewrite Hnil in Hc. cbn [length Nat.eqb negb] in Hc.
    unfold binnable in Hc. cbn [resolve_radial_range] in Hc. rewrite Hvalid in Hc.
    apply Z.leb_le in Hnpt. rewrite Hnpt in Hc. cbn [andb negb] in Hc.
    destruct (is_azimuthal error_model) eqn:Haz;
      [destruct error_model; try discriminate Haz; now destruct Hmodel |].
    destruct Hc as [r Hr]. exists r. split; [exact Hr |].
    apply histogram1d_engine_Ok in Hr.
    destruct Hr as (range' & hs & es & hn & en & hc & position & hv
                    & _ & Hrange & Hs & Hn & Hc & _ & _ & ->).
    rewrite Hnil in Hs, Hn, Hc. cbn [map] in Hs, Hn, Hc.
    apply histogram_nil in Hs, Hn, Hc. subst hs hn hc.
    cbn [sum_signal sum_normalization sum_count intensity]. cbv zeta.
    do 3 (split; [reflexivity |]).
    unfold mask_empty. rewrite map_repeat, H00, zip_with_repeat.
    rewrite <- (repeat_length (fof_Z 0 / fof_Z 0)%F (Z.to_nat npt)) at 2.
    rewrite setitem_mask_all. now rewrite repeat_length.
Qed.

(** X10: the 2D engine on an image without pixels and with no range
    returns: numpy bins an empty array over [[0, 1]], and every cell of the
    sums is zero. *)
Theorem histogram2d_engine_no_pixel
        (radial azimuthal : list (list F)) (npt : Z * Z) (dummy empty : option F)
        (error_model : ErrorModel)
        (Hradial : ravel radial = []) (Hazimuthal : ravel azimuthal = []) :
  exists r,
    histogram2d_engine radial azimuthal npt [] dummy empty error_model None None = Ok r /\
    let zeros := repeat (repeat (fof_Z 0) (Z.to_nat (Z.max 1 (fst npt))))
                        (Z.to_nat (Z.max 1 (snd npt))) in
    sum_signal_2d r = zeros /\ sum_normalization_2d r = zeros /\ sum_count_2d r = zeros /\
    sum_variance_2d r = if truthy error_model then Some zeros else None.
Proof.
  unfold histogram2d_engine. rewrite Hradial, Hazimuthal. cbn [length Nat.eqb assert bind map].
  destruct (histogram2d_nil (Z.max 1 (fst npt), Z.max 1 (snd npt))
              (Z.le_max_l 1 (fst npt)) (Z.le_max_l 1 (snd npt))) as (xe & ye & Hh).
  cbn [fst snd] in Hh. rewrite Hh. cbn [bind].
  assert (Hnx : exists n, Z.to_nat (Z.max 1 (fst npt)) = S n)
    by (exists (Nat.pred (Z.to_nat (Z.max 1 (fst npt)))); lia).
  destruct Hnx as [n Hnx]. rewrite Hnx in *. rewrite transpose_zeros.
  destruct (truthy error_model); cbn [bind]; eexists; (split; [reflexivity |]);
    cbn [sum_signal_2d sum_normalization_2d sum_count_2d sum_variance_2d]; repeat split.
Qed.

End EmptyImageTheorems.

Lemma histogram1d_engine_no_pixel_witness :
  histogram1d_engine ([[]; []] : list (list float)) 2 [] None (Some 5%float) NO None
  = Raise ValueError /\
  exists r,
    histogram1d_engine ([[]; []] : list (list float)) 2 [] None (Some 5%float) NO
                       (Some (0%float, 1%float)) = Ok r /\
    intensity r = [5%float; 5%float].
Proof.
  destruct (histogram1d_engine_no_pixel ([[]; []] : list (list float)) 2 None (Some 5%float)
              NO Logic.eq_refl) as [Hnone Hsome].
  split; [exact Hnone |].
  destruct (Hsome (0%float, 1%float)) as (r & Hr & _ & _ & _ & Hi);
    [reflexivity | lia | discriminate | reflexivity |].
  exists r. split; [exact Hr | exact Hi].
Defined.

Lemma histogram2d_engine_no_pixel_witness :
  exists r,
    histogram2d_engine ([] : list (list float)) [] (2, 0)%Z [] None None POISSON None None
    = Ok r /\
    sum_count_2d r = [[0%float; 0%float]].
Proof.
  destruct (histogram2d_engine_no_pixel ([] : list (list float)) [] (2, 0)%Z None None POISSON
              Logic.eq_refl Logic.eq_refl) as (r & Hr & _ & _ & Hc & _).
  exists r. split; [exact Hr | exact Hc].
Defined.

(** ** Coordinates that are not finite *)

Section NonFinite.
Variable qsqrt : Q -> Q.
#[local] Hint Extern 0 (Scalar xq) => exact (exact_reading qsqrt) : typeclass_instances.

Lemma mul_EPS32_finite (x : xq) :
  Exact.isfinite (x * EPS32)%F = true -> Exact.isfinite x = true.
Proof. destruct x as [q|s|]; [reflexivity | | discriminate]. destruct s; discriminate. Qed.

(** X11: with no range, a radial array that holds a NaN or an infinite
    coordinate makes the 1D call raise [ValueError] (the shapes agreeing):
    the minimum or the maximum is not finite, and numpy refuses the range. *)
Theorem nonfinite_coordinate_raises
        (radial : list (list xq)) (npt : Z) (prep : list (PixelSample xq))
        (dummy empty : option xq) (error_model : ErrorModel) (x : xq)
        (Hshape : length prep = length (ravel radial))
        (Hin : In x (ravel radial))
        (Hx : Exact.isfinite x = false) :
  histogram1d_engine radial npt prep dummy empty error_model None = Raise ValueError.
Proof.
  pose proof (histogram1d_engine_cases radial npt prep dummy empty error_model None) as Hc.
  cbv zeta in Hc. rewrite Hshape, Nat.eqb_refl in Hc. cbn [negb] in Hc.
  destruct (binnable (ravel radial) npt None) eqn:Hb; [exfalso | exact Hc].
  unfold binnable, resolve_radial_range in Hb.
  destruct (np.amin (ravel radial)) as [lo'|] eqn:Hmin; [| discriminate Hb].
  destruct (np.amax (ravel radial)) as [mx'|] eqn:Hmax; [| discriminate Hb].
  cbn [bind] in Hb. apply andb_prop in Hb. destruct Hb as [_ Hv].
  unfold valid_range in Hv. cbn [fst snd] in Hv.
  apply andb_prop in Hv. destruct Hv as [Hv Hhi]. apply andb_prop in Hv. destruct Hv as [_ Hlo].
  apply mul_EPS32_finite in Hhi.
  destruct lo' as [lo| |]; try discriminate Hlo.
  destruct mx' as [mx| |]; try discriminate Hhi.
  destruct (@amin_amax_bounds qsqrt _ _ _ Hmin Hmax x Hin) as (q & -> & _). discriminate Hx.
Qed.

End NonFinite.

Section NonFiniteExamples.
#[local] Hint Extern 0 (Scalar xq) => exact (exact_reading Exact.root) : typeclass_instances.

Lemma nonfinite_coordinate_raises_witness :
  histogram1d_engine [[Fin 1; NaN; Fin 3]] 2 [qx 5 0 1 1; qx 6 0 1 1; qx 7 0 1 1]
                     None None NO None = Raise ValueError.
Proof.
  apply (@nonfinite_coordinate_raises Exact.root [[Fin 1; NaN; Fin 3]] 2
           [qx 5 0 1 1; qx 6 0 1 1; qx 7 0 1 1] None None NO NaN).
  - reflexivity.
  - cbn. tauto.
  - reflexivity.
Defined.

End NonFiniteExamples.

(** ** The contents of a bin, in exact arithmetic *)

Section BinSums.
Variable qsqrt : Q -> Q.
#[local] Hint Extern 0 (Scalar xq) => exact (exact_reading qsqrt) : typeclass_instances.

Lemma item_add_at_other (j k : nat) (w : xq) (acc : list xq) :
  j <> k -> item (add_at j w acc) k = item acc k.
Proof.
  revert j k; induction acc as [|x acc IH]; intros j k Hjk; [destruct j; reflexivity |].
  destruct j as [|j], k as [|k]; cbn [add_at]; try reflexivity; try lia.
  apply IH. lia.
Qed.

(** Every bin of [bincount] gains the weights of its index. *)
Lemma bincount_item (indices : list (option nat)) (weights acc : list xq) (k : nat) :
  (k < length acc)%nat ->
  item (np.bincount indices weights acc) k
  =x= Exact.add (item acc k) (total (indexed k indices weights)).
Proof.
  revert weights acc; induction indices as [|i indices IH]; intros weights acc Hk.
  - cbn. apply ExactFacts.eq_sym, ExactFacts.add_0_r.
  - destruct weights as [|w weights].
    + destruct i; cbn; apply ExactFacts.eq_sym, ExactFacts.add_0_r.
    + destruct i as [j|]; cbn [np.bincount]; [| apply IH; exact Hk].
      eapply ExactFacts.eq_trans; [apply IH; now rewrite add_at_length |].
      unfold indexed. cbn [combine filter fst].
      destruct (Nat.eqb_spec j k) as [-> | Hjk].
      * rewrite item_add_at by exact Hk. cbn [map snd].
        change (total (w :: ?l)) with (Exact.add w (total l)).
        apply ExactFacts.add_assoc.
      * rewrite item_add_at_other by exact Hjk. apply ExactFacts.eq_refl.
Qed.


(** [searchsorted_right] returns [k] exactly when the first [k] entries are
    [<= v] and the next one, if any, is not. *)
Lemma searchsorted_right_spec (a : list xq) (v : xq) (k : nat) :
  np.searchsorted_right a v = k <->
  (k <= length a)%nat /\
  (forall j, (j < k)%nat -> (item a j <=? v)%F = true) /\
  ((k < length a)%nat -> (item a k <=? v)%F = false).
Proof.
  revert k; induction a as [|e a IH]; intros k; cbn [np.searchsorted_right length].
  - split.
    + intros <-. repeat split; intros; lia.
    + intros (Hk & _). lia.
  - destruct (e <=? v)%F eqn:E.
    + destruct k as [|k].
      * split; [discriminate |]. intros (_ & _ & Hk). specialize (Hk ltac:(lia)).
        change (item (e :: a) 0) with e in Hk. congruence.
      * split.
        -- intros [= Hs]. apply IH in Hs. destruct Hs as (Hle & Hall & Hnext).
           split; [lia |]. split.
           ++ intros [|j] Hj; [exact E |]. apply Hall. lia.
           ++ intros Hk. apply Hnext. lia.
        -- intros (Hle & Hall & Hnext). f_equal. apply IH.
           split; [lia |]. split.
           ++ intros j Hj. apply (Hall (S j)). lia.
           ++ intros Hk. apply Hnext. lia.
    + split.
      * intros <-. split; [lia |]. split; [intros j Hj; lia |]. intros _. exact E.
      * intros (_ & Hall & _). destruct k as [|k]; [reflexivity |].
        specialize (Hall 0%nat ltac:(lia)). change (item (e :: a) 0) with e in Hall.
        congruence.
Qed.

(** The bin edges over a proper interval: finite, from [lo] to [hi], and
    strictly increasing. *)
Lemma edges_increase (lo hi : Q) (n : nat) :
  (lo < hi)%Q ->
  exists e : nat -> Q,
    (forall j, (j <= S n)%nat -> item (np.linspace (Fin lo) (Fin hi) (S (S n))) j = Fin (e j)) /\
    (e 0%nat == lo)%Q /\ (e (S n) == hi)%Q /\
    (forall i j, (i < j)%nat -> (j <= S n)%nat -> (e i < e j)%Q).
Proof.
  intros Hlt.
  pose (e := fun j => match item (np.linspace (Fin lo) (Fin hi) (S (S n))) j with
                      | Fin q => q
                      | _ => 0%Q
                      end).
  pose proof (inject_nat_pos n) as Hpos.
  assert (Hw : (0 < (hi - lo) / inject_Z (Z.of_nat (S n)))%Q)
    by (apply Qlt_shift_div_l; lra).
  assert (He : forall j, (j <= S n)%nat ->
            item (np.linspace (Fin lo) (Fin hi) (S (S n))) j = Fin (e j) /\
            (e j == lo + inject_Z (Z.of_nat j) * ((hi - lo) / inject_Z (Z.of_nat (S n))))%Q).
  { intros j Hj. destruct (@linspace_item qsqrt lo hi n j Hlt Hj) as (q & Hq & Eq).
    unfold e. rewrite Hq. split; [reflexivity | exact Eq]. }
  exists e. split; [intros j Hj; apply He, Hj |]. split; [| split].
  - destruct (He 0%nat) as [_ E0]; [lia |]. rewrite E0.
    change (inject_Z (Z.of_nat 0)) with 0%Q. ring.
  - destruct (He (S n)) as [_ En]; [lia |]. rewrite En. field. lra.
  - intros i j Hij Hj.
    destruct (He i) as [_ Ei]; [lia |]. destruct (He j) as [_ Ej]; [lia |].
    rewrite Ei, Ej.
    assert (Hlt' : (inject_Z (Z.of_nat i) < inject_Z (Z.of_nat j))%Q)
      by (rewrite <- Zlt_Qlt; lia).
    assert (Hmul : (inject_Z (Z.of_nat i) * ((hi - lo) / inject_Z (Z.of_nat (S n)))
                    < inject_Z (Z.of_nat j) * ((hi - lo) / inject_Z (Z.of_nat (S n))))%Q)
      by (apply Qmult_lt_compat_r; assumption).
    lra.
Qed.


(** numpy's bin of a value is the bin whose interval holds the value. *)
Lemma bin_index_in_bin (lo hi : Q) (n k : nat) (v : xq) :
  (lo < hi)%Q -> (k < S n)%nat ->
  let edges := np.linspace (Fin lo) (Fin hi) (S (S n)) in
  match np.bin_index (Fin lo) (Fin hi) edges v with
  | Some j => (j =? k)%nat
  | None => false
  end = in_bin edges k v.
Proof.
  intros Hlt Hk edges.
  destruct (edges_increase n Hlt) as (e & He & E0 & En & Hinc). fold edges in He.
  assert (Hlen : length (removelast (tl edges)) = n).
  { unfold edges. rewrite removelast_tl_length, linspace_length. lia. }
  assert (Hint : forall j, (j < n)%nat -> item (removelast (tl edges)) j = Fin (e (S j))).
  { intros j Hj. rewrite item_removelast, item_tl
      by (unfold edges; rewrite tl_length, linspace_length; lia).
    apply He. lia. }
  unfold in_bin, np.bin_index.
  rewrite (He k), (He (S k)) by lia.
  replace (length edges) with (S (S n)) by (unfold edges; now rewrite linspace_length).
  change (S (S k) =? S (S n))%nat with (k =? n)%nat.
  cbn [fleb fltb exact_reading exact].
  destruct v as [q|s|].
  2:{ destruct s; cbn [Exact.leb Exact.ltb negb andb]; [reflexivity |].
      destruct (k =? n)%nat; reflexivity. }
  2:{ reflexivity. }
  cbn [Exact.leb Exact.ltb].
  apply eq_true_iff_eq. split.
  - destruct (Qle_bool lo q && Qle_bool q hi) eqn:Hin; [| discriminate].
    apply andb_prop in Hin. destruct Hin as [Hlo Hhi]. apply Qle_bool_iff in Hlo, Hhi.
    intros Hs. apply Nat.eqb_eq in Hs. apply searchsorted_right_spec in Hs.
    rewrite Hlen in Hs. destruct Hs as (_ & Hall & Hnext).
    apply andb_true_intro. split.
    + apply Qle_bool_iff. destruct k as [|k]; [lra |].
      specialize (Hall k ltac:(lia)). rewrite Hint in Hall by lia.
      cbn [fleb exact_reading exact Exact.leb] in Hall. now apply Qle_bool_iff in Hall.
    + destruct (Nat.eqb_spec k n) as [-> | Hkn].
      * apply Qle_bool_iff. lra.
      * specialize (Hnext ltac:(lia)). rewrite Hint in Hnext by lia.
        cbn [fleb exact_reading exact Exact.leb] in Hnext. now rewrite Hnext.
  - intros Hb. apply andb_prop in Hb. destruct Hb as [Hek Hnext].
    apply Qle_bool_iff in Hek.
    assert (Hlo : (lo <= e k)%Q).
    { destruct k as [|k]; [lra |]. pose proof (Hinc 0%nat (S k) ltac:(lia) ltac:(lia)). lra. }
    assert (Hhi : (q <= hi)%Q).
    { destruct (Nat.eqb_spec k n) as [-> | Hkn].
      - apply Qle_bool_iff in Hnext. lra.
      - apply negb_true_iff in Hnext.
        assert (Hq : ~ (e (S k) <= q)%Q) by (rewrite <- Qle_bool_iff; congruence).
        assert (He' : (e (S k) <= hi)%Q).
        { destruct (Nat.eq_dec (S k) (S n)) as [Heq | Hne]; [rewrite Heq; lra |].
          pose proof (Hinc (S k) (S n) ltac:(lia) ltac:(lia)). lra. }
        lra. }
    assert (Hin : Qle_bool lo q && Qle_bool q hi = true).
    { apply andb_true_intro. split; apply Qle_bool_iff; lra. }
    rewrite Hin. apply Nat.eqb_eq. apply searchsorted_right_spec. rewrite Hlen.
    split; [lia |]. split.
    + intros j Hj. rewrite Hint by lia. cbn [fleb exact_reading exact Exact.leb].
      apply Qle_bool_iff.
      destruct (Nat.eq_dec (S j) k) as [<- | Hne]; [exact Hek |].
      pose proof (Hinc (S j) k ltac:(lia) ltac:(lia)). lra.
    + intros Hkn. rewrite Hint by lia. cbn [fleb exact_reading exact Exact.leb].
      destruct (Nat.eqb_spec k n) as [-> | _]; [lia |].
      now apply negb_true_iff in Hnext.
Qed.

Lemma indexed_bin_weights (lo hi : Q) (n k : nat) (radial weights : list xq) :
  (lo < hi)%Q -> (k < S n)%nat ->
  let edges := np.linspace (Fin lo) (Fin hi) (S (S n)) in
  indexed k (map (np.bin_index (Fin lo) (Fin hi) edges) radial) weights
  = bin_weights edges k radial weights.
Proof.
  intros Hlt Hk edges. unfold indexed, bin_weights.
  revert weights; induction radial as [|v radial IH]; intros [|w weights]; try reflexivity.
  cbn [map combine filter fst].
  pose proof (@bin_index_in_bin lo hi n k v Hlt Hk) as Hb. cbv zeta in Hb. fold edges in Hb.
  rewrite Hb. destruct (in_bin edges k v); cbn [map snd]; now rewrite IH.
Qed.


(** Every bin of a weighted histogram is the sum of the weights of the
    values in the interval of the bin. *)
Lemma histogram_bin (a : list xq) (bins : Z) (weights : list xq) (range : xq * xq)
      (h e : list xq) (lo hi : Q) (k : nat) :
  np.histogram a bins weights (Some range) = Ok (h, e) ->
  binned_interval range = (Fin lo, Fin hi) -> (lo < hi)%Q -> (k < Z.to_nat bins)%nat ->
  item h k
  =x= total (bin_weights (np.linspace (Fin lo) (Fin hi) (S (Z.to_nat bins))) k a weights).
Proof.
  intros Hh Hbin Hlt Hk.
  pose proof Hh as He. apply histogram_edges in He. destruct He as (_ & He & _).
  apply (@histogram_bins qsqrt) in Hh. destruct Hh as [_ ->].
  rewrite Hbin in *. cbn [fst snd] in *. subst e.
  destruct (Z.to_nat bins) as [|n] eqn:Hn; [lia |].
  eapply ExactFacts.eq_trans; [apply bincount_item; now rewrite repeat_length |].
  rewrite (@item_zeros qsqrt) by exact Hk.
  rewrite (@indexed_bin_weights lo hi n k a weights Hlt Hk).
  apply ExactFacts.add_0_l.
Qed.

(** X12: in exact arithmetic every bin of the sums of a 1D result is the
    sum over the pixels whose coordinate lies in the interval of the bin,
    [[e_k, e_k+1)] and [[e_k, e_k+1]] for the last bin, the edges being the
    [npt + 1] evenly spaced edges over the binned interval; pixels outside
    of every interval, or with a coordinate that is not finite, are in no
    bin. *)
Theorem bin_sums
        (radial : list (list xq)) (npt : Z) (prep : list (PixelSample xq))
        (dummy empty : option xq) (error_model : ErrorModel)
        (radial_range : option (xq * xq)) (r : Integrate1dtpl xq)
        (Hr : histogram1d_engine radial npt prep dummy empty error_model radial_range = Ok r) :
  exists range lo hi,
    resolve_radial_range (ravel radial) radial_range = Ok range /\
    binned_interval range = (Fin lo, Fin hi) /\ (lo < hi)%Q /\
    let edges := np.linspace (Fin lo) (Fin hi) (S (Z.to_nat npt)) in
    let sum_of := fun weights k => total (bin_weights edges k (ravel radial) weights) in
    forall k, (k < Z.to_nat npt)%nat ->
      item (sum_signal r) k =x= sum_of (map signal prep) k /\
      item (sum_normalization r) k =x= sum_of (map normalization prep) k /\
      item (sum_count r) k =x= sum_of (map count prep) k /\
      forall v n2,
        sum_variance r = Some v -> sum_normalization_sq r = Some n2 ->
        item v k =x= sum_of (map variance prep) k /\
        item n2 k =x= sum_of (map (fun p => (normalization p * normalization p)%F) prep) k.
Proof.
  apply histogram1d_engine_Ok in Hr.
  destruct Hr as (range & hs & es & hn & en & hc & position & hv
                  & _ & Hrange & Hs & Hn & Hc & _ & Hv & ->).
  pose proof Hc as Hedges. apply histogram_edges in Hedges.
  destruct Hedges as (_ & _ & Hord & Hlo & Hhi).
  destruct (@binned_interval_proper qsqrt range Hord Hlo Hhi) as (lo & hi & Hbin & Hlt).
  exists range, lo, hi. do 3 (split; [assumption |]).
  intros edges sum_of k Hk.
  cbn [sum_signal sum_normalization sum_count sum_variance sum_normalization_sq].
  split; [eapply histogram_bin; eassumption |].
  split; [eapply histogram_bin; eassumption |].
  split; [eapply histogram_bin; eassumption |].
  intros v n2 Hvar Hn2.
  destruct Hv as [[_ ->] | [_ (v' & ev & n2' & en2 & Hv' & Hn2' & ->)]];
    [discriminate Hvar |].
  cbn [option_map fst snd] in Hvar, Hn2. injection Hvar as <-. injection Hn2 as <-.
  split; eapply histogram_bin; eassumption.
Qed.

End BinSums.

Section BinSumsExamples.
#[local] Hint Extern 0 (Scalar xq) => exact (exact_reading Exact.root) : typeclass_instances.

Lemma bin_sums_witness :
  exists r,
    histogram1d_engine [[Fin (1 # 4); Fin (1 # 2); Fin 1; Fin 2]] 2
                       [qx 5 0 1 1; qx 7 0 1 1; qx 9 0 1 1; qx 11 0 1 1] None None NO
                       (Some (Fin 0, Fin 1)) = Ok r /\
    item (sum_signal r) 0 =x= Fin 5 /\ item (sum_signal r) 1 =x= Fin 16.
Proof.
  assert (Hr : exists r,
             histogram1d_engine [[Fin (1 # 4); Fin (1 # 2); Fin 1; Fin 2]] 2
                                [qx 5 0 1 1; qx 7 0 1 1; qx 9 0 1 1; qx 11 0 1 1] None None NO
                                (Some (Fin 0, Fin 1)) = Ok r)
    by (eexists; vm_compute; reflexivity).
  destruct Hr as [r Hr]. exists r. split; [exact Hr |].
  destruct (bin_sums Exact.root _ _ _ _ _ _ _ Hr) as (range & lo & hi & Hrange & Hbin & _ & Hsum).
  injection Hrange as <-. vm_compute in Hbin. injection Hbin as <- <-.
  cbv zeta in Hsum.
  destruct (Hsum 0%nat ltac:(vm_compute; lia)) as (H0 & _).
  destruct (Hsum 1%nat ltac:(vm_compute; lia)) as (H1 & _).
  split.
  - eapply ExactFacts.eq_trans; [exact H0 |]. vm_compute. reflexivity.
  - eapply ExactFacts.eq_trans; [exact H1 |]. vm_compute. reflexivity.
Defined.

End BinSumsExamples.

(** ** The bins that are reported empty, in exact arithmetic *)

Section EmptyBins.
Variable qsqrt : Q -> Q.
#[local] Hint Extern 0 (Scalar xq) => exact (exact_reading qsqrt) : typeclass_instances.

Lemma eqb_zero_iff (x : xq) : (x == fof_Z 0)%F = true <-> x =x= Fin 0.
Proof.
  destruct x as [q|s|]; cbn; [apply Qeq_bool_iff | |]; split; try discriminate; try contradiction.
Qed.

Lemma eq_eqb_zero (x y : xq) : x =x= y -> (x == fof_Z 0)%F = (y == fof_Z 0)%F.
Proof.
  intros Hxy. apply eq_true_iff_eq. rewrite !eqb_zero_iff. split; intros Hz.
  - eapply ExactFacts.eq_trans; [apply ExactFacts.eq_sym; exact Hxy | exact Hz].
  - eapply ExactFacts.eq_trans; [exact Hxy | exact Hz].
Qed.

(** A sum of weights that are not negative is zero exactly when every
    weight is. *)
Lemma total_nonneg (l : list xq) :
  Forall nonneg l ->
  nonneg (total l) /\ (total l =x= Fin 0 <-> Forall (fun w => w =x= Fin 0) l).
Proof.
  induction 1 as [|w l Hw Hl [IHn IHz]].
  - split; [change (0 <= 0)%Q; apply Qle_refl |].
    split; [constructor | intros _; change (0 == 0)%Q; reflexivity].
  - change (total (w :: l)) with (Exact.add w (total l)).
    destruct w as [c| |]; try contradiction. destruct (total l) as [t| |]; try contradiction.
    cbn in Hw, IHn, IHz |- *. split; [lra |]. split.
    + intros Hz. assert (Hc : (c == 0)%Q) by lra. assert (Ht : (t == 0)%Q) by lra.
      constructor; [exact Hc | now apply IHz].
    + intros Hall. inversion Hall as [|? ? Hc Hrest]; subst. cbn in Hc.
      apply IHz in Hrest. lra.
Qed.

Lemma bin_weights_In (edges : list xq) (k : nat) (radial weights : list xq) (w : xq) :
  In w (bin_weights edges k radial weights) -> In w weights.
Proof.
  unfold bin_weights. intros Hin. apply in_map_iff in Hin.
  destruct Hin as ([v w'] & <- & Hin). apply filter_In in Hin. destruct Hin as [Hin _].
  eapply in_combine_r; exact Hin.
Qed.

(** X13: with counts that are finite and not negative, a bin of a 1D
    result is reported empty, and overwritten with the fill value, exactly
    when every pixel in the interval of the bin has a zero count. *)
Theorem empty_bin_iff
        (radial : list (list xq)) (npt : Z) (prep : list (PixelSample xq))
        (dummy empty : option xq) (error_model : ErrorModel)
        (radial_range : option (xq * xq)) (r : Integrate1dtpl xq) (k : nat)
        (Hr : histogram1d_engine radial npt prep dummy empty error_model radial_range = Ok r)
        (Hcounts : Forall (fun p => nonneg (count p)) prep)
        (Hk : (k < Z.to_nat npt)%nat) :
  exists range lo hi,
    resolve_radial_range (ravel radial) radial_range = Ok range /\
    binned_interval range = (Fin lo, Fin hi) /\
    let edges := np.linspace (Fin lo) (Fin hi) (S (Z.to_nat npt)) in
    let counts := bin_weights edges k (ravel radial) (map count prep) in
    ((item (sum_count r) k == fof_Z 0)%F = true <-> Forall (fun c => c =x= Fin 0) counts) /\
    (Forall (fun c => c =x= Fin 0) counts ->
     item (intensity r) k = np.of_object (empty_fill dummy empty)) /\
    (~ Forall (fun c => c =x= Fin 0) counts ->
     item (intensity r) k = (item (sum_signal r) k / item (sum_normalization r) k)%F).
Proof.
  pose proof (intensity_1d _ _ _ _ _ _ _ Hr Hk) as Hint.
  apply histogram1d_engine_Ok in Hr.
  destruct Hr as (range & hs & es & hn & en & hc & position & hv
                  & _ & Hrange & _ & _ & Hc & _ & _ & ->).
  pose proof Hc as Hedges. apply histogram_edges in Hedges.
  destruct Hedges as (_ & _ & Hord & Hlo & Hhi).
  destruct (@binned_interval_proper qsqrt range Hord Hlo Hhi) as (lo & hi & Hbin & Hlt).
  exists range, lo, hi. do 2 (split; [assumption |]).
  intros edges counts. cbn [sum_count intensity sum_signal sum_normalization] in *.
  pose proof (@histogram_bin qsqrt _ _ _ _ _ _ lo hi k Hc Hbin Hlt Hk) as Hsum.
  fold edges counts in Hsum.
  assert (Hnn : Forall nonneg counts).
  { apply Forall_forall. intros c Hin. apply bin_weights_In in Hin.
    apply in_map_iff in Hin. destruct Hin as (p & <- & Hp).
    rewrite Forall_forall in Hcounts. now apply Hcounts. }
  destruct (total_nonneg Hnn) as [_ Hzero].
  assert (Hiff : (item hc k == fof_Z 0)%F = true <-> Forall (fun c => c =x= Fin 0) counts).
  { rewrite (eq_eqb_zero _ _ Hsum), eqb_zero_iff. exact Hzero. }
  split; [exact Hiff |]. split.
  - intros Hall. apply Hiff in Hall. now rewrite Hall in Hint.
  - intros Hnot. destruct (item hc k == fof_Z 0)%F eqn:E; [| exact Hint].
    exfalso. apply Hnot. now apply Hiff.
Qed.

End EmptyBins.

Section EmptyBinsExamples.
#[local] Hint Extern 0 (Scalar xq) => exact (exact_reading Exact.root) : typeclass_instances.

Lemma empty_bin_iff_witness :
  exists r,
    histogram1d_engine [[Fin (1 # 4); Fin (3 # 4)]] 2 [qx 5 0 1 0; qx 7 0 1 1]
                       (Some (Fin 9)) None NO (Some (Fin 0, Fin 1)) = Ok r /\
    item (intensity r) 0 = Fin 9.
Proof.
  assert (Hr : exists r,
             histogram1d_engine [[Fin (1 # 4); Fin (3 # 4)]] 2 [qx 5 0 1 0; qx 7 0 1 1]
                                (Some (Fin 9)) None NO (Some (Fin 0, Fin 1)) = Ok r)
    by (eexists; vm_compute; reflexivity).
  destruct Hr as [r Hr]. exists r. split; [exact Hr |].
  assert (Hcounts : Forall (fun p : PixelSample xq => nonneg (count p))
                           [qx 5 0 1 0; qx 7 0 1 1])
    by (repeat constructor; cbn; discriminate).
  destruct (@empty_bin_iff Exact.root _ _ _ _ _ _ _ _ 0%nat Hr Hcounts ltac:(vm_compute; lia))
    as (range & lo & hi & Hrange & Hbin & _ & Hfill & _).
  injection Hrange as <-. vm_compute in Hbin. injection Hbin as <- <-.
  cbv zeta in Hfill. apply Hfill. vm_compute. constructor; [reflexivity | constructor].
Defined.

End EmptyBinsExamples.

(** ** The contents of a cell, in exact arithmetic *)

Section CellSums.
Variable qsqrt : Q -> Q.
#[local] Hint Extern 0 (Scalar xq) => exact (exact_reading qsqrt) : typeclass_instances.

Lemma item_2d_add_at2 (a b : nat) (w : xq) (M : list (list xq)) (rows cols i j : nat) :
  shape rows cols M -> (i < rows)%nat -> (j < cols)%nat ->
  item_2d (add_at2 a b w M) i j =
  if (a =? i)%nat && (b =? j)%nat then Exact.add (item_2d M i j) w else item_2d M i j.
Proof.
  unfold item_2d. revert a i rows; induction M as [|row M IH]; intros a i rows HM Hi Hj.
  - destruct HM as [Hl _]. cbn in Hl. lia.
  - destruct HM as [Hl Hr]. cbn [length] in Hl.
    pose proof (Forall_inv Hr) as Hrow. cbn beta in Hrow.
    pose proof (Forall_inv_tail Hr) as Hrest.
    destruct a as [|a], i as [|i]; cbn [add_at2 nth Nat.eqb andb].
    + destruct (Nat.eqb_spec b j) as [-> | Hbj].
      * apply item_add_at. lia.
      * now apply item_add_at_other.
    + reflexivity.
    + reflexivity.
    + apply (IH a i (length M)); [split; [reflexivity | exact Hrest] | lia | exact Hj].
Qed.

(** Every cell of [bincount2] gains the weights of its pair of indices. *)
Lemma bincount2_item (ix iy : list (option nat)) (weights : list xq) (M : list (list xq))
      (rows cols i j : nat) :
  shape rows cols M -> (i < rows)%nat -> (j < cols)%nat ->
  item_2d (np.bincount2 ix iy weights M) i j
  =x= Exact.add (item_2d M i j) (total (indexed2 i j ix iy weights)).
Proof.
  revert iy weights M; induction ix as [|a ix IH]; intros iy weights M HM Hi Hj.
  - cbn. apply ExactFacts.eq_sym, ExactFacts.add_0_r.
  - destruct iy as [|b iy];
      [destruct a; cbn; apply ExactFacts.eq_sym, ExactFacts.add_0_r |].
    destruct weights as [|w weights];
      [destruct a, b; cbn; apply ExactFacts.eq_sym, ExactFacts.add_0_r |].
    unfold indexed2. cbn [combine filter fst snd].
    destruct a as [a|], b as [b|]; cbn [np.bincount2];
      try (apply IH; assumption).
    eapply ExactFacts.eq_trans; [apply IH; [now apply add_at2_shape | exact Hi | exact Hj] |].
    rewrite (item_2d_add_at2 a b w HM Hi Hj).
    destruct ((a =? i)%nat && (b =? j)%nat); cbn [map snd].
    + change (total (w :: ?l)) with (Exact.add w (total l)). apply ExactFacts.add_assoc.
    + apply ExactFacts.eq_refl.
Qed.


(** The outer edges that numpy finds are a proper interval of rationals. *)
Lemma get_outer_edges_proper (a : list xq) (range : option (xq * xq)) (x0 x1 : xq) :
  np.get_outer_edges a range = Ok (x0, x1) ->
  exists lo hi, x0 = Fin lo /\ x1 = Fin hi /\ (lo < hi)%Q.
Proof.
  intros Hedges.
  assert (Hbin : exists r, (x0, x1) = binned_interval r /\
                           (snd r <? fst r)%F = false /\
                           fisfinite (fst r) = true /\ fisfinite (snd r) = true).
  { destruct range as [r|].
    - exists r. now apply get_outer_edges_explicit in Hedges.
    - unfold np.get_outer_edges in Hedges. destruct a as [|v a].
      + exists (Fin 0, Fin 1). cbn in Hedges. injection Hedges as <- <-. repeat split.
      + destruct (np.amin (v :: a)) as [lo'|] eqn:Hmin; [| discriminate Hedges].
        destruct (np.amax (v :: a)) as [hi'|] eqn:Hmax; [| discriminate Hedges].
        cbn [bind] in Hedges.
        destruct (fisfinite lo' && fisfinite hi') eqn:Hfin; [| discriminate Hedges].
        cbn [negb bind] in Hedges. apply andb_prop in Hfin. destruct Hfin as [Hlo Hhi].
        exists (lo', hi'). unfold binned_interval. cbn [fst snd].
        split; [destruct (lo' == hi')%F; now injection Hedges as <- <- |].
        split; [| split; assumption].
        destruct lo' as [lo| |]; try discriminate Hlo.
        destruct hi' as [hi| |]; try discriminate Hhi.
        pose proof (@amin_le_amax qsqrt _ _ _ Hmin Hmax) as Hle.
        cbn. apply negb_false_iff, Qle_bool_iff. exact Hle. }
  destruct Hbin as (r & Hr & Hord & Hlo & Hhi).
  destruct (@binned_interval_proper qsqrt r Hord Hlo Hhi) as (lo & hi & Hb & Hlt).
  rewrite Hb in Hr. injection Hr as -> ->. eauto.
Qed.

Lemma histogram2d_structure (x y : list xq) (bins : Z * Z) (weights : list xq)
      (range : option (xq * xq) * option (xq * xq)) (M : list (list xq)) (xe ye : list xq) :
  np.histogram2d x y bins weights range = Ok (M, xe, ye) ->
  exists x0 x1 y0 y1,
    np.get_outer_edges x (fst range) = Ok (x0, x1) /\
    np.get_outer_edges y (snd range) = Ok (y0, y1) /\
    xe = np.linspace x0 x1 (S (Z.to_nat (fst bins))) /\
    ye = np.linspace y0 y1 (S (Z.to_nat (snd bins))) /\
    M = np.bincount2 (map (np.bin_index x0 x1 xe) x) (map (np.bin_index y0 y1 ye) y) weights
                     (repeat (repeat (fof_Z 0) (Z.to_nat (snd bins))) (Z.to_nat (fst bins))) /\
    (1 <= fst bins)%Z /\ (1 <= snd bins)%Z.
Proof.
  unfold np.histogram2d. intros Hh.
  destruct (negb _); [discriminate Hh |].
  destruct (fst bins <? 1)%Z eqn:Ex; [discriminate Hh |].
  destruct (snd bins <? 1)%Z eqn:Ey; [discriminate Hh |].
  destruct (np.get_outer_edges x (fst range)) as [[x0 x1]|]; [| discriminate Hh].
  destruct (np.get_outer_edges y (snd range)) as [[y0 y1]|]; [| discriminate Hh].
  exists x0, x1, y0, y1. apply Z.ltb_ge in Ex, Ey.
  assert (Heq : Ok (M, xe, ye) =
                Ok (np.bincount2
                      (map (np.bin_index x0 x1 (np.linspace x0 x1 (S (Z.to_nat (fst bins))))) x)
                      (map (np.bin_index y0 y1 (np.linspace y0 y1 (S (Z.to_nat (snd bins))))) y)
                      weights
                      (repeat (repeat (fof_Z 0) (Z.to_nat (snd bins))) (Z.to_nat (fst bins))),
                    np.linspace x0 x1 (S (Z.to_nat (fst bins))),
                    np.linspace y0 y1 (S (Z.to_nat (snd bins)))))
    by (rewrite <- Hh; reflexivity).
  injection Heq as -> -> ->. repeat split; assumption.
Qed.

Lemma indexed2_cell_weights (x0 x1 y0 y1 : Q) (n m i j : nat) (x y weights : list xq) :
  (x0 < x1)%Q -> (y0 < y1)%Q -> (i < S n)%nat -> (j < S m)%nat ->
  let xe := np.linspace (Fin x0) (Fin x1) (S (S n)) in
  let ye := np.linspace (Fin y0) (Fin y1) (S (S m)) in
  indexed2 i j (map (np.bin_index (Fin x0) (Fin x1) xe) x)
           (map (np.bin_index (Fin y0) (Fin y1) ye) y) weights
  = cell_weights xe ye i j x y weights.
Proof.
  intros Hx Hy Hi Hj xe ye. unfold indexed2, cell_weights.
  revert y weights; induction x as [|u x IH]; intros [|v y] [|w weights]; try reflexivity.
  cbn [map combine filter fst snd].
  pose proof (@bin_index_in_bin qsqrt x0 x1 n i u Hx Hi) as Bx.
  pose proof (@bin_index_in_bin qsqrt y0 y1 m j v Hy Hj) as By.
  cbv zeta in Bx, By. fold xe in Bx. fold ye in By.
  rewrite <- Bx, <- By.
  destruct (np.bin_index (Fin x0) (Fin x1) xe u) as [a|],
           (np.bin_index (Fin y0) (Fin y1) ye v) as [b|];
    cbn [andb]; rewrite ?andb_false_r;
    try (destruct (_ && _)); cbn [map snd]; now rewrite IH.
Qed.


(** Every cell of a weighted 2D histogram is the sum of the weights of the
    samples in the rectangle of the cell. *)
Lemma histogram2d_cell (x y : list xq) (bins : Z * Z) (weights : list xq)
      (range : option (xq * xq) * option (xq * xq)) (M : list (list xq)) (xe ye : list xq)
      (x0 x1 y0 y1 : Q) (i j : nat) :
  np.histogram2d x y bins weights range = Ok (M, xe, ye) ->
  np.get_outer_edges x (fst range) = Ok (Fin x0, Fin x1) ->
  np.get_outer_edges y (snd range) = Ok (Fin y0, Fin y1) ->
  (x0 < x1)%Q -> (y0 < y1)%Q ->
  (i < Z.to_nat (fst bins))%nat -> (j < Z.to_nat (snd bins))%nat ->
  item_2d M i j
  =x= total (cell_weights (np.linspace (Fin x0) (Fin x1) (S (Z.to_nat (fst bins))))
                          (np.linspace (Fin y0) (Fin y1) (S (Z.to_nat (snd bins))))
                          i j x y weights).
Proof.
  intros Hh Hx Hy Hxlt Hylt Hi Hj. apply histogram2d_structure in Hh.
  destruct Hh as (x0' & x1' & y0' & y1' & Hx' & Hy' & -> & -> & -> & _).
  rewrite Hx in Hx'. rewrite Hy in Hy'. injection Hx' as <- <-. injection Hy' as <- <-.
  destruct (Z.to_nat (fst bins)) as [|n]; [lia |].
  destruct (Z.to_nat (snd bins)) as [|m]; [lia |].
  eapply ExactFacts.eq_trans;
    [apply (@bincount2_item _ _ _ _ (S n) (S m)); [apply zeros_shape | exact Hi | exact Hj] |].
  rewrite (@indexed2_cell_weights x0 x1 y0 y1 n m i j x y weights Hxlt Hylt Hi Hj).
  assert (Hz : item_2d (repeat (repeat (fof_Z 0) (S m)) (S n)) i j = Fin 0).
  { unfold item_2d. rewrite nth_repeat_lt by exact Hi. now rewrite nth_repeat_lt. }
  rewrite Hz. apply ExactFacts.add_0_l.
Qed.

(** X15: in exact arithmetic every cell [[j][i]] of the sums of a 2D result
    is the sum over the pixels whose radial coordinate lies in the radial
    bin [i] and whose azimuthal coordinate lies in the azimuthal bin [j]; the
    bins are half-open, the last one of each axis closed, over the outer edges
    that numpy finds for the axis. *)
Theorem cell_sums
        (radial azimuthal : list (list xq)) (npt : Z * Z) (prep : list (PixelSample xq))
        (dummy empty : option xq) (error_model : ErrorModel)
        (radial_range azimuth_range : option (xq * xq)) (r : Integrate2dtpl xq)
        (Hr : histogram2d_engine radial azimuthal npt prep dummy empty error_model
                                 radial_range azimuth_range = Ok r) :
  let nx := Z.to_nat (Z.max 1 (fst npt)) in
  let ny := Z.to_nat (Z.max 1 (snd npt)) in
  exists x0 x1 y0 y1,
    np.get_outer_edges (ravel radial) radial_range = Ok (Fin x0, Fin x1) /\
    np.get_outer_edges (ravel azimuthal) azimuth_range = Ok (Fin y0, Fin y1) /\
    (x0 < x1)%Q /\ (y0 < y1)%Q /\
    let xedges := np.linspace (Fin x0) (Fin x1) (S nx) in
    let yedges := np.linspace (Fin y0) (Fin y1) (S ny) in
    let sum_of := fun weights i j =>
      total (cell_weights xedges yedges i j (ravel radial) (ravel azimuthal) weights) in
    forall i j, (i < nx)%nat -> (j < ny)%nat ->
      item_2d (sum_signal_2d r) j i =x= sum_of (map signal prep) i j /\
      item_2d (sum_normalization_2d r) j i =x= sum_of (map normalization prep) i j /\
      item_2d (sum_count_2d r) j i =x= sum_of (map count prep) i j /\
      forall v, sum_variance_2d r = Some v ->
                item_2d v j i =x= sum_of (map variance prep) i j.
Proof.
  intros nx ny. apply histogram2d_engine_Ok in Hr. cbv zeta in Hr.
  destruct Hr as (hs & xs & ys & hn & xn & yn & hc & pr & pa & hv
                  & _ & _ & Hs & Hn & Hc & Hv & ->).
  pose proof Hs as Hst. apply histogram2d_structure in Hst. cbn [fst snd] in Hst.
  destruct Hst as (x0' & x1' & y0' & y1' & Hx & Hy & _).
  destruct (get_outer_edges_proper _ _ Hx) as (x0 & x1 & -> & -> & Hxlt).
  destruct (get_outer_edges_proper _ _ Hy) as (y0 & y1 & -> & -> & Hylt).
  exists x0, x1, y0, y1. do 4 (split; [assumption |]).
  intros xedges yedges sum_of i j Hi Hj.
  assert (Hcell : forall w M xe ye,
            np.histogram2d (ravel radial) (ravel azimuthal)
                           (Z.max 1 (fst npt), Z.max 1 (snd npt)) w
                           (radial_range, azimuth_range) = Ok (M, xe, ye) ->
            item_2d (transpose M) j i =x= sum_of w i j).
  { intros w M xe ye Hh.
    pose proof (@histogram2d_shape _ _ _ _ _ _ _ _ _ _ Hh) as Hshape. cbn [fst snd] in Hshape.
    destruct Hshape as (_ & _ & Hshape & _). fold nx ny in Hshape.
    assert (Hnx : exists n, nx = S n) by (exists (Nat.pred nx); lia).
    destruct Hnx as [n Hnx].
    assert (Hshape' : shape (S n) ny M) by (rewrite <- Hnx; exact Hshape).
    assert (Hi' : (i < S n)%nat) by (rewrite <- Hnx; exact Hi).
    rewrite (item_2d_transpose Hshape' Hi' Hj).
    exact (@histogram2d_cell _ _ _ _ _ _ _ _ x0 x1 y0 y1 i j Hh Hx Hy Hxlt Hylt Hi Hj). }
  cbn [sum_signal_2d sum_normalization_2d sum_count_2d sum_variance_2d].
  split; [eapply Hcell; eassumption |].
  split; [eapply Hcell; eassumption |].
  split; [eapply Hcell; eassumption |].
  intros v Hvar.
  destruct Hv as [[_ ->] | [_ (v' & xv & yv & Hv' & ->)]]; [discriminate Hvar |].
  injection Hvar as <-. eapply Hcell; eassumption.
Qed.

End CellSums.

Section CellSumsExamples.
#[local] Hint Extern 0 (Scalar xq) => exact (exact_reading Exact.root) : typeclass_instances.

Lemma cell_sums_witness :
  exists r,
    histogram2d_engine [[Fin 1; Fin 3; Fin 3]] [[Fin 0; Fin 0; Fin 2]] (2, 2)%Z
                       [qx 5 0 1 1; qx 7 0 1 1; qx 9 0 1 1] None None NO None None = Ok r /\
    item_2d (sum_signal_2d r) 0 1 =x= Fin 7 /\ item_2d (sum_signal_2d r) 1 1 =x= Fin 9.
Proof.
  assert (Hr : exists r,
             histogram2d_engine [[Fin 1; Fin 3; Fin 3]] [[Fin 0; Fin 0; Fin 2]] (2, 2)%Z
                                [qx 5 0 1 1; qx 7 0 1 1; qx 9 0 1 1] None None NO None None
             = Ok r)
    by (eexists; vm_compute; reflexivity).
  destruct Hr as [r Hr]. exists r. split; [exact Hr |].
  destruct (cell_sums Exact.root _ _ _ _ _ _ _ _ _ Hr)
    as (x0 & x1 & y0 & y1 & Hx & Hy & _ & _ & Hsum).
  vm_compute in Hx. injection Hx as <- <-. vm_compute in Hy. injection Hy as <- <-.
  cbv zeta in Hsum.
  destruct (Hsum 1%nat 0%nat ltac:(vm_compute; lia) ltac:(vm_compute; lia)) as (H10 & _).
  destruct (Hsum 1%nat 1%nat ltac:(vm_compute; lia) ltac:(vm_compute; lia)) as (H11 & _).
  split.
  - eapply ExactFacts.eq_trans; [exact H10 |]. vm_compute. reflexivity.
  - eapply ExactFacts.eq_trans; [exact H11 |]. vm_compute. reflexivity.
Defined.

End CellSumsExamples.
(** ** One azimuthal bin: the 2D engine against the 1D engine *)

Section OneAzimuthalBin.
Variable qsqrt : Q -> Q.
#[local] Hint Extern 0 (Scalar xq) => exact (exact_reading qsqrt) : typeclass_instances.

Lemma Qeq_bool_compat (a a' b b' : Q) :
  (a == a')%Q -> (b == b')%Q -> Qeq_bool a b = Qeq_bool a' b'.
Proof.
  intros Ha Hb. apply eq_true_iff_eq. rewrite !Qeq_bool_iff. now rewrite Ha, Hb.
Qed.

Lemma Qle_bool_compat (a a' b b' : Q) :
  (a == a')%Q -> (b == b')%Q -> Qle_bool a b = Qle_bool a' b'.
Proof.
  intros Ha Hb. apply eq_true_iff_eq. rewrite !Qle_bool_iff. now rewrite Ha, Hb.
Qed.

(** Division respects the equality of exact values. *)
Lemma div_compat (a a' b b' : xq) :
  a =x= a' -> b =x= b' -> Exact.div a b =x= Exact.div a' b'.
Proof.
  destruct a as [a|s|], a' as [a'|s'|], b as [b|t|], b' as [b'|t'|]; cbn [Exact.eq];
    intros Ha Hb; try contradiction; try exact I; subst; cbn [Exact.div Exact.eq];
    try reflexivity.
  - rewrite (Qeq_bool_compat Hb (Qeq_refl 0)), (Qeq_bool_compat Ha (Qeq_refl 0)).
    unfold Exact.Qneg. rewrite (Qle_bool_compat (Qeq_refl 0) Ha).
    destruct (Qeq_bool b' 0) eqn:Eb.
    + destruct (Qeq_bool a' 0); cbn; [exact I | reflexivity].
    + cbn. apply Qeq_bool_neq in Eb. now rewrite Ha, Hb.
  - unfold Exact.Qneg. now rewrite (Qle_bool_compat (Qeq_refl 0) Hb).
Qed.


(** With one bin every value between the outer edges is in the bin. *)
Lemma in_bin_single (y0 y1 : Q) (v : xq) :
  (y0 < y1)%Q ->
  (Fin y0 <=? v)%F && (v <=? Fin y1)%F = true ->
  in_bin (np.linspace (Fin y0) (Fin y1) 2) 0 v = true.
Proof.
  intros Hlt Hin. apply andb_prop in Hin. destruct Hin as [Hlo Hhi].
  destruct (@linspace_item qsqrt y0 y1 0 0 Hlt) as (q0 & Hq0 & Eq0); [lia |].
  destruct (@linspace_item qsqrt y0 y1 0 1 Hlt) as (q1 & Hq1 & Eq1); [lia |].
  unfold in_bin. rewrite linspace_length. cbn [Nat.eqb]. rewrite Hq0, Hq1.
  change (inject_Z (Z.of_nat 0)) with 0%Q in Eq0.
  change (inject_Z (Z.of_nat 1)) with 1%Q in Eq1.
  assert (E0 : (q0 == y0)%Q) by (rewrite Eq0; ring).
  assert (E1 : (q1 == y1)%Q) by (rewrite Eq1; field).
  destruct v as [q|s|]; cbn [fleb exact_reading exact Exact.leb] in *.
  - rewrite (Qle_bool_compat E0 (Qeq_refl q)), (Qle_bool_compat (Qeq_refl q) E1).
    now rewrite Hlo, Hhi.
  - now rewrite Hlo, Hhi.
  - discriminate Hlo.
Qed.

Lemma cell_weights_single (xe : list xq) (y0 y1 : Q) (i : nat) (x y weights : list xq) :
  (y0 < y1)%Q -> length y = length x ->
  Forall (fun v => (Fin y0 <=? v)%F && (v <=? Fin y1)%F = true) y ->
  cell_weights xe (np.linspace (Fin y0) (Fin y1) 2) i 0 x y weights
  = bin_weights xe i x weights.
Proof.
  intros Hlt. unfold cell_weights, bin_weights.
  revert y weights; induction x as [|u x IH]; intros [|v y] [|w weights] Hlen Hin;
    try reflexivity; try discriminate Hlen.
  cbn [length] in Hlen. injection Hlen as Hlen.
  inversion Hin as [|? ? Hv Hrest]; subst.
  cbn [combine filter fst snd]. rewrite (in_bin_single v Hlt Hv), andb_true_r.
  destruct (in_bin xe i u); cbn [map snd]; now rewrite IH.
Qed.

(** The intensity of a cell of a 2D result. *)
Lemma intensity_2d_cell (radial azimuthal : list (list xq)) (npt : Z * Z)
      (prep : list (PixelSample xq)) (dummy empty : option xq) (error_model : ErrorModel)
      (radial_range azimuth_range : option (xq * xq)) (r : Integrate2dtpl xq) (i j : nat) :
  histogram2d_engine radial azimuthal npt prep dummy empty error_model
                     radial_range azimuth_range = Ok r ->
  (i < Z.to_nat (Z.max 1 (fst npt)))%nat -> (j < Z.to_nat (Z.max 1 (snd npt)))%nat ->
  item_2d (intensity_2d r) j i =
  if (item_2d (sum_count_2d r) j i == fof_Z 0)%F
  then np.of_object (empty_fill dummy empty)
  else (item_2d (sum_signal_2d r) j i / item_2d (sum_normalization_2d r) j i)%F.
Proof.
  intros Hr Hi Hj.
  pose proof (result_shapes_2d _ _ _ _ _ _ _ _ _ Hr) as Hshapes. cbv zeta in Hshapes.
  destruct Hshapes as (_ & _ & _ & Hs & Hn & Hc & _).
  apply histogram2d_engine_Ok in Hr. cbv zeta in Hr.
  destruct Hr as (hs & xs & ys & hn & xn & yn & hc & pr & pa & hv
                  & _ & _ & _ & _ & _ & _ & ->).
  cbn [intensity_2d sum_count_2d sum_signal_2d sum_normalization_2d] in *.
  unfold divide_2d.
  rewrite (item_2d_setitem_mask _ (zip_with_shape fdiv Hs Hn) Hc Hj Hi).
  now rewrite (item_2d_zip_with fdiv Hs Hn Hj Hi).
Qed.


(** X14: in exact arithmetic, with an explicit radial range and a single
    azimuthal bin that holds every azimuthal coordinate, the 2D engine
    computes the 1D result: its matrices have one row, and every cell of
    its sums and of its intensity equals the bin of the sums and of the
    intensity of the 1D engine. *)
Theorem single_azimuthal_bin
        (radial azimuthal : list (list xq)) (npt na : Z) (prep : list (PixelSample xq))
        (dummy empty : option xq) (error_model : ErrorModel)
        (radial_range : xq * xq) (azimuth_range : option (xq * xq))
        (r1 : Integrate1dtpl xq) (r2 : Integrate2dtpl xq) (y0 y1 : xq)
        (H1 : histogram1d_engine radial npt prep dummy empty error_model (Some radial_range)
              = Ok r1)
        (H2 : histogram2d_engine radial azimuthal (npt, na) prep dummy empty error_model
                                 (Some radial_range) azimuth_range = Ok r2)
        (Hna : (na <= 1)%Z)
        (Hedges : np.get_outer_edges (ravel azimuthal) azimuth_range = Ok (y0, y1))
        (Hin : Forall (fun v => (y0 <=? v)%F && (v <=? y1)%F = true) (ravel azimuthal)) :
  shape 1 (Z.to_nat npt) (sum_signal_2d r2) /\
  shape 1 (Z.to_nat npt) (intensity_2d r2) /\
  forall i, (i < Z.to_nat npt)%nat ->
    item_2d (sum_signal_2d r2) 0 i =x= item (sum_signal r1) i /\
    item_2d (sum_normalization_2d r2) 0 i =x= item (sum_normalization r1) i /\
    item_2d (sum_count_2d r2) 0 i =x= item (sum_count r1) i /\
    item_2d (intensity_2d r2) 0 i =x= item (intensity r1) i /\
    forall v2 v1,
      sum_variance_2d r2 = Some v2 -> sum_variance r1 = Some v1 ->
      item_2d v2 0 i =x= item v1 i.
Proof.
  assert (Hnpt : (1 <= npt)%Z).
  { pose proof (histogram1d_engine_Ok _ _ _ _ _ _ _ H1)
      as (range & hs & es & hn & en & hc & position & hv & _ & _ & _ & _ & Hc & _).
    apply histogram_edges in Hc. tauto. }
  pose proof (result_shapes_2d _ _ _ _ _ _ _ _ _ H2) as Hshapes.
  cbv zeta in Hshapes. cbn [fst snd] in Hshapes.
  rewrite (Z.max_r 1 npt Hnpt), (Z.max_l 1 na Hna) in Hshapes.
  change (Z.to_nat 1) with 1%nat in Hshapes.
  destruct Hshapes as (_ & _ & Hish & Hssh & _).
  split; [exact Hssh |]. split; [exact Hish |].
  intros i Hi.
  assert (Hi2 : (i < Z.to_nat (Z.max 1 (fst (npt, na))))%nat)
    by (cbn [fst]; now rewrite (Z.max_r 1 npt Hnpt)).
  assert (Hj2 : (0 < Z.to_nat (Z.max 1 (snd (npt, na))))%nat)
    by (cbn [snd]; rewrite (Z.max_l 1 na Hna); cbn; lia).
  pose proof (intensity_2d_cell _ _ _ _ _ _ _ _ _ H2 Hi2 Hj2) as Hint2.
  pose proof (intensity_1d _ _ _ _ _ _ _ H1 Hi) as Hint1.
  apply histogram1d_engine_Ok in H1.
  destruct H1 as (range & hs & es & hn & en & hc & position & hv
                  & Hlen1 & Hrange & Hs & Hn & Hc & _ & Hv & ->).
  cbn [resolve_radial_range] in Hrange. injection Hrange as <-.
  apply histogram2d_engine_Ok in H2. cbv zeta in H2. cbn [fst snd] in H2.
  rewrite (Z.max_r 1 npt Hnpt), (Z.max_l 1 na Hna) in H2.
  destruct H2 as (Ms & xs & ys & Mn & xn & yn & Mc & pr & pa & Mv
                  & Hlx & Hly & Hs2 & Hn2 & Hc2 & Hv2 & ->).
  pose proof Hc as Hce. apply histogram_edges in Hce.
  destruct Hce as (_ & _ & Hord & Hlo & Hhi).
  destruct (@binned_interval_proper qsqrt radial_range Hord Hlo Hhi)
    as (lo & hi & Hbin & Hlt).
  destruct (@get_outer_edges_proper qsqrt _ _ _ _ Hedges) as (q0 & q1 & -> & -> & Hqlt).
  assert (Hsum : forall w M xe ye h e,
            np.histogram2d (ravel radial) (ravel azimuthal) (npt, 1%Z) w
                           (Some radial_range, azimuth_range) = Ok (M, xe, ye) ->
            np.histogram (ravel radial) npt w (Some radial_range) = Ok (h, e) ->
            item_2d (transpose M) 0 i =x= item h i).
  { intros w M xe ye h e Hh2 Hh1.
    pose proof (@histogram2d_shape _ _ _ _ _ _ _ _ _ _ Hh2) as HM. cbn [fst snd] in HM.
    destruct HM as (_ & _ & HM & _). change (Z.to_nat 1) with 1%nat in HM.
    destruct (Z.to_nat npt) as [|n] eqn:Hnat; [lia |].
    rewrite (item_2d_transpose HM Hi (Nat.lt_0_succ 0)).
    pose proof Hh2 as Hst. apply histogram2d_structure in Hst. cbn [fst snd] in Hst.
    destruct Hst as (x0' & x1' & y0' & y1' & Hx & Hy & _).
    rewrite Hedges in Hy. injection Hy as <- <-.
    pose proof Hx as Hxe. apply get_outer_edges_explicit in Hxe. destruct Hxe as [Hxe _].
    rewrite Hbin in Hxe. injection Hxe as -> ->.
    pose proof (@histogram2d_cell qsqrt _ _ _ _ _ _ _ _ lo hi q0 q1 i 0%nat
                  Hh2 Hx Hedges Hlt Hqlt) as Hcell.
    cbn [fst snd] in Hcell. change (Z.to_nat 1) with 1%nat in Hcell. rewrite Hnat in Hcell.
    specialize (Hcell Hi (Nat.lt_0_succ 0)).
    rewrite (@cell_weights_single _ q0 q1 i (ravel radial) (ravel azimuthal) w Hqlt) in Hcell
      by (congruence || exact Hin).
    pose proof (@histogram_bin qsqrt _ _ _ _ _ _ lo hi i Hh1 Hbin Hlt) as Hbin1.
    rewrite Hnat in Hbin1. specialize (Hbin1 Hi).
    eapply ExactFacts.eq_trans; [exact Hcell | apply ExactFacts.eq_sym; exact Hbin1]. }
  cbn [sum_signal_2d sum_normalization_2d sum_count_2d intensity_2d sum_variance_2d
       sum_signal sum_normalization sum_count intensity sum_variance] in *.
  pose proof (Hsum _ _ _ _ _ _ Hs2 Hs) as Es.
  pose proof (Hsum _ _ _ _ _ _ Hn2 Hn) as En.
  pose proof (Hsum _ _ _ _ _ _ Hc2 Hc) as Ec.
  do 3 (split; [assumption |]). split.
  - rewrite Hint2, Hint1. rewrite (@eq_eqb_zero qsqrt _ _ Ec).
    destruct (item hc i == fof_Z 0)%F; [apply ExactFacts.eq_refl |].
    now apply div_compat.
  - intros v2 v1 Hv2' Hv1'.
    destruct Hv as [[_ ->] | [_ (v & ev & n2 & en2 & Hvar & _ & ->)]];
      [discriminate Hv1' |].
    destruct Hv2 as [[_ ->] | [_ (Mvar & xv & yv & Hvar2 & ->)]];
      [discriminate Hv2' |].
    cbn [option_map fst] in Hv1'. injection Hv1' as <-. injection Hv2' as <-.
    exact (Hsum _ _ _ _ _ _ Hvar2 Hvar).
Qed.

End OneAzimuthalBin.

Section OneAzimuthalBinExamples.
#[local] Hint Extern 0 (Scalar xq) => exact (exact_reading Exact.root) : typeclass_instances.

Lemma single_azimuthal_bin_witness :
  exists r1 r2,
    histogram1d_engine [[Fin 1; Fin 3]] 2 [qx 5 4 1 1; qx 7 9 1 1] None None POISSON
                       (Some (Fin 0, Fin 4)) = Ok r1 /\
    histogram2d_engine [[Fin 1; Fin 3]] [[Fin 10; Fin 20]] (2, 0)%Z
                       [qx 5 4 1 1; qx 7 9 1 1] None None POISSON
                       (Some (Fin 0, Fin 4)) None = Ok r2 /\
    item_2d (sum_signal_2d r2) 0 1 =x= item (sum_signal r1) 1 /\
    item_2d (intensity_2d r2) 0 0 =x= item (intensity r1) 0.
Proof.
  assert (H1 : exists r1,
             histogram1d_engine [[Fin 1; Fin 3]] 2 [qx 5 4 1 1; qx 7 9 1 1] None None
                                POISSON (Some (Fin 0, Fin 4)) = Ok r1)
    by (eexists; vm_compute; reflexivity).
  assert (H2 : exists r2,
             histogram2d_engine [[Fin 1; Fin 3]] [[Fin 10; Fin 20]] (2, 0)%Z
                                [qx 5 4 1 1; qx 7 9 1 1] None None POISSON
                                (Some (Fin 0, Fin 4)) None = Ok r2)
    by (eexists; vm_compute; reflexivity).
  destruct H1 as [r1 H1], H2 as [r2 H2]. exists r1, r2.
  split; [exact H1 |]. split; [exact H2 |].
  destruct (@single_azimuthal_bin Exact.root _ _ _ _ _ _ _ _ _ _ _ _ (Fin 10) (Fin 20) H1 H2)
    as (_ & _ & Hcell).
  - lia.
  - vm_compute. reflexivity.
  - repeat constructor.
  - destruct (Hcell 1%nat ltac:(vm_compute; lia)) as (Hs & _).
    destruct (Hcell 0%nat ltac:(vm_compute; lia)) as (_ & _ & _ & Hi & _).
    split; assumption.
Defined.

End OneAzimuthalBinExamples.
